(** * Blu Area warehouse v1.3: the photo capture / crop / upload pipeline

    A shallow embedding of the client-side photo pipeline:

    - [UploadClient]  : src/lib/uploadClient.js  (upload gateway)
    - [Supabase]      : src/lib/supabase.js      (photo table helpers)
    - [ImageCropper]  : src/components/ImageCropper.jsx
    - [CameraCapture] : src/components/CameraCapture.jsx
    - [CameraModal]   : src/components/CameraModal.jsx
    - [PhotoManagerSecure] : src/components/PhotoManagerSecure.jsx

    Conventions.  JavaScript numbers are rationals ([Q]).  The cropper's
    two renderers are written over an arithmetic ([Js.Arith]): on exact
    numbers ([Js.exact]) where rounding plays no part, and on binary64
    ([B64.binary64], products and quotients rounded to the nearest
    double) where the size of what is rendered is at stake.  Divisions
    whose divisor can be zero in the browser are guarded by hypotheses in
    the theorems that depend on them.  An asynchronous function is
    modelled as the sequential run of its body (each [await] resumes
    before anything else happens); [CameraCapture.startCamera], which the
    component starts while an earlier run is still waiting for the
    camera, is also given in two halves, up to its [await] and from it.
    Effects on the outside world (network, camera tracks, toasts,
    callbacks) are recorded in an explicit state or event log.
    A component is its state record (the [useState] values and the refs);
    a handler is a function on that record, run on the state of the
    render it was created in. *)

From Stdlib Require Import ZArith QArith Qabs Qround Qminmax Qpower String Ascii Lia Lqa.
From Stdlib Require Import DecimalString.
From Stdlib Require Import Floats.
From stdpp Require Import base option list gmap sorting.

Local Open Scope Z_scope.
Local Open Scope string_scope.
Local Open Scope list_scope.

(* ===================================================================== *)
(** * A small state monad for code that talks to the outside world        *)
(* ===================================================================== *)

Module Eff.

Definition M (S A : Type) : Type := S -> A * S.

Definition ret {S A} (a : A) : M S A := fun s => (a, s).

Definition bind {S A B} (m : M S A) (k : A -> M S B) : M S B :=
  fun s => let '(a, s') := m s in k a s'.

Definition run {S A} (m : M S A) (s : S) : A * S := m s.

End Eff.

Notation "x <- m ;; k" := (Eff.bind m (fun x => k))
  (at level 100, m at next level, right associativity).

(* ===================================================================== *)
(** * src/lib/uploadClient.js                                             *)
(* ===================================================================== *)

Module UploadClient.

(** The part of a browser [File] the client reads. *)
Record File := mkFile {
  file_name : string;
  file_type : string;   (* MIME type *)
  file_size : Z         (* bytes *)
}.

(** A row of [product_photos] as the endpoint returns it. *)
Record PhotoDescriptor := mkPhoto {
  id : Z;
  product_id : option string;
  file_path : string;
  mime_type : string;
  is_primary : bool;
  created_at : Z
}.

(** [{ message, details }] *)
Record Error := mkError {
  message : string;
  details : option string
}.

(** [{ data, error }], the shape every helper returns. *)
Record Result := mkResult {
  data : option PhotoDescriptor;
  error : option Error
}.

(** The four fields appended to the [FormData] of an upload. *)
Record FormData := mkFormData {
  fd_file : File;
  fd_productId : string;
  fd_sku : string;
  fd_isFirst : string
}.

Inductive Body :=
| FormBody (fd : FormData)
| JsonBody (action : string) (photoId : Z) (productId : option string).

Record Request := mkRequest {
  req_url : string;
  req_method : string;
  req_body : Body
}.

(** The JSON document an endpoint answers with. *)
Record ApiJson := mkApiJson {
  json_error : option string;
  json_details : option string;
  json_data : option PhotoDescriptor
}.

(** What [fetch] followed by [response.json()] can do: [fetch] rejects
    (transport failure), or a response arrives whose body either fails
    to parse ([inl], the exception's message) or parses ([inr]). *)
Inductive FetchOutcome :=
| FetchRejects (msg : string)
| FetchResponds (ok : bool) (body : string + ApiJson).

(** The network: the log of the requests issued so far. *)
Definition Net := list Request.

(** [s || dflt] on a possibly-missing string: the empty string is falsy. *)
Definition or_default (s : option string) (dflt : string) : string :=
  match s with
  | Some (String c r) => String c r
  | _ => dflt
  end.

(** [isFirst.toString()] *)
Definition bool_toString (b : bool) : string :=
  if b then "true" else "false".

(** [productId || ''] *)
Definition productId_field (productId : option string) : string :=
  or_default productId EmptyString.

(** [uploadConfig] *)
Record UploadConfig := mkUploadConfig {
  cfg_maxFileSize : Z;
  cfg_apiEndpoint : string;
  cfg_photoActionsEndpoint : string;
  cfg_allowedTypes : list string;
  cfg_maxFiles : Z
}.

Definition uploadConfig : UploadConfig :=
  {| cfg_maxFileSize := 10 * 1024 * 1024;
     cfg_apiEndpoint := "/api/upload-photo";
     cfg_photoActionsEndpoint := "/api/photo-actions";
     cfg_allowedTypes := ["image/jpeg"; "image/jpg"; "image/png"; "image/webp"];
     cfg_maxFiles := 10 |}.

(** The three local validation errors of [uploadProductPhotoSecure]. *)
Definition NoFile : Error :=
  {| message := "Nessun file fornito"; details := None |}.
Definition InvalidFormat : Error :=
  {| message := "Solo immagini sono permesse"; details := None |}.
Definition TooLarge : Error :=
  {| message := "File troppo grande (max 10MB)"; details := None |}.

(** The [catch] branch: [{ message: 'Errore di rete', details: error.message }]. *)
Definition TransportError (msg : string) : Error :=
  {| message := "Errore di rete"; details := Some msg |}.

Definition failure (e : Error) : Result := {| data := None; error := Some e |}.

(** [file.type.startsWith('image/')] *)
Definition is_image_type (ty : string) : bool := String.prefix "image/" ty.

(** "An accepted image type", read against the configuration the module
    exports: one of [uploadConfig.allowedTypes]. *)
Definition spec_accepted_type (ty : string) : Prop :=
  In ty (cfg_allowedTypes uploadConfig).

Section Client.

(** [process.env.NODE_ENV] *)
Variable NODE_ENV : string.

(** The remote side: what a request is answered with, given the
    requests that came before it. *)
Variable server : Net -> Request -> FetchOutcome.

Definition API_BASE_URL : string :=
  if String.eqb NODE_ENV "production" then EmptyString
  else "http://localhost:3001".

(** [fetch(url, init)] followed by [response.json()]. *)
Definition fetch (req : Request) : Eff.M Net FetchOutcome :=
  fun net => (server net req, net ++ [req]).

Definition upload_request (file : File) (productId : option string)
    (sku : string) (isFirst : bool) : Request :=
  {| req_url := API_BASE_URL ++ "/api/upload-photo";
     req_method := "POST";
     req_body := FormBody {| fd_file := file;
                             fd_productId := productId_field productId;
                             fd_sku := sku;
                             fd_isFirst := bool_toString isFirst |} |}.

Definition uploadProductPhotoSecure (file : option File)
    (productId : option string) (sku : string) (isFirst : bool)
  : Eff.M Net Result :=
  match file with
  | None => Eff.ret (failure NoFile)
  | Some f =>
      if negb (is_image_type (file_type f)) then
        Eff.ret (failure InvalidFormat)
      else if file_size f >? 10 * 1024 * 1024 then
        Eff.ret (failure TooLarge)
      else
        outcome <- fetch (upload_request f productId sku isFirst) ;;
        match outcome with
        | FetchRejects msg => Eff.ret (failure (TransportError msg))
        | FetchResponds _ (inl msg) => Eff.ret (failure (TransportError msg))
        | FetchResponds false (inr result) =>
            Eff.ret (failure
              {| message := or_default (json_error result) "Errore upload";
                 details := json_details result |})
        | FetchResponds true (inr result) =>
            Eff.ret {| data := json_data result; error := None |}
        end
  end.

Definition setPrimary_request (photoId : Z) (productId : option string)
  : Request :=
  {| req_url := API_BASE_URL ++ "/api/photo-actions";
     req_method := "POST";
     req_body := JsonBody "setPrimary" photoId productId |}.

(** Imposta una foto come primaria *)
Definition setPrimaryPhotoSecure (photoId : Z) (productId : option string)
  : Eff.M Net Result :=
  outcome <- fetch (setPrimary_request photoId productId) ;;
  match outcome with
  | FetchRejects msg => Eff.ret (failure (TransportError msg))
  | FetchResponds _ (inl msg) => Eff.ret (failure (TransportError msg))
  | FetchResponds false (inr result) =>
      Eff.ret (failure
        {| message := or_default (json_error result)
                        "Errore nell'impostazione foto primaria";
           details := None |})
  | FetchResponds true (inr result) =>
      Eff.ret {| data := json_data result; error := None |}
  end.

End Client.

(** One entry of the [errors] array of a batch. *)
Record BatchError := mkBatchError {
  be_file : string;
  be_error : Error
}.

(** [{ successes, errors }] *)
Record Batch := mkBatch {
  successes : list (option PhotoDescriptor);
  errors : list BatchError
}.

Section Batch.

Context {S : Type}.

(** The uploader the loop awaits, one call per file. *)
Variable upload :
  option File -> option string -> string -> bool -> Eff.M S Result.

Variable productId : option string.
Variable sku : string.

(** The body of [for (let i = 0; i < files.length; i++)], from index
    [i] on, with the two arrays accumulated so far. *)
Fixpoint upload_loop (i : nat) (files : list File) (acc : Batch)
  : Eff.M S Batch :=
  match files with
  | [] => Eff.ret acc
  | file :: rest =>
      let isFirst := Nat.eqb i 0 in
      result <- upload (Some file) productId sku isFirst ;;
      match error result with
      | Some e =>
          upload_loop (Datatypes.S i) rest
            {| successes := successes acc;
               errors := errors acc ++
                 [ {| be_file := file_name file; be_error := e |} ] |}
      | None =>
          upload_loop (Datatypes.S i) rest
            {| successes := successes acc ++ [data result];
               errors := errors acc |}
      end
  end.

Definition uploadMultiplePhotosWith (files : list File) : Eff.M S Batch :=
  upload_loop 0 files {| successes := []; errors := [] |}.

End Batch.

Definition uploadMultiplePhotos (NODE_ENV : string)
    (server : Net -> Request -> FetchOutcome)
    (files : list File) (productId : option string) (sku : string)
  : Eff.M Net Batch :=
  uploadMultiplePhotosWith (uploadProductPhotoSecure NODE_ENV server)
    productId sku files.







(** ** Deleting a photo through the endpoint *)

Section Actions.

Variable NODE_ENV : string.
Variable server : Net -> Request -> FetchOutcome.

Definition delete_request (photoId : Z) : Request :=
  {| req_url := API_BASE_URL NODE_ENV ++ "/api/photo-actions";
     req_method := "POST";
     req_body := JsonBody "delete" photoId None |}.

(** Elimina una foto prodotto *)
Definition deleteProductPhotoSecure (photoId : Z) : Eff.M Net Result :=
  outcome <- fetch server (delete_request photoId) ;;
  match outcome with
  | FetchRejects msg => Eff.ret (failure (TransportError msg))
  | FetchResponds _ (inl msg) => Eff.ret (failure (TransportError msg))
  | FetchResponds false (inr result) =>
      Eff.ret (failure
        {| message := or_default (json_error result)
                        "Errore nell'eliminazione foto";
           details := None |})
  | FetchResponds true (inr result) =>
      Eff.ret {| data := json_data result; error := None |}
  end.

End Actions.

End UploadClient.

(* ===================================================================== *)
(** * src/lib/supabase.js : the photo helpers of [db]                     *)
(* ===================================================================== *)

Module Supabase.

Import UploadClient.

(** The remote [product_photos] table, and the number of statements
    sent to it so far. *)
Record Remote := mkRemote {
  rows : list PhotoDescriptor;
  sent : nat
}.

(** [{ data, error }] of a statement that selects nothing back. *)
Record DbResult := mkDbResult {
  db_error : option string
}.

Definition with_is_primary (b : bool) (r : PhotoDescriptor) : PhotoDescriptor :=
  {| id := id r; product_id := product_id r; file_path := file_path r;
     mime_type := mime_type r; is_primary := b; created_at := created_at r |}.

Section Db.

(** [isSupabaseConfigured] *)
Variable isSupabaseConfigured : bool.

(** Whether the [n]-th statement sent to the service is carried out;
    when it is not, the client resolves to [{ error }] and the table
    is left as it was (the client never throws). *)
Variable carried_out : nat -> bool.

(** [supabase.from('product_photos').update(patch).<filter>] *)
Definition update (patch : PhotoDescriptor -> PhotoDescriptor)
    (filter : PhotoDescriptor -> bool) : Eff.M Remote DbResult :=
  fun db =>
    if carried_out (sent db) then
      ({| db_error := None |},
       {| rows := map (fun r => if filter r then patch r else r) (rows db);
          sent := Datatypes.S (sent db) |})
    else
      ({| db_error := Some "request failed" |},
       {| rows := rows db; sent := Datatypes.S (sent db) |}).

(** [.eq('product_id', productId)] *)
Definition eq_product_id (productId : string) (r : PhotoDescriptor) : bool :=
  match product_id r with
  | Some p => String.eqb p productId
  | None => false
  end.

(** [.eq('id', photoId)] *)
Definition eq_id (photoId : Z) (r : PhotoDescriptor) : bool :=
  Z.eqb (id r) photoId.

Definition setPrimaryPhoto (photoId : Z) (productId : string)
  : Eff.M Remote DbResult :=
  if negb isSupabaseConfigured then
    Eff.ret {| db_error := Some "Supabase non configurato" |}
  else
    (* Prima rimuovi il flag primary da tutte le foto del prodotto *)
    _ <- update (with_is_primary false) (eq_product_id productId) ;;
    (* Poi imposta la foto selezionata come primary *)
    update (with_is_primary true) (eq_id photoId).

End Db.

(** The photos of an owning record that carry the primary flag. *)
Definition primaries (productId : string) (t : list PhotoDescriptor)
  : list PhotoDescriptor :=
  List.filter (fun r => eq_product_id productId r && is_primary r) t.

(** The two statements of [setPrimaryPhoto], applied to a table one
    after the other. *)
Definition clear_then_set (photoId : Z) (productId : string)
    (t : list PhotoDescriptor) : list PhotoDescriptor :=
  map (fun r => if eq_id photoId r then with_is_primary true r else r)
    (map (fun r => if eq_product_id productId r then with_is_primary false r else r) t).

(** ** The other photo helpers, and the dashboard *)

(** [String.prototype.includes] *)
Fixpoint includes (needle hay : string) : bool :=
  String.prefix needle hay
  || match hay with
     | EmptyString => false
     | String _ rest => includes needle rest
     end.

(** [isSupabaseConfigured], from the two environment variables: both
    present and non-empty, neither containing 'placeholder'. *)
Definition isSupabaseConfigured (supabaseUrl supabaseAnonKey : option string)
  : bool :=
  match supabaseUrl, supabaseAnonKey with
  | Some (String _ _ as url), Some (String _ _ as key) =>
      negb (includes "placeholder" url) && negb (includes "placeholder" key)
  | _, _ => false
  end.

(** [{ data, error }] of a select on [product_photos]. *)
Record Listing := mkListing {
  list_data : option (list PhotoDescriptor);
  list_error : option string
}.

(** [.order('is_primary', { ascending: false })
     .order('created_at', { ascending: true })]: a row with the flag comes
    before a row without it; among rows with the same flag the older
    comes first. *)
Definition comes_first (a b : PhotoDescriptor) : bool :=
  match is_primary a, is_primary b with
  | true, false => true
  | false, true => false
  | _, _ => (created_at a <=? created_at b)%Z
  end.

Definition photo_order : relation PhotoDescriptor :=
  fun a b => comes_first a b = true.

#[global] Instance photo_order_dec (a b : PhotoDescriptor) :
  Decision (photo_order a b) := bool_eq_dec (comes_first a b) true.

Section Photos.

Variable configured : bool.
Variable carried_out : nat -> bool.

(** [supabase.from('product_photos').select('*').<filter>.order(..).order(..)] *)
Definition select_ordered (filter : PhotoDescriptor -> bool)
  : Eff.M Remote Listing :=
  fun db =>
    if carried_out (sent db) then
      ({| list_data := Some (merge_sort photo_order (List.filter filter (rows db)));
          list_error := None |},
       {| rows := rows db; sent := Datatypes.S (sent db) |})
    else
      ({| list_data := None; list_error := Some "request failed" |},
       {| rows := rows db; sent := Datatypes.S (sent db) |}).

Definition getProductPhotos (productId : string) : Eff.M Remote Listing :=
  if negb configured then
    Eff.ret {| list_data := Some [];
               list_error := Some "Supabase non configurato" |}
  else select_ordered (eq_product_id productId).

(** [supabase.from('product_photos').delete().<filter>] *)
Definition delete_where (filter : PhotoDescriptor -> bool)
  : Eff.M Remote DbResult :=
  fun db =>
    if carried_out (sent db) then
      ({| db_error := None |},
       {| rows := List.filter (fun r => negb (filter r)) (rows db);
          sent := Datatypes.S (sent db) |})
    else
      ({| db_error := Some "request failed" |},
       {| rows := rows db; sent := Datatypes.S (sent db) |}).

Definition deleteProductPhoto (photoId : Z) : Eff.M Remote DbResult :=
  if negb configured then
    Eff.ret {| db_error := Some "Supabase non configurato" |}
  else delete_where (eq_id photoId).

End Photos.

(** A row of [products], as far as the dashboard reads it. *)
Record Product := mkProduct {
  p_id : Z;
  p_sku : string;
  p_article : string;
  p_quantity_stock : Z;
  p_price : Q;
  p_created_at : Z
}.

(** The remote [products] table and the statements sent to it. *)
Record Catalog := mkCatalog {
  products : list Product;
  cat_sent : nat
}.

(** [{ id, sku, article, created_at }] *)
Record Recent := mkRecent {
  rc_id : Z;
  rc_sku : string;
  rc_article : string;
  rc_created_at : Z
}.

Record Stats := mkStats {
  totalProducts : nat;
  lowStockProducts : nat;
  totalValue : Q;
  recentProducts : list Recent
}.

(** [{ data, error }] of [getDashboardStats]. *)
Record StatsResult := mkStatsResult {
  stats_data : option Stats;
  stats_error : option string
}.

(** [.order('created_at', { ascending: false })] *)
Definition newer_first : relation Product :=
  fun a b => (p_created_at b <= p_created_at a)%Z.

#[global] Instance newer_first_dec (a b : Product) :
  Decision (newer_first a b) := Z_le_dec (p_created_at b) (p_created_at a).

Definition recent_of (p : Product) : Recent :=
  {| rc_id := p_id p; rc_sku := p_sku p; rc_article := p_article p;
     rc_created_at := p_created_at p |}.

Section Dashboard.

Variable configured : bool.
Variable carried_out : nat -> bool.

(** A select on [products]: the rows, or the error of the service. *)
Definition select_products (view : list Product -> list Product)
  : Eff.M Catalog (string + list Product) :=
  fun c =>
    (if carried_out (cat_sent c) then inr (view (products c))
     else inl "request failed",
     {| products := products c; cat_sent := Datatypes.S (cat_sent c) |}).

Definition getDashboardStats : Eff.M Catalog StatsResult :=
  if negb configured then
    Eff.ret {| stats_data := Some {| totalProducts := 0; lowStockProducts := 0;
                                      totalValue := 0; recentProducts := [] |};
               stats_error := None |}
  else
    (* Statistiche base *)
    answer <- select_products (fun ps => ps) ;;
    match answer with
    | inl productsError =>
        Eff.ret {| stats_data := None; stats_error := Some productsError |}
    | inr products =>
        let totalProducts := length products in
        let lowStockProducts :=
          length (List.filter (fun p => (p_quantity_stock p <? 10)%Z) products) in
        let totalValue :=
          fold_left
            (fun sum p => (sum + p_price p * inject_Z (p_quantity_stock p))%Q)
            products 0%Q in
        (* Prodotti recenti *)
        answer <- select_products
                    (fun ps => take 5 (merge_sort newer_first ps)) ;;
        match answer with
        | inl recentError =>
            Eff.ret {| stats_data := None; stats_error := Some recentError |}
        | inr recentProducts =>
            Eff.ret
              {| stats_data :=
                   Some {| totalProducts := totalProducts;
                           lowStockProducts := lowStockProducts;
                           totalValue := totalValue;
                           recentProducts := map recent_of recentProducts |};
                 stats_error := None |}
        end
    end.

End Dashboard.

End Supabase.

(* ===================================================================== *)
(** * JavaScript numbers, idealised                                       *)
(* ===================================================================== *)

Module Js.

Local Open Scope Q_scope.

(** [!v] on a number: zero is the falsy one. *)
Definition falsy (v : Q) : bool := Qeq_bool v 0.

(** [a > b] *)
Definition gt (a b : Q) : bool :=
  match a ?= b with
  | Gt => true
  | _ => false
  end.

(** Truncation towards zero. *)
Definition trunc (v : Q) : Z :=
  if Qle_bool 0 v then Qfloor v else Qceiling v.

(** The conversion of a number to an [unsigned long]: truncate, then
    reduce modulo 2^32. *)
Definition to_unsigned_long (v : Q) : Z := (trunc v mod 2 ^ 32)%Z.

(** Storing a number into [canvas.width] (default 300) or
    [canvas.height] (default 150): the attribute reflects an unsigned long
    limited to 2147483647, so a converted value above that is replaced by
    the default. *)
Definition canvas_attribute (dflt : Z) (v : Q) : Z :=
  let n := to_unsigned_long v in
  if (n <=? 2147483647)%Z then n else dflt.

(** The arithmetic a computation on numbers is run with: [a * b] and
    [a / b], each delivering a number. *)
Record Arith : Type := { mul : Q -> Q -> Q; div : Q -> Q -> Q }.

(** Numbers idealised: products and quotients are exact. *)
Definition exact : Arith := {| mul := Qmult; div := Qdiv |}.

(** [`${n}`] for an integer-valued number below 1e21: its decimal
    digits. *)
Definition integer_toString (n : Z) : string :=
  NilZero.string_of_int (Z.to_int n).

End Js.

(* ===================================================================== *)
(** * JavaScript numbers, as binary64                                     *)
(* ===================================================================== *)

(** A JavaScript number is an IEEE 754 double: the result of [a * b]
    and [a / b] is the double nearest to the exact result, ties going to
    the even significand.  The doubles are the rationals
    [m * 2^e] with [|m| < 2^53] and [-1074 <= e]; the largest one is not
    modelled (no computation here comes near it). *)
Module B64.

Local Open Scope Q_scope.

(** Round to the nearest integer, ties to even. *)
Definition rne (y : Q) : Z :=
  let f := Qfloor y in
  match Qcompare (y - inject_Z f) (1 # 2) with
  | Lt => f
  | Gt => (f + 1)%Z
  | Eq => if Z.even f then f else (f + 1)%Z
  end.

(** The exponent of the last place of a positive number: [e] with
    [2^52 <= x / 2^e < 2^53], and not below that of the subnormals. *)
Definition exponent (x : Q) : Z :=
  let e0 := (Z.log2 (Qnum x) - Z.log2 (Zpos (Qden x)) - 53)%Z in
  let e1 := if Qle_bool (2 ^ 53) (x / 2 ^ e0) then (e0 + 1)%Z else e0 in
  Z.max e1 (-1074).

Definition round_pos (x : Q) : Q :=
  inject_Z (rne (x / 2 ^ exponent x)) * 2 ^ exponent x.

(** The double nearest to [x]. *)
Definition round (x : Q) : Q :=
  match Qcompare x 0 with
  | Eq => 0
  | Gt => round_pos x
  | Lt => - round_pos (- x)
  end.

Definition mul (a b : Q) : Q := round (a * b).
Definition div (a b : Q) : Q := round (a / b).

Definition binary64 : Js.Arith := {| Js.mul := mul; Js.div := div |}.

(** Half the spacing of the subnormals. *)
Definition eta : Q := 2 ^ (-1075).

(** The unit roundoff, [2^-53]. *)
Definition u : Q := 1 # 9007199254740992.

(** [y] is [x] up to the error of one rounding in the normal range. *)
Definition near (x y : Q) : Prop :=
  x * (1 - 2 * u) <= y /\ y <= x * (1 + 2 * u).

End B64.

(* ===================================================================== *)
(** * src/components/ImageCropper.jsx                                     *)
(* ===================================================================== *)

Module ImageCropper.

Local Open Scope Q_scope.

(** [{ x, y, width, height }], the crop rectangle. *)
Module Area.
Record t := mk { x : Q; y : Q; width : Q; height : Q }.
End Area.

(** [{ x, y }] *)
Module Point.
Record t := mk { x : Q; y : Q }.
End Point.

(** [{ width, height }] in whole pixels. *)
Module Size.
Record t := mk { width : Z; height : Z }.
End Size.

(** [canvas.getBoundingClientRect()] *)
Module DOMRect.
Record t := mk { left : Q; top : Q; width : Q; height : Q }.
End DOMRect.

(** The part of a mouse event the handlers read. *)
Module MouseEvent.
Record t := mk { clientX : Q; clientY : Q }.
End MouseEvent.

Record Blob := mkBlob {
  blob_size : Z;
  blob_type : string
}.

(** One [drawImage] of a source sub-rectangle into a canvas that was
    just resized, followed by [toBlob] with a type and a quality. *)
Record Rendering := mkRendering {
  canvas_width : Z;       (* canvas.width after the assignment *)
  canvas_height : Z;      (* canvas.height after the assignment *)
  source : Area.t;        (* sx, sy, sWidth, sHeight *)
  finalWidth : Q;         (* dWidth *)
  finalHeight : Q;        (* dHeight *)
  mime : string;
  encoder_quality : Q
}.

Inductive Target := PreviewCanvas | FreshCanvas.

Inductive Event :=
| ToastError (msg : string)
| Render (target : Target) (r : Rendering)
| RevokeObjectURL (b : Blob)   (* URL.revokeObjectURL(previewBlob): handed the
                                 Blob itself, for which no URL was made *)
| ConsoleLog (b : Blob)
| OnConfirm (b : Blob).

Record State := mkState {
  cropArea : Area.t;
  isDragging : bool;
  dragStart : Point.t;
  imageSize : Size.t;
  scale : Q;
  quality : Q;
  outputSize : Size.t;
  previewBlob : option Blob;
  isProcessing : bool;
  (* refs *)
  canvas : Size.t;                 (* canvasRef.current *)
  imageRef : option Size.t         (* imageRef.current, a loaded image *)
}.

(** The state of a freshly mounted component (the canvas element has
    the default size of the HTML standard). *)
Definition initial : State :=
  {| cropArea := Area.mk 0 0 0 0;
     isDragging := false;
     dragStart := Point.mk 0 0;
     imageSize := Size.mk 0 0;
     scale := 1;
     quality := 0.8;
     outputSize := Size.mk 800 600;
     previewBlob := None;
     isProcessing := false;
     canvas := Size.mk 300 150;
     imageRef := None |}.

Definition setCropArea (v : Area.t) (s : State) : State :=
  {| cropArea := v; isDragging := isDragging s; dragStart := dragStart s;
     imageSize := imageSize s; scale := scale s; quality := quality s;
     outputSize := outputSize s; previewBlob := previewBlob s;
     isProcessing := isProcessing s; canvas := canvas s;
     imageRef := imageRef s |}.

Definition setIsDragging (v : bool) (s : State) : State :=
  {| cropArea := cropArea s; isDragging := v; dragStart := dragStart s;
     imageSize := imageSize s; scale := scale s; quality := quality s;
     outputSize := outputSize s; previewBlob := previewBlob s;
     isProcessing := isProcessing s; canvas := canvas s;
     imageRef := imageRef s |}.

Definition setDragStart (v : Point.t) (s : State) : State :=
  {| cropArea := cropArea s; isDragging := isDragging s; dragStart := v;
     imageSize := imageSize s; scale := scale s; quality := quality s;
     outputSize := outputSize s; previewBlob := previewBlob s;
     isProcessing := isProcessing s; canvas := canvas s;
     imageRef := imageRef s |}.

Definition setImageSize (v : Size.t) (s : State) : State :=
  {| cropArea := cropArea s; isDragging := isDragging s;
     dragStart := dragStart s; imageSize := v; scale := scale s;
     quality := quality s; outputSize := outputSize s;
     previewBlob := previewBlob s; isProcessing := isProcessing s;
     canvas := canvas s; imageRef := imageRef s |}.

Definition setScale (v : Q) (s : State) : State :=
  {| cropArea := cropArea s; isDragging := isDragging s;
     dragStart := dragStart s; imageSize := imageSize s; scale := v;
     quality := quality s; outputSize := outputSize s;
     previewBlob := previewBlob s; isProcessing := isProcessing s;
     canvas := canvas s; imageRef := imageRef s |}.

Definition setQuality (v : Q) (s : State) : State :=
  {| cropArea := cropArea s; isDragging := isDragging s;
     dragStart := dragStart s; imageSize := imageSize s; scale := scale s;
     quality := v; outputSize := outputSize s;
     previewBlob := previewBlob s; isProcessing := isProcessing s;
     canvas := canvas s; imageRef := imageRef s |}.

Definition setOutputSize (v : Size.t) (s : State) : State :=
  {| cropArea := cropArea s; isDragging := isDragging s;
     dragStart := dragStart s; imageSize := imageSize s; scale := scale s;
     quality := quality s; outputSize := v;
     previewBlob := previewBlob s; isProcessing := isProcessing s;
     canvas := canvas s; imageRef := imageRef s |}.

Definition setPreviewBlob (v : option Blob) (s : State) : State :=
  {| cropArea := cropArea s; isDragging := isDragging s;
     dragStart := dragStart s; imageSize := imageSize s; scale := scale s;
     quality := quality s; outputSize := outputSize s;
     previewBlob := v; isProcessing := isProcessing s;
     canvas := canvas s; imageRef := imageRef s |}.

Definition setIsProcessing (v : bool) (s : State) : State :=
  {| cropArea := cropArea s; isDragging := isDragging s;
     dragStart := dragStart s; imageSize := imageSize s; scale := scale s;
     quality := quality s; outputSize := outputSize s;
     previewBlob := previewBlob s; isProcessing := v;
     canvas := canvas s; imageRef := imageRef s |}.

Definition setCanvas (v : Size.t) (s : State) : State :=
  {| cropArea := cropArea s; isDragging := isDragging s;
     dragStart := dragStart s; imageSize := imageSize s; scale := scale s;
     quality := quality s; outputSize := outputSize s;
     previewBlob := previewBlob s; isProcessing := isProcessing s;
     canvas := v; imageRef := imageRef s |}.

Definition setImageRef (v : option Size.t) (s : State) : State :=
  {| cropArea := cropArea s; isDragging := isDragging s;
     dragStart := dragStart s; imageSize := imageSize s; scale := scale s;
     quality := quality s; outputSize := outputSize s;
     previewBlob := previewBlob s; isProcessing := isProcessing s;
     canvas := canvas s; imageRef := v |}.

(** ** The image-load effect: [img.onload] *)

Definition margin : Q := 0.1.

Definition onload (img : Size.t) (s : State) : State :=
  let s := setImageSize (Size.mk (Size.width img) (Size.height img)) s in
  (* Imposta area di ritaglio iniziale (80% dell'immagine) *)
  let s := setCropArea
    {| Area.x := inject_Z (Size.width img) * margin;
       Area.y := inject_Z (Size.height img) * margin;
       Area.width := inject_Z (Size.width img) * (1 - 2 * margin);
       Area.height := inject_Z (Size.height img) * (1 - 2 * margin) |} s in
  let s := setCanvas (Size.mk (Size.width img) (Size.height img)) s in
  setImageRef (Some img) s.

(** ** The drag gesture *)

(** The event position in canvas pixels: [(e.clientX - rect.left) * scaleX]
    with [scaleX = canvas.width / rect.width], and likewise for [y]. *)
Definition pointer (s : State) (rect : DOMRect.t) (e : MouseEvent.t) : Point.t :=
  let scaleX := inject_Z (Size.width (canvas s)) / DOMRect.width rect in
  let scaleY := inject_Z (Size.height (canvas s)) / DOMRect.height rect in
  {| Point.x := (MouseEvent.clientX e - DOMRect.left rect) * scaleX;
     Point.y := (MouseEvent.clientY e - DOMRect.top rect) * scaleY |}.

Definition handleMouseDown (rect : DOMRect.t) (e : MouseEvent.t) (s : State)
  : State :=
  let p := pointer s rect e in
  let x := Point.x p in
  let y := Point.y p in
  let s := setIsDragging true s in
  let s := setDragStart {| Point.x := x; Point.y := y |} s in
  setCropArea
    {| Area.x := x; Area.y := y; Area.width := 0; Area.height := 0 |} s.

Definition handleMouseMove (rect : DOMRect.t) (e : MouseEvent.t) (s : State)
  : State :=
  if negb (isDragging s) then s
  else
    let p := pointer s rect e in
    let x := Point.x p in
    let y := Point.y p in
    let width := Qabs (x - Point.x (dragStart s)) in
    let height := Qabs (y - Point.y (dragStart s)) in
    let startX := Qmin x (Point.x (dragStart s)) in
    let startY := Qmin y (Point.y (dragStart s)) in
    setCropArea
      {| Area.x := startX; Area.y := startY;
         Area.width := width; Area.height := height |} s.

Definition handleMouseUp (s : State) : State := setIsDragging false s.

(** ** Rendering *)

Section Render.

(** The browser's JPEG encoder behind [canvas.toBlob]; it may hand
    the callback [null]. *)
Variable toBlob : Rendering -> option Blob.

(** The guard both renderers start with:
    [!imageRef.current || !cropArea.width || !cropArea.height]. *)
Definition nothing_to_render (s : State) : bool :=
  match imageRef s with
  | None => true
  | Some _ =>
      Js.falsy (Area.width (cropArea s)) || Js.falsy (Area.height (cropArea s))
  end.

(** The message of the toast raised when there is nothing to crop. *)
Definition NoRegionSelected : string := "Seleziona un'area da ritagliare".

(** The two renderers, on the arithmetic [num] ([*] is [Js.mul num] and
    [/] is [Js.div num]). *)
Definition updatePreview_on (num : Js.Arith) (s : State) : State * list Event :=
  if nothing_to_render s then (s, [])
  else
    (* Calcola dimensioni finali mantenendo aspect ratio *)
    let aspectRatio :=
      Js.div num (Area.width (cropArea s)) (Area.height (cropArea s)) in
    let finalWidth := inject_Z (Size.width (outputSize s)) in
    let finalHeight := inject_Z (Size.height (outputSize s)) in
    let '(finalWidth, finalHeight) :=
      if Js.gt (Js.div num finalWidth finalHeight) aspectRatio
      then (Js.mul num finalHeight aspectRatio, finalHeight)
      else (finalWidth, Js.div num finalWidth aspectRatio) in
    let r :=
      {| canvas_width := Js.canvas_attribute 300 finalWidth;
         canvas_height := Js.canvas_attribute 150 finalHeight;
         source := cropArea s;
         finalWidth := finalWidth;
         finalHeight := finalHeight;
         mime := "image/jpeg";
         encoder_quality := quality s |} in
    let blob := toBlob r in
    (setPreviewBlob blob s,
     Render PreviewCanvas r ::
     match previewBlob s with
     | Some old => [RevokeObjectURL old]
     | None => []
     end).

Definition handleConfirm_on (num : Js.Arith) (s : State) : State * list Event :=
  if nothing_to_render s then
    (s, [ToastError NoRegionSelected])
  else
    let s := setIsProcessing true s in
    (* Calcola dimensioni finali *)
    let aspectRatio :=
      Js.div num (Area.width (cropArea s)) (Area.height (cropArea s)) in
    let finalWidth := Js.mul num (inject_Z (Size.width (outputSize s))) (scale s) in
    let finalHeight := Js.mul num (inject_Z (Size.height (outputSize s))) (scale s) in
    let '(finalWidth, finalHeight) :=
      if Js.gt (Js.div num finalWidth finalHeight) aspectRatio
      then (Js.mul num finalHeight aspectRatio, finalHeight)
      else (finalWidth, Js.div num finalWidth aspectRatio) in
    let r :=
      {| canvas_width := Js.canvas_attribute 300 finalWidth;
         canvas_height := Js.canvas_attribute 150 finalHeight;
         source := cropArea s;
         finalWidth := finalWidth;
         finalHeight := finalHeight;
         mime := "image/jpeg";
         encoder_quality := quality s |} in
    (setIsProcessing false s,
     Render FreshCanvas r ::
     match toBlob r with
     | Some blob => [ConsoleLog blob; OnConfirm blob]
     | None => []
     end).

(** The renderers on exact numbers. *)
Definition updatePreview : State -> State * list Event :=
  updatePreview_on Js.exact.

Definition handleConfirm : State -> State * list Event :=
  handleConfirm_on Js.exact.

(** The effect with dependencies [cropArea, scale, quality, outputSize]:
    after any of them is set, the preview is refreshed. *)
Definition preview_effect (s : State) : State * list Event :=
  updatePreview s.

End Render.

(** The rendering an event list contains, if any. *)
Definition rendered (evs : list Event) : option Rendering :=
  match evs with
  | Render _ r :: _ => Some r
  | _ => None
  end.

(** The blobs handed to [onConfirm]. *)
Fixpoint confirmed (evs : list Event) : list Blob :=
  match evs with
  | [] => []
  | OnConfirm b :: rest => b :: confirmed rest
  | _ :: rest => confirmed rest
  end.

(** The renderings performed. *)
Fixpoint renderings (evs : list Event) : list Rendering :=
  match evs with
  | [] => []
  | Render _ r :: rest => r :: renderings rest
  | _ :: rest => renderings rest
  end.

(** ** Vocabulary for the size of a rendering *)

(** The [if]/[else] both renderers go through after computing
    [aspectRatio] and the requested [finalWidth] and [finalHeight]. *)
Definition fit_on (num : Js.Arith) (aspectRatio finalWidth finalHeight : Q)
  : Q * Q :=
  if Js.gt (Js.div num finalWidth finalHeight) aspectRatio
  then (Js.mul num finalHeight aspectRatio, finalHeight)
  else (finalWidth, Js.div num finalWidth aspectRatio).

Definition fit : Q -> Q -> Q -> Q * Q := fit_on Js.exact.

(** The canvas has the size of the rendering, rounded down to whole
    pixels: each side is less than one pixel short. *)
Definition within_one_pixel (r : Rendering) : Prop :=
  (inject_Z (canvas_width r) <= finalWidth r
   /\ finalWidth r < inject_Z (canvas_width r) + 1)
  /\ (inject_Z (canvas_height r) <= finalHeight r
      /\ finalHeight r < inject_Z (canvas_height r) + 1).

(** The rounding error allowed to a size computed in binary64,
    relative to its exact value: [2^-50]. *)
Definition tolerance : Q := 1 # 1125899906842624.

(** A rendering fitted into a requested [W] by [H] box for a crop of
    [cw] by [ch], up to rounding: its sides are in the ratio of the crop
    within the tolerance; one side is the requested one and the other is
    not above the requested one by more than the tolerance; the height is
    the one kept when [W / H] exceeds the ratio of the crop, the width
    when it is below it (by more than the tolerance, either way); and the
    canvas is that size rounded down. *)
Definition fitted (cw ch W H : Q) (r : Rendering) : Prop :=
  0 < finalWidth r /\ 0 < finalHeight r
  /\ Qabs (finalWidth r / finalHeight r - cw / ch) <= cw / ch * tolerance
  /\ ((finalHeight r == H /\ finalWidth r <= W * (1 + tolerance))
      \/ (finalWidth r == W /\ finalHeight r <= H * (1 + tolerance)))
  /\ (cw / ch * (1 + tolerance) <= W / H -> finalHeight r == H)
  /\ (W / H <= cw / ch * (1 - tolerance) -> finalWidth r == W)
  /\ within_one_pixel r.

(** The sentence "the larger of requested width/height is shrunk", read
    literally: the longer side of the request is the one cut down and
    the other side is kept. *)
Definition spec_larger_side_shrunk (W H : Q) (r : Rendering) : Prop :=
  (H <= W -> finalHeight r == H /\ finalWidth r <= W)
  /\ (W < H -> finalWidth r == W /\ finalHeight r <= H).

(** The rendering of the current crop at a given size, as both
    renderers set it up: canvas resized, crop drawn, JPEG requested. *)
Definition render_at (s : State) (size : Q * Q) : Rendering :=
  {| canvas_width := Js.canvas_attribute 300 (fst size);
     canvas_height := Js.canvas_attribute 150 (snd size);
     source := cropArea s;
     finalWidth := fst size;
     finalHeight := snd size;
     mime := "image/jpeg";
     encoder_quality := quality s |}.

(** ** The caption under the preview *)

(** [Math.round] *)
Definition round (v : Q) : Z := Qfloor (v + 0.5).

(** "Dimensioni: W x H px", shown under the preview image. *)
Definition preview_caption (s : State) : Z * Z :=
  (round (inject_Z (Size.width (outputSize s)) * scale s),
   round (inject_Z (Size.height (outputSize s)) * scale s)).

Definition canvas_size (r : Rendering) : Z * Z :=
  (canvas_width r, canvas_height r).

End ImageCropper.

(* ===================================================================== *)
(** * The camera: streams, tracks and the log of what happened to them    *)
(* ===================================================================== *)

Module Camera.

(** A [MediaStream] and the ids of the tracks [getTracks()] returns. *)
Record MediaStream := mkStream {
  stream_id : nat;
  tracks : list nat
}.

Inductive FacingMode := user | environment.

(** The [video] constraints of a request. *)
Record Constraints := mkConstraints {
  facing : FacingMode;
  ideal_width : Z;
  ideal_height : Z;
  min_size : option (Z * Z)
}.

Inductive Event :=
| TrackStop (track : nat)              (* track.stop() *)
| GetUserMedia (c : Constraints)       (* the request is issued *)
| Granted (s : MediaStream)            (* the device starts streaming *)
| Toast (msg : string).                (* toast.error *)

Definition Log := list Event.

(** What a request resolves to: the name of the exception it rejects
    with, or a stream. *)
Definition Answer : Type := string + MediaStream.

Definition emit (e : Event) : Eff.M Log unit :=
  fun log => (tt, log ++ [e]).

(** [stream.getTracks().forEach(track => track.stop())] *)
Definition stop_tracks (s : MediaStream) : Eff.M Log unit :=
  fun log => (tt, log ++ map TrackStop (tracks s)).

(** [navigator.mediaDevices.getUserMedia(constraints)], answered by the
    device according to what happened before. *)
Definition getUserMedia (mediaDevices : Log -> Constraints -> Answer)
    (c : Constraints) : Eff.M Log Answer :=
  fun log =>
    match mediaDevices log c with
    | inr s => (inr s, log ++ [GetUserMedia c; Granted s])
    | inl err => (inl err, log ++ [GetUserMedia c])
    end.

(** The tracks that are capturing after a history: a granted stream
    turns its tracks on, [stop()] turns a track off. *)
Fixpoint live_from (on : list nat) (log : Log) : list nat :=
  match log with
  | [] => on
  | TrackStop t :: rest =>
      live_from (List.filter (fun t' => negb (Nat.eqb t' t)) on) rest
  | Granted s :: rest => live_from (on ++ tracks s) rest
  | _ :: rest => live_from on rest
  end.

Definition live (log : Log) : list nat := live_from [] log.

(** The times [stop()] was called on a track. *)
Definition stop_count (t : nat) (log : Log) : nat :=
  length (List.filter
    (fun e => match e with TrackStop t' => Nat.eqb t' t | _ => false end) log).

(** Whatever is capturing after a history belongs to stream [s]. *)
Definition only_live (s : MediaStream) (log : Log) : Prop :=
  forall t, In t (live log) -> In t (tracks s).

End Camera.

(* ===================================================================== *)
(** * src/components/CameraCapture.jsx                                    *)
(* ===================================================================== *)

Module CameraCapture.

Import Camera.

Inductive Step := camera | editing | preview.

Record State := mkState {
  stream : option MediaStream;
  capturedImage : option ImageCropper.Blob;
  isLoading : bool;
  facingMode : FacingMode;
  currentStep : Step;
  (* videoRef.current: [None] while no <video> is mounted, otherwise
     its srcObject *)
  videoRef : option (option MediaStream)
}.

Definition initial : State :=
  {| stream := None; capturedImage := None; isLoading := false;
     facingMode := environment; currentStep := camera; videoRef := None |}.

Definition setStream (v : option MediaStream) (s : State) : State :=
  {| stream := v; capturedImage := capturedImage s; isLoading := isLoading s;
     facingMode := facingMode s; currentStep := currentStep s;
     videoRef := videoRef s |}.

Definition setIsLoading (v : bool) (s : State) : State :=
  {| stream := stream s; capturedImage := capturedImage s; isLoading := v;
     facingMode := facingMode s; currentStep := currentStep s;
     videoRef := videoRef s |}.

Definition setFacingMode (v : FacingMode) (s : State) : State :=
  {| stream := stream s; capturedImage := capturedImage s;
     isLoading := isLoading s; facingMode := v;
     currentStep := currentStep s; videoRef := videoRef s |}.

Definition set_srcObject (v : MediaStream) (s : State) : State :=
  {| stream := stream s; capturedImage := capturedImage s;
     isLoading := isLoading s; facingMode := facingMode s;
     currentStep := currentStep s;
     videoRef := match videoRef s with
                 | Some _ => Some (Some v)
                 | None => None
                 end |}.

Section Component.

Variable mediaDevices : Log -> Constraints -> Answer.

Definition constraints (s : State) : Constraints :=
  {| facing := facingMode s; ideal_width := 1920; ideal_height := 1080;
     min_size := None |}.

(** Avvia la fotocamera: a run during which nothing else happens between
    the request and its answer.  The two halves of the function, which
    other calls can come between, are [startCamera_call] and
    [startCamera_settle] below. *)
Definition startCamera (s : State) : Eff.M Log State :=
  let s1 := setIsLoading true s in
  (* Ferma stream precedente se esiste *)
  _ <- match stream s with
       | Some held => stop_tracks held
       | None => Eff.ret tt
       end ;;
  answer <- getUserMedia mediaDevices (constraints s) ;;
  match answer with
  | inr mediaStream =>
      let s2 := setStream (Some mediaStream) s1 in
      let s3 := set_srcObject mediaStream s2 in
      Eff.ret (setIsLoading false s3)
  | inl _ =>
      _ <- emit (Toast "Impossibile accedere alla fotocamera") ;;
      Eff.ret (setIsLoading false s1)
  end.

(** Ferma la fotocamera *)
Definition stopCamera (s : State) : Eff.M Log State :=
  match stream s with
  | Some held =>
      _ <- stop_tracks held ;;
      Eff.ret (setStream None s)
  | None => Eff.ret s
  end.

(** Cambia fotocamera (frontale/posteriore) *)
Definition switchCamera (s : State) : State :=
  setFacingMode
    (match facingMode s with user => environment | environment => user end) s.

(** The effect that runs after a render in which [isOpen],
    [currentStep], [capturedImage] or [startCamera] (hence
    [facingMode] or [stream]) changed. *)
Definition open_effect (isOpen : bool) (s : State) : Eff.M Log State :=
  match isOpen, currentStep s, capturedImage s with
  | true, camera, None => startCamera s
  | _, _, _ => Eff.ret s
  end.

End Component.

(** ** The rest of the component: capture, review, close *)

(** What the component does to its surroundings besides the camera. *)
Inductive Output :=
| CreateObjectURL (b : ImageCropper.Blob)
| RevokeObjectURL (b : ImageCropper.Blob)   (* the URL made for that blob *)
| OnCapture (b : ImageCropper.Blob)
| OnClose.

Record World := mkWorld {
  cam : Log;
  out : list Output
}.

Definition on_camera {A} (m : Eff.M Log A) : Eff.M World A :=
  fun w => let '(a, l) := m (cam w) in (a, {| cam := l; out := out w |}).

Definition tell (o : Output) : Eff.M World unit :=
  fun w => (tt, {| cam := cam w; out := out w ++ [o] |}).

Definition setCapturedImage (v : option ImageCropper.Blob) (s : State) : State :=
  {| stream := stream s; capturedImage := v; isLoading := isLoading s;
     facingMode := facingMode s; currentStep := currentStep s;
     videoRef := videoRef s |}.

Definition setCurrentStep (v : Step) (s : State) : State :=
  {| stream := stream s; capturedImage := capturedImage s;
     isLoading := isLoading s; facingMode := facingMode s;
     currentStep := v; videoRef := videoRef s |}.

(** React mounting or unmounting the <video> element. *)
Definition set_videoRef (v : option (option MediaStream)) (s : State) : State :=
  {| stream := stream s; capturedImage := capturedImage s;
     isLoading := isLoading s; facingMode := facingMode s;
     currentStep := currentStep s; videoRef := v |}.

Section Flow.

Variable mediaDevices : Log -> Constraints -> Answer.

(** Scatta la foto.  [blob] is what [canvas.toBlob] hands to the
    callback; the hidden <canvas> is always mounted. *)
Definition capturePhoto (blob : option ImageCropper.Blob) (s : State)
  : Eff.M World State :=
  match videoRef s with
  | None => Eff.ret s
  | Some _ =>
      match blob with
      | None => Eff.ret s
      | Some b =>
          _ <- tell (CreateObjectURL b) ;;
          let s := setCapturedImage (Some b) s in
          let s := setCurrentStep editing s in
          on_camera (stopCamera s)
      end
  end.

(** Conferma la foto dopo editing *)
Definition handleCropConfirm (editedBlob : ImageCropper.Blob) (s : State)
  : Eff.M World State :=
  _ <- tell (CreateObjectURL editedBlob) ;;
  Eff.ret (setCurrentStep preview (setCapturedImage (Some editedBlob) s)).

(** Conferma la foto finale *)
Definition confirmPhoto (s : State) : Eff.M World State :=
  match capturedImage s with
  | Some b =>
      _ <- tell (OnCapture b) ;;
      let s := setCapturedImage None s in
      let s := setCurrentStep camera s in
      _ <- tell OnClose ;;
      Eff.ret s
  | None => Eff.ret s
  end.

(** Scarta la foto e riavvia la camera *)
Definition retakePhoto (s : State) : Eff.M World State :=
  s <- match capturedImage s with
       | Some b =>
           _ <- tell (RevokeObjectURL b) ;;
           Eff.ret (setCapturedImage None s)
       | None => Eff.ret s
       end ;;
  let s := setCurrentStep camera s in
  on_camera (startCamera mediaDevices s).

(** Torna all'editing *)
Definition backToEditing (s : State) : State := setCurrentStep editing s.

(** Annulla editing *)
Definition cancelEditing (s : State) : Eff.M World State :=
  let s := setCurrentStep camera s in
  on_camera (startCamera mediaDevices s).

(** Chiudi e pulisci *)
Definition handleClose (s : State) : Eff.M World State :=
  s <- on_camera (stopCamera s) ;;
  s <- match capturedImage s with
       | Some b =>
           _ <- tell (RevokeObjectURL b) ;;
           Eff.ret (setCapturedImage None s)
       | None => Eff.ret s
       end ;;
  let s := setCurrentStep camera s in
  _ <- tell OnClose ;;
  Eff.ret s.

(** What the user (or React) can do with the open component. *)
Inductive Action :=
| Effect                                   (* the open effect runs *)
| Mounted (v : option (option MediaStream)) (* the <video> is (un)mounted *)
| Switch
| Capture (blob : option ImageCropper.Blob)
| CropConfirm (editedBlob : ImageCropper.Blob)
| CropCancel
| BackToEditing
| Retake
| ConfirmPhoto
| Close.

(** Whether the control behind an action is on screen: the shutter in
    the camera step once loading is over, the cropper in the editing
    step with an image, the three review buttons in the preview step
    with an image, the switch button while no image is held. *)
Definition enabled (s : State) (a : Action) : bool :=
  match a with
  | Effect | Mounted _ | Close => true
  | Switch =>
      match capturedImage s with None => true | Some _ => false end
  | Capture _ =>
      match currentStep s with
      | camera => negb (isLoading s)
      | _ => false
      end
  | CropConfirm _ | CropCancel =>
      match currentStep s, capturedImage s with
      | editing, Some _ => true
      | _, _ => false
      end
  | BackToEditing | Retake | ConfirmPhoto =>
      match currentStep s, capturedImage s with
      | preview, Some _ => true
      | _, _ => false
      end
  end.

Definition perform (a : Action) (s : State) : Eff.M World State :=
  match a with
  | Effect => on_camera (open_effect mediaDevices true s)
  | Mounted v => Eff.ret (set_videoRef v s)
  | Switch => on_camera (open_effect mediaDevices true (switchCamera s))
  | Capture blob => capturePhoto blob s
  | CropConfirm editedBlob => handleCropConfirm editedBlob s
  | CropCancel => cancelEditing s
  | BackToEditing => Eff.ret (backToEditing s)
  | Retake => retakePhoto s
  | ConfirmPhoto => confirmPhoto s
  | Close => handleClose s
  end.

(** The component after a sequence of actions, each performed only if
    its control is on screen. *)
Fixpoint play (actions : list Action) (s : State) : Eff.M World State :=
  match actions with
  | [] => Eff.ret s
  | a :: rest =>
      if enabled s a then (s' <- perform a s ;; play rest s')
      else play rest s
  end.

End Flow.

(** ** [startCamera] as it runs: up to the [await], and after it *)

(** [startCamera] is asynchronous.  What precedes the [await] runs at the
    call, with the [stream] and [facingMode] of the render the callback
    was made in (for a handler or an effect of the latest render, those of
    the state it is called in); the rest runs when the request settles, on
    the state as it is by then.  Nothing prevents a second call before the
    first request has settled. *)
Definition startCamera_call (s : State) : Eff.M Log State :=
  (* Ferma stream precedente se esiste *)
  _ <- match stream s with
       | Some held => stop_tracks held
       | None => Eff.ret tt
       end ;;
  _ <- emit (GetUserMedia (constraints s)) ;;
  Eff.ret (setIsLoading true s).

(** The continuation, run with what the request resolved or rejected
    to. *)
Definition startCamera_settle (answer : Answer) (s : State) : Eff.M Log State :=
  match answer with
  | inr mediaStream =>
      _ <- emit (Granted mediaStream) ;;
      let s := setStream (Some mediaStream) s in
      let s := set_srcObject mediaStream s in
      Eff.ret (setIsLoading false s)
  | inl _ =>
      _ <- emit (Toast "Impossibile accedere alla fotocamera") ;;
      Eff.ret (setIsLoading false s)
  end.

(** The open effect and the handler of "Riprova", up to the [await] of
    the [startCamera] they call. *)
Definition open_effect_call (isOpen : bool) (s : State) : Eff.M Log State :=
  match isOpen, currentStep s, capturedImage s with
  | true, camera, None => startCamera_call s
  | _, _, _ => Eff.ret s
  end.


(** Whatever is capturing belongs to the stream held. *)
Definition held_live (s : State) (log : Log) : Prop :=
  forall t, In t (live log) ->
    exists held, stream s = Some held /\ In t (tracks held).


End CameraCapture.

(* ===================================================================== *)
(** * src/components/CameraModal.jsx                                      *)
(* ===================================================================== *)

Module CameraModal.

Import Camera.

Inductive Step := camera | editing.

Record State := mkState {
  isLoading : bool;
  error : option string;
  isActive : bool;
  capturing : bool;
  currentStep : Step;
  capturedBlob : option ImageCropper.Blob;
  (* refs *)
  streamRef : option MediaStream;
  videoRef : option (option MediaStream)
}.

Definition initial : State :=
  {| isLoading := false; error := None; isActive := false;
     capturing := false; currentStep := camera; capturedBlob := None;
     streamRef := None; videoRef := None |}.

Definition setIsLoading (v : bool) (s : State) : State :=
  {| isLoading := v; error := error s; isActive := isActive s;
     capturing := capturing s; currentStep := currentStep s;
     capturedBlob := capturedBlob s; streamRef := streamRef s;
     videoRef := videoRef s |}.

Definition setError (v : option string) (s : State) : State :=
  {| isLoading := isLoading s; error := v; isActive := isActive s;
     capturing := capturing s; currentStep := currentStep s;
     capturedBlob := capturedBlob s; streamRef := streamRef s;
     videoRef := videoRef s |}.

Definition setIsActive (v : bool) (s : State) : State :=
  {| isLoading := isLoading s; error := error s; isActive := v;
     capturing := capturing s; currentStep := currentStep s;
     capturedBlob := capturedBlob s; streamRef := streamRef s;
     videoRef := videoRef s |}.

Definition set_streamRef (v : option MediaStream) (s : State) : State :=
  {| isLoading := isLoading s; error := error s; isActive := isActive s;
     capturing := capturing s; currentStep := currentStep s;
     capturedBlob := capturedBlob s; streamRef := v;
     videoRef := videoRef s |}.

(** [if (videoRef.current) videoRef.current.srcObject = v] *)
Definition set_srcObject (v : option MediaStream) (s : State) : State :=
  {| isLoading := isLoading s; error := error s; isActive := isActive s;
     capturing := capturing s; currentStep := currentStep s;
     capturedBlob := capturedBlob s; streamRef := streamRef s;
     videoRef := match videoRef s with
                 | Some _ => Some v
                 | None => None
                 end |}.

(** The message shown for a rejected request, by [error.name]. *)
Definition errorMessage (name : string) : string :=
  if String.eqb name "NotAllowedError" then "Permesso fotocamera negato"
  else if String.eqb name "NotFoundError" then "Nessuna fotocamera trovata"
  else if String.eqb name "NotReadableError" then "Fotocamera già in uso"
  else "Errore nell'avvio della fotocamera".

Section Component.

(** [navigator.mediaDevices?.getUserMedia] is there. *)
Variable supported : bool.

Variable mediaDevices : Log -> Constraints -> Answer.

(** Whether [videoRef.current.play()] resolves; when it rejects, the
    name of the exception. *)
Variable play : MediaStream -> option string.

Definition constraints : Constraints :=
  {| facing := environment; ideal_width := 1280; ideal_height := 720;
     min_size := Some (640, 480) |}.

Definition fail (name : string) (s : State) : Eff.M Log State :=
  _ <- emit (Toast (errorMessage name)) ;;
  Eff.ret (setIsLoading false (setError (Some (errorMessage name)) s)).

(** Avvia fotocamera.  The readiness signals ([canplay], [playing], the
    1.5 s timer), each of which sets [isActive], are collapsed into the
    moment [play()] resolves. *)
Definition startCamera (s : State) : Eff.M Log State :=
  let s := setError None (setIsLoading true s) in
  if negb supported then fail "Error" s else
  answer <- getUserMedia mediaDevices constraints ;;
  match answer with
  | inl name => fail name s
  | inr stream =>
      let s := set_streamRef (Some stream) s in
      match videoRef s with
      | Some _ =>
          let s := set_srcObject (Some stream) s in
          match play stream with
          | Some name => fail name s
          | None => Eff.ret (setIsLoading false (setIsActive true s))
          end
      | None => Eff.ret (setIsLoading false s)
      end
  end.

(** Ferma fotocamera *)
Definition stopCamera (s : State) : Eff.M Log State :=
  s <- match streamRef s with
       | Some held =>
           _ <- stop_tracks held ;;
           Eff.ret (set_streamRef None s)
       | None => Eff.ret s
       end ;;
  let s := set_srcObject None s in
  let s := setIsActive false s in
  Eff.ret (setError None s).

End Component.

(** ** The rest of the modal: shutter, crop, save, close *)

Definition setCapturing (v : bool) (s : State) : State :=
  {| isLoading := isLoading s; error := error s; isActive := isActive s;
     capturing := v; currentStep := currentStep s;
     capturedBlob := capturedBlob s; streamRef := streamRef s;
     videoRef := videoRef s |}.

Definition setCurrentStep (v : Step) (s : State) : State :=
  {| isLoading := isLoading s; error := error s; isActive := isActive s;
     capturing := capturing s; currentStep := v;
     capturedBlob := capturedBlob s; streamRef := streamRef s;
     videoRef := videoRef s |}.

Definition setCapturedBlob (v : option ImageCropper.Blob) (s : State) : State :=
  {| isLoading := isLoading s; error := error s; isActive := isActive s;
     capturing := capturing s; currentStep := currentStep s;
     capturedBlob := v; streamRef := streamRef s;
     videoRef := videoRef s |}.

(** What the modal does to its surroundings besides the camera and the
    network. *)
Inductive Output :=
| ToBlob                                   (* canvas.toBlob(callback, 'image/jpeg', 0.9) *)
| ToastLoading (msg : string)              (* { id: 'saving-photo' } *)
| ToastSuccess (msg : string)              (* { id: 'saving-photo' } *)
| ToastError (msg : string)
| OnPhotoSaved (d : UploadClient.PhotoDescriptor)
| OnCloseAfter (ms : Z)                    (* setTimeout(() => onClose(), ms) *)
| OnClose.

Record World := mkWorld {
  cam : Log;
  net : UploadClient.Net;
  out : list Output
}.

Definition on_camera {A} (m : Eff.M Log A) : Eff.M World A :=
  fun w => let '(a, l) := m (cam w) in
           (a, {| cam := l; net := net w; out := out w |}).

Definition on_net {A} (m : Eff.M UploadClient.Net A) : Eff.M World A :=
  fun w => let '(a, n) := m (net w) in
           (a, {| cam := cam w; net := n; out := out w |}).

Definition tell (o : Output) : Eff.M World unit :=
  fun w => (tt, {| cam := cam w; net := net w; out := out w ++ [o] |}).

Section Flow.

Variable supported : bool.
Variable mediaDevices : Log -> Constraints -> Answer.
Variable play : MediaStream -> option string.

Variable NODE_ENV : string.
Variable server : UploadClient.Net -> UploadClient.Request -> UploadClient.FetchOutcome.

(** The props: the product, and whether [onPhotoSaved] is passed. *)
Variable productId : option string.
Variable productSku : string.
Variable onPhotoSaved : bool.

(** The effect on [isOpen], and its cleanup. *)
Definition isOpen_effect (isOpen : bool) (s : State) : Eff.M World State :=
  if isOpen then on_camera (startCamera supported mediaDevices play s)
  else on_camera (stopCamera s).

Definition isOpen_cleanup (s : State) : Eff.M World State :=
  on_camera (stopCamera s).

(** Cattura foto: the part that runs at the click.  [throws] tells
    whether drawing the frame raises. *)
Definition capturePhoto (throws : bool) (s : State) : Eff.M World State :=
  if negb (isActive s)
     || match videoRef s with None => true | Some _ => false end
     || capturing s
  then Eff.ret s
  else
    let s := setCapturing true s in
    if throws then
      _ <- tell (ToastError "Errore nella cattura della foto") ;;
      Eff.ret (setCapturing false s)
    else
      _ <- tell ToBlob ;;
      Eff.ret s.

(** The callback handed to [canvas.toBlob], called once the snapshot is
    encoded. *)
Definition toBlob_callback (blob : option ImageCropper.Blob) (s : State)
  : Eff.M World State :=
  s <- match blob with
       | Some b =>
           let s := setCapturedBlob (Some b) s in
           let s := setCurrentStep editing s in
           on_camera (stopCamera s)
       | None => Eff.ret s
       end ;;
  Eff.ret (setCapturing false s).

(** [new File([editedBlob], `${productSku}_${timestamp}.jpg`, { type: 'image/jpeg' })] *)
Definition photo_file (timestamp : Z) (editedBlob : ImageCropper.Blob)
  : UploadClient.File :=
  {| UploadClient.file_name :=
       productSku ++ "_" ++ Js.integer_toString timestamp ++ ".jpg";
     UploadClient.file_type := "image/jpeg";
     UploadClient.file_size := ImageCropper.blob_size editedBlob |}.

(** Conferma foto dopo editing.  [timestamp] is [Date.now()]. *)
Definition handleCropConfirm (timestamp : Z) (editedBlob : ImageCropper.Blob)
    (s : State) : Eff.M World State :=
  let file := photo_file timestamp editedBlob in
  _ <- tell (ToastLoading "Salvando foto...") ;;
  (* Upload foto *)
  result <- on_net (UploadClient.uploadProductPhotoSecure NODE_ENV server
                      (Some file) productId productSku false) ;;
  match UploadClient.data result, UploadClient.error result with
  | Some d, None =>
      _ <- tell (ToastSuccess "Foto salvata!") ;;
      (* Notifica il componente padre *)
      _ <- (if onPhotoSaved then tell (OnPhotoSaved d) else Eff.ret tt) ;;
      (* Reset e chiudi modale *)
      let s := setCapturedBlob None s in
      let s := setCurrentStep camera s in
      _ <- tell (OnCloseAfter 1000) ;;
      Eff.ret s
  | _, _ =>
      _ <- tell (ToastError "Errore nel salvataggio della foto") ;;
      Eff.ret s
  end.

(** Annulla editing *)
Definition cancelEditing (s : State) : Eff.M World State :=
  let s := setCapturedBlob None s in
  let s := setCurrentStep camera s in
  on_camera (startCamera supported mediaDevices play s).

(** Chiudi modale *)
Definition handleClose (s : State) : Eff.M World State :=
  s <- on_camera (stopCamera s) ;;
  let s := setCapturedBlob None s in
  let s := setCurrentStep camera s in
  _ <- tell OnClose ;;
  Eff.ret s.

End Flow.

(** Whatever is capturing belongs to the stream the modal refers to. *)
Definition held_live (s : State) (log : Log) : Prop :=
  forall t, In t (live log) ->
    exists held, streamRef s = Some held /\ In t (tracks held).

End CameraModal.

(* ===================================================================== *)
(** * src/components/PhotoManagerSecure.jsx                               *)
(* ===================================================================== *)

(** The component as used for a product, without the [onTempPhotoSave]
    prop: the branch of [uploadPhotos] that uploads the files of an
    unsaved product concurrently is not part of the model. *)
Module PhotoManagerSecure.

Import UploadClient.

(** ['unknown'], ['working'], ['error'] *)
Inductive ApiStatus := status_unknown | status_working | status_error.

Record State := mkState {
  photos : list PhotoDescriptor;
  loading : bool;
  uploading : bool;
  selectedPhoto : option PhotoDescriptor;
  apiStatus : ApiStatus;
  isCameraModalOpen : bool
}.

Definition initial : State :=
  {| photos := []; loading := false; uploading := false;
     selectedPhoto := None; apiStatus := status_unknown;
     isCameraModalOpen := false |}.

Definition setPhotos (v : list PhotoDescriptor) (s : State) : State :=
  {| photos := v; loading := loading s; uploading := uploading s;
     selectedPhoto := selectedPhoto s; apiStatus := apiStatus s;
     isCameraModalOpen := isCameraModalOpen s |}.

Definition setLoading (v : bool) (s : State) : State :=
  {| photos := photos s; loading := v; uploading := uploading s;
     selectedPhoto := selectedPhoto s; apiStatus := apiStatus s;
     isCameraModalOpen := isCameraModalOpen s |}.

Definition setUploading (v : bool) (s : State) : State :=
  {| photos := photos s; loading := loading s; uploading := v;
     selectedPhoto := selectedPhoto s; apiStatus := apiStatus s;
     isCameraModalOpen := isCameraModalOpen s |}.

Definition setApiStatus (v : ApiStatus) (s : State) : State :=
  {| photos := photos s; loading := loading s; uploading := uploading s;
     selectedPhoto := selectedPhoto s; apiStatus := v;
     isCameraModalOpen := isCameraModalOpen s |}.

Inductive Output :=
| ToastError (msg : string)
| ToastSuccess (msg : string)
| OnPhotosChange (ps : list PhotoDescriptor).

(** The requests sent to the endpoint, the number of statements sent to
    the database, and what the user and the parent were told. *)
Record World := mkWorld {
  net : Net;
  db_sent : nat;
  out : list Output
}.

Definition on_net {A} (m : Eff.M Net A) : Eff.M World A :=
  fun w => let '(a, n) := m (net w) in
           (a, {| net := n; db_sent := db_sent w; out := out w |}).

Definition tell (o : Output) : Eff.M World unit :=
  fun w => (tt, {| net := net w; db_sent := db_sent w; out := out w ++ [o] |}).

(** [error.message] of [new Error(e.message || e)] for an error object
    [e] of the gateway. *)
Definition thrown_message (e : Error) : string :=
  match message e with
  | String c r => String c r
  | EmptyString => "[object Object]"
  end.

(** The two checks [uploadPhotos] makes before it calls the gateway. *)
Definition passes_checks (file : File) : bool :=
  is_image_type (file_type file) && negb (file_size file >? 10 * 1024 * 1024).

Section Component.

Variable NODE_ENV : string.
Variable server : Net -> Request -> FetchOutcome.

Variable configured : bool.
Variable carried_out : nat -> bool.

(** The [product_photos] table as the endpoint has left it after the
    requests it received. *)
Variable table : Net -> list PhotoDescriptor.

(** The props. *)
Variable productId : option string.
Variable productSku : string.
Variable onPhotosChange : bool.

(** A database helper, run against the table as it is now. *)
Definition on_db {A} (m : Eff.M Supabase.Remote A) : Eff.M World A :=
  fun w =>
    let '(a, r) := m {| Supabase.rows := table (net w);
                        Supabase.sent := db_sent w |} in
    (a, {| net := net w; db_sent := Supabase.sent r; out := out w |}).

(** Carica foto esistenti *)
Definition loadPhotos (s : State) : Eff.M World State :=
  match productId with
  | Some (String c r) =>
      let s := setLoading true s in
      listing <- on_db (Supabase.getProductPhotos configured carried_out
                          (String c r)) ;;
      match Supabase.list_error listing with
      | Some _ =>
          _ <- tell (ToastError "Errore nel caricamento delle foto") ;;
          Eff.ret (setLoading false s)
      | None =>
          let productPhotos :=
            match Supabase.list_data listing with
            | Some l => l
            | None => []
            end in
          let s := setPhotos productPhotos s in
          _ <- (if onPhotosChange then tell (OnPhotosChange productPhotos)
                else Eff.ret tt) ;;
          Eff.ret (setLoading false s)
      end
  | _ => Eff.ret s
  end.

(** The body of [for (const file of files)], with the two counters. *)
Fixpoint upload_each (files : list File) (successCount errorCount : nat)
    (s : State) : Eff.M World (State * nat * nat) :=
  match files with
  | [] => Eff.ret (s, successCount, errorCount)
  | file :: rest =>
      (* Verifica tipo file *)
      if negb (is_image_type (file_type file)) then
        _ <- tell (ToastError
                     ("File " ++ file_name file ++ " non è un'immagine valida")) ;;
        upload_each rest successCount (S errorCount) s
      (* Verifica dimensione (max 10MB) *)
      else if file_size file >? 10 * 1024 * 1024 then
        _ <- tell (ToastError
                     ("File " ++ file_name file ++ " troppo grande (max 10MB)")) ;;
        upload_each rest successCount (S errorCount) s
      else
        result <- on_net (uploadProductPhotoSecure NODE_ENV server
                            (Some file) productId productSku false) ;;
        match error result with
        | Some e =>
            (* Se è un errore di connessione API, aggiorna lo status *)
            let s := if Supabase.includes "Errore di rete" (message e)
                     then setApiStatus status_error s else s in
            _ <- tell (ToastError
                         ("Errore upload " ++ file_name file ++ ": "
                          ++ thrown_message e)) ;;
            upload_each rest successCount (S errorCount) s
        | None => upload_each rest (S successCount) errorCount s
        end
  end.

(** [`${n}`] for a counter. *)
Definition count_toString (n : nat) : string :=
  Js.integer_toString (Z.of_nat n).

(** UPLOAD SICURO *)
Definition uploadPhotos (files : list File) (s : State) : Eff.M World State :=
  match files with
  | [] => Eff.ret s
  | _ :: _ =>
      match productId with
      | Some (String _ _) =>
          let s := setUploading true s in
          counted <- upload_each files 0 0 s ;;
          let '(s, successCount, errorCount) := counted in
          let s := setUploading false s in
          s <- (if (0 <? successCount)%nat then
                  _ <- tell (ToastSuccess
                               (count_toString successCount
                                ++ " foto caricate con successo")) ;;
                  loadPhotos s
                else Eff.ret s) ;;
          _ <- (if (0 <? errorCount)%nat then
                  tell (ToastError
                          (count_toString errorCount ++ " foto non caricate"))
                else Eff.ret tt) ;;
          Eff.ret s
      | _ =>
          (* Se non c'è productId.  The component is taken as mounted
             without [onTempPhotoSave]; with that prop the files would be
             uploaded here with no product id. *)
          _ <- tell (ToastError "Salva prima il prodotto per caricare le foto") ;;
          Eff.ret s
      end
  end.

(** Elimina foto.  [confirmed] is the answer to the [confirm] dialog. *)
Definition handleDeletePhoto (confirmed : bool) (photo : PhotoDescriptor)
    (s : State) : Eff.M World State :=
  if negb confirmed then Eff.ret s else
  result <- on_net (deleteProductPhotoSecure NODE_ENV server (id photo)) ;;
  match error result with
  | Some _ =>
      _ <- tell (ToastError "Errore nell'eliminazione della foto") ;;
      Eff.ret s
  | None =>
      _ <- tell (ToastSuccess "Foto eliminata") ;;
      loadPhotos s
  end.

(** Imposta foto primaria *)
Definition handleSetPrimary (photo : PhotoDescriptor) (s : State)
  : Eff.M World State :=
  result <- on_net (setPrimaryPhotoSecure NODE_ENV server (id photo) productId) ;;
  match error result with
  | Some _ =>
      _ <- tell (ToastError "Errore nell'impostazione della foto primaria") ;;
      Eff.ret s
  | None =>
      _ <- tell (ToastSuccess "Foto primaria impostata") ;;
      loadPhotos s
  end.

(** Gestione file input *)
Definition handleFileSelect (files : list File) (s : State)
  : Eff.M World State :=
  match files with
  | [] => Eff.ret s
  | _ :: _ => uploadPhotos files s
  end.

(** The [onPhotoSaved] handed to the camera modal.  [loadPhotos] is not
    awaited: the toast is shown before the listing arrives. *)
Definition onPhotoSaved (s : State) : Eff.M World State :=
  _ <- tell (ToastSuccess "Foto salvata con successo!") ;;
  loadPhotos s.

(** What can happen to the mounted component. *)
Inductive Action :=
| Mount                                    (* the effect that runs once *)
| Load                                     (* the effect on [productId] *)
| FileSelect (files : list File)
| DeletePhoto (confirmed : bool) (photo : PhotoDescriptor)
| SetPrimary (photo : PhotoDescriptor)
| PhotoSaved.

Definition perform (a : Action) (s : State) : Eff.M World State :=
  match a with
  | Mount => Eff.ret (setApiStatus status_working s)
  | Load => loadPhotos s
  | FileSelect files => handleFileSelect files s
  | DeletePhoto confirmed photo => handleDeletePhoto confirmed photo s
  | SetPrimary photo => handleSetPrimary photo s
  | PhotoSaved => onPhotoSaved s
  end.

Fixpoint play (actions : list Action) (s : State) : Eff.M World State :=
  match actions with
  | [] => Eff.ret s
  | a :: rest => s' <- perform a s ;; play rest s'
  end.

End Component.

(** The gallery is the list it started with, or a listing of the
    product handed back by the service at some moment. *)
Definition kept_or_listed (table : Net -> list PhotoDescriptor) (pid : string)
    (init l : list PhotoDescriptor) : Prop :=
  l = init
  \/ exists n, l = merge_sort Supabase.photo_order
                     (List.filter (Supabase.eq_product_id pid) (table n)).

(** The gallery shows photos of the product only, those flagged primary
    first and, among photos with the same flag, the older first. *)
Definition shown_ok (productId : option string) (s : State) : Prop :=
  Forall (fun r => product_id r = productId) (photos s)
  /\ StronglySorted Supabase.photo_order (photos s).

End PhotoManagerSecure.

(* ===================================================================== *)
(** * Sample data                                                         *)
(* ===================================================================== *)

Module Samples.

Import UploadClient.

(** An endpoint that cannot be reached. *)
Definition offline : Net -> Request -> FetchOutcome :=
  fun _ _ => FetchRejects "Failed to fetch".

(** An endpoint that stores whatever it is sent. *)
Definition accepting : Net -> Request -> FetchOutcome :=
  fun net _ =>
    FetchResponds true
      (inr {| json_error := None; json_details := None;
              json_data := Some {| id := Z.of_nat (length net);
                                   product_id := None;
                                   file_path := "temp/photo.jpg";
                                   mime_type := "image/jpeg";
                                   is_primary := false;
                                   created_at := 0 |} |}).

(** A 12 MiB JPEG. *)
Definition big_jpeg : File :=
  {| file_name := "big.jpg"; file_type := "image/jpeg";
     file_size := 12 * 1024 * 1024 |}.

Definition small_jpeg : File :=
  {| file_name := "small.jpg"; file_type := "image/jpeg"; file_size := 4096 |}.

Definition notes_txt : File :=
  {| file_name := "notes.txt"; file_type := "text/plain"; file_size := 120 |}.

(** A small GIF: an image type that [uploadConfig.allowedTypes] does not
    list. *)
Definition animation_gif : File :=
  {| file_name := "anim.gif"; file_type := "image/gif"; file_size := 2048 |}.

End Samples.

Module SamplePhotos.

Import UploadClient.

Definition photo (n : Z) (owner : string) (primary : bool) : PhotoDescriptor :=
  {| id := n; product_id := Some owner; file_path := "photos/p.jpg";
     mime_type := "image/jpeg"; is_primary := primary; created_at := n |}.

(** Four photos; the first product carries two primary flags at once. *)
Definition table : list PhotoDescriptor :=
  [ photo 1 "prod-A" true; photo 2 "prod-A" true;
    photo 3 "prod-A" false; photo 4 "prod-B" true ].

Definition always : nat -> bool := fun _ => true.

(** Photos of two products, newest first, the primary one in the middle. *)
Definition shuffled : list PhotoDescriptor :=
  [ photo 3 "prod-A" false; photo 4 "prod-B" true;
    photo 2 "prod-A" true; photo 1 "prod-A" false ].

(** The table whatever the endpoint is asked. *)
Definition shuffled_table : Net -> list PhotoDescriptor := fun _ => shuffled.

(** The service drops the first statement and carries out the rest. *)
Definition first_dropped : nat -> bool := fun n => negb (Nat.eqb n 0).

Definition item (n : Z) (stock : Z) (price : Q) : Supabase.Product :=
  {| Supabase.p_id := n; Supabase.p_sku := "SKU"; Supabase.p_article := "article";
     Supabase.p_quantity_stock := stock; Supabase.p_price := price;
     Supabase.p_created_at := n |}.

(** Six products, two of them low in stock. *)
Definition stock : list Supabase.Product :=
  [ item 1 25 12.5; item 2 3 40; item 3 10 7.9;
    item 4 0 15; item 5 120 2.25; item 6 11 99 ].

End SamplePhotos.

Module SampleCrops.

Import ImageCropper.

(** An encoder that always delivers a JPEG. *)
Definition jpeg : Rendering -> option Blob :=
  fun r => Some {| blob_size := (canvas_width r * canvas_height r) / 8;
                   blob_type := mime r |}.

(** A 1280x720 snapshot, just loaded into a fresh cropper. *)
Definition frame : Size.t := Size.mk 1280 720.
Definition loaded : State := onload frame initial.

(** The canvas is laid out at half its pixel size, 10px from the left
    and 20px from the top of the viewport. *)
Definition rect : DOMRect.t :=
  {| DOMRect.left := 10; DOMRect.top := 20;
     DOMRect.width := 640; DOMRect.height := 360 |}.

(** A drag that starts in the middle and goes up and to the left. *)
Definition press : MouseEvent.t :=
  {| MouseEvent.clientX := 330; MouseEvent.clientY := 200 |}.
Definition move_up_left : MouseEvent.t :=
  {| MouseEvent.clientX := 110; MouseEvent.clientY := 50 |}.

Definition pressed : State := handleMouseDown rect press loaded.
Definition dragged : State := handleMouseMove rect move_up_left pressed.

(** The loaded snapshot with the scale slider at 50%. *)
Definition half_scale : State := setScale 0.5 loaded.

(** A 25x11 strip selected in the loaded snapshot. *)
Definition strip : State :=
  setCropArea
    {| Area.x := 100; Area.y := 100; Area.width := 25; Area.height := 11 |}
    loaded.

End SampleCrops.

Module SampleCameras.

Import Camera.

Definition back_stream : MediaStream := {| stream_id := 1; tracks := [11%nat] |}.
Definition front_stream : MediaStream := {| stream_id := 2; tracks := [21%nat] |}.

(** A device with a camera on each side. *)
Definition devices : Log -> Constraints -> Answer :=
  fun _ c =>
    match facing c with
    | environment => inr back_stream
    | user => inr front_stream
    end.

(** The user refused the permission prompt. *)
Definition denied : Log -> Constraints -> Answer :=
  fun _ _ => inl "NotAllowedError".

Definition plays : MediaStream -> option string := fun _ => None.

(** A snapshot and what the cropper made of it. *)
Definition raw : ImageCropper.Blob :=
  {| ImageCropper.blob_size := 350000; ImageCropper.blob_type := "image/jpeg" |}.

(** [CameraCapture], opened and streaming from the back camera. *)
Definition capture_opened : CameraCapture.State * Log :=
  Eff.run (CameraCapture.open_effect devices true CameraCapture.initial) [].



(** A device that hands out a new stream at every request. *)
Definition fresh_devices : Log -> Constraints -> Answer :=
  fun log _ => inr {| stream_id := length log; tracks := [length log] |}.

Definition play_rejects : MediaStream -> option string :=
  fun _ => Some "AbortError".

(** [CameraModal], open with its <video> mounted. *)
Definition modal_mounted : CameraModal.State :=
  {| CameraModal.isLoading := false; CameraModal.error := None;
     CameraModal.isActive := false; CameraModal.capturing := false;
     CameraModal.currentStep := CameraModal.camera;
     CameraModal.capturedBlob := None;
     CameraModal.streamRef := None; CameraModal.videoRef := Some None |}.

(** [CameraModal] after a start in which [play()] was rejected, and
    after the retry ("Riprova") that follows. *)
Definition modal_play_rejected : CameraModal.State * Log :=
  Eff.run (CameraModal.startCamera true fresh_devices play_rejects modal_mounted) [].

Definition modal_retried : CameraModal.State * Log :=
  Eff.run (CameraModal.startCamera true fresh_devices plays
             (fst modal_play_rejected)) (snd modal_play_rejected).

(** [CameraModal], open and showing the back camera. *)
Definition modal_streaming : CameraModal.State * Log :=
  Eff.run (CameraModal.startCamera true devices plays modal_mounted) [].

(** [CameraModal] after a refused permission prompt. *)
Definition modal_denied : CameraModal.State * Log :=
  Eff.run (CameraModal.startCamera true denied plays CameraModal.initial) [].

End SampleCameras.

(* ===================================================================== *)
(** * The same arithmetic in binary64                                     *)
(* ===================================================================== *)

(** The cropper's two computations on the kernel's IEEE doubles, as the
    browser runs them, to compare with the models over [Q] on concrete
    inputs. *)
Module Ieee.

Local Open Scope float_scope.

(** The double nearest to 0.1. *)
Definition margin : float := 0x1.999999999999ap-4.

(** [x, y, width, height] of the region set by [img.onload]. *)
Definition initial_region (w h : float) : float * float * float * float :=
  (w * margin, h * margin, w * (1 - 2 * margin), h * (1 - 2 * margin)).

Definition fit (aspectRatio finalWidth finalHeight : float) : float * float :=
  if aspectRatio <? finalWidth / finalHeight
  then (finalHeight * aspectRatio, finalHeight)
  else (finalWidth, finalWidth / aspectRatio).

(** The rational a finite double stands for. *)
Definition to_Q (f : float) : Q :=
  match Prim2SF f with
  | S754_finite s m e =>
      ((if s then -1 else 1) * inject_Z (Zpos m) * 2 ^ e)%Q
  | _ => 0%Q
  end.

End Ieee.

(* ===================================================================== *)
(** * Properties of the upload gateway                                    *)
(* ===================================================================== *)

Section UploadClientFacts.

Import UploadClient.

Variable NODE_ENV : string.
Variable server : Net -> Request -> FetchOutcome.

Lemma run_bind {S A B} (m : Eff.M S A) (k : A -> Eff.M S B) (s : S) :
  Eff.run (Eff.bind m k) s = Eff.run (k (fst (Eff.run m s))) (snd (Eff.run m s)).
Proof. unfold Eff.run, Eff.bind. destruct (m s); reflexivity. Qed.

(** When both local checks pass the request is issued, once, whatever
    the endpoint answers. *)
Lemma upload_reaches_fetch f productId sku isFirst net :
  is_image_type (file_type f) = true ->
  file_size f <= 10 * 1024 * 1024 ->
  snd (Eff.run (uploadProductPhotoSecure NODE_ENV server (Some f) productId sku isFirst) net)
  = net ++ [upload_request NODE_ENV f productId sku isFirst].
Proof.
  intros Hty Hsz. unfold uploadProductPhotoSecure.
  rewrite Hty. simpl negb. cbv iota.
  destruct (file_size f >? 10 * 1024 * 1024) eqn:E; [ lia | ].
  unfold Eff.run, Eff.bind, fetch.
  destruct (server net _) as [msg | [] [msg | j]]; reflexivity.
Qed.

(** The entries of [uploadConfig.allowedTypes] all pass the type check
    of the client; the check itself is the [image/] prefix, so it also
    lets through image types that the list does not name. *)
Lemma allowedTypes_pass :
  Forall (fun ty => is_image_type ty = true) (cfg_allowedTypes uploadConfig).
Proof. repeat constructor. Qed.

Lemma prefix_check_is_wider :
  is_image_type "image/gif" = true /\ ~ In "image/gif" (cfg_allowedTypes uploadConfig).
Proof.
  split; [ reflexivity | ].
  simpl. intros [H | [H | [H | [H | []]]]]; discriminate H.
Qed.

Lemma uploadConfig_ceiling : cfg_maxFileSize uploadConfig = 10 * 1024 * 1024.
Proof. reflexivity. Qed.

(** C1 (as amended).  The type test the function makes is the [image/]
    prefix; [uploadConfig.allowedTypes] is not consulted.  A file whose
    MIME type fails that test is answered with [InvalidFormat], one that
    passes it but is larger than 10 MiB with [TooLarge]; in both cases the
    request log is left as it was.  The log grows (by the one upload
    request) only when both checks pass. *)
Theorem uploadProductPhotoSecure_fails_fast :
  forall (f : File) (productId : option string) (sku : string)
         (isFirst : bool) (net : Net),
    let run := Eff.run (uploadProductPhotoSecure NODE_ENV server (Some f)
                          productId sku isFirst) net in
    (is_image_type (file_type f) = false ->
       run = (failure InvalidFormat, net))
    /\ (is_image_type (file_type f) = true ->
        file_size f > 10 * 1024 * 1024 ->
        run = (failure TooLarge, net))
    /\ (snd run <> net ->
        is_image_type (file_type f) = true
        /\ file_size f <= 10 * 1024 * 1024
        /\ snd run = net ++ [upload_request NODE_ENV f productId sku isFirst]).
Proof.
  intros f productId sku isFirst net run.
  assert (Hbad_type : is_image_type (file_type f) = false ->
                      run = (failure InvalidFormat, net)).
  { intros Hty. subst run. unfold uploadProductPhotoSecure.
    rewrite Hty. reflexivity. }
  assert (Hbig : is_image_type (file_type f) = true ->
                 file_size f > 10 * 1024 * 1024 ->
                 run = (failure TooLarge, net)).
  { intros Hty Hsz. subst run. unfold uploadProductPhotoSecure.
    rewrite Hty. cbn [negb].
    destruct (file_size f >? 10 * 1024 * 1024) eqn:E; [ reflexivity | lia ]. }
  split; [ exact Hbad_type | ]. split; [ exact Hbig | ].
  intros Hgrew.
  destruct (is_image_type (file_type f)) eqn:Hty.
  - destruct (Z_gt_le_dec (file_size f) (10 * 1024 * 1024)) as [Hsz | Hsz].
    + exfalso. apply Hgrew. rewrite (Hbig eq_refl Hsz). reflexivity.
    + split; [ reflexivity | ]. split; [ exact Hsz | ].
      subst run. apply upload_reaches_fetch; assumption.
  - exfalso. apply Hgrew. rewrite (Hbad_type eq_refl). reflexivity.
Qed.

End UploadClientFacts.

Lemma uploadProductPhotoSecure_fails_fast_witness :
  Eff.run (UploadClient.uploadProductPhotoSecure "production" Samples.offline
             (Some Samples.big_jpeg) None "SKU-1" false) []
  = (UploadClient.failure UploadClient.TooLarge, []).
Proof.
  apply (uploadProductPhotoSecure_fails_fast "production" Samples.offline
           Samples.big_jpeg None "SKU-1" false []).
  - reflexivity.
  - reflexivity.
Defined.

(** C1, as stated, does not hold: a GIF is not among the accepted types
    of [uploadConfig], yet it is not turned away with [InvalidFormat]; the
    request goes out and the endpoint's answer is handed back. *)
Lemma unlisted_image_type_is_uploaded :
  let f := Samples.animation_gif in
  let run := Eff.run (UploadClient.uploadProductPhotoSecure "production"
                        Samples.accepting (Some f) None "SKU-1" false) [] in
  ~ UploadClient.spec_accepted_type (UploadClient.file_type f)
  /\ UploadClient.file_size f <= 10 * 1024 * 1024
  /\ UploadClient.error (fst run) = None
  /\ fst run <> UploadClient.failure UploadClient.InvalidFormat
  /\ snd run = [UploadClient.upload_request "production" f None "SKU-1" false].
Proof.
  split.
  { unfold UploadClient.spec_accepted_type. cbn.
    intros [H | [H | [H | [H | []]]]]; discriminate H. }
  split; [ cbn; lia | ].
  split; [ reflexivity | ].
  split; [ intros H; discriminate H | reflexivity ].
Qed.

Section BatchFacts.

Import UploadClient.

Context {S : Type}.
Variable upload :
  option File -> option string -> string -> bool -> Eff.M S Result.
Variable productId : option string.
Variable sku : string.


End BatchFacts.

Section SpyFacts.

Import UploadClient.

Variable answers : nat -> Result.
Variable productId : option string.
Variable sku : string.


End SpyFacts.

Section RealBatchFacts.

Import UploadClient.

Variable NODE_ENV : string.
Variable server : Net -> Request -> FetchOutcome.
Variable productId : option string.
Variable sku : string.



End RealBatchFacts.


(* ===================================================================== *)
(** * Properties of the primary flag                                      *)
(* ===================================================================== *)

Section PrimaryFacts.

Import UploadClient Supabase.

Variable photoId : Z.
Variable productId : string.


Lemma clear_then_set_cons r t :
  Supabase.clear_then_set photoId productId (r :: t)
  = (let r1 := if eq_product_id productId r then with_is_primary false r else r in
     if eq_id photoId r1 then with_is_primary true r1 else r1)
    :: Supabase.clear_then_set photoId productId t.
Proof. reflexivity. Qed.

(** A row other than the chosen one is left without the flag, as far
    as this product is concerned. *)
Lemma other_row_not_primary r :
  UploadClient.id r <> photoId ->
  let r1 := if eq_product_id productId r then with_is_primary false r else r in
  eq_product_id productId (if eq_id photoId r1 then with_is_primary true r1 else r1)
  && is_primary (if eq_id photoId r1 then with_is_primary true r1 else r1) = false.
Proof.
  intros Hne. cbv zeta.
  destruct (eq_product_id productId r) eqn:Hp.
  - unfold eq_id. cbn [UploadClient.id with_is_primary].
    destruct (Z.eqb_spec (UploadClient.id r) photoId) as [E | _]; [ contradiction | ].
    unfold eq_product_id in *. cbn [product_id is_primary with_is_primary].
    apply andb_false_r.
  - unfold eq_id.
    destruct (Z.eqb_spec (UploadClient.id r) photoId) as [E | _]; [ contradiction | ].
    rewrite Hp. reflexivity.
Qed.

Lemma primaries_without_chosen t :
  (forall r, In r t -> UploadClient.id r <> photoId) ->
  primaries productId (Supabase.clear_then_set photoId productId t) = [].
Proof.
  induction t as [| r t IH]; intros Hall; [ reflexivity | ].
  rewrite clear_then_set_cons. unfold primaries. cbn [List.filter].
  rewrite other_row_not_primary by (apply Hall; left; reflexivity).
  apply IH. intros r' Hin. apply Hall. right. exact Hin.
Qed.

Lemma primaries_with_chosen t r0 :
  NoDup (map UploadClient.id t) ->
  In r0 t ->
  UploadClient.id r0 = photoId ->
  product_id r0 = Some productId ->
  primaries productId (Supabase.clear_then_set photoId productId t) = [with_is_primary true r0].
Proof.
  induction t as [| r t IH]; intros Hnd Hin Hid Hown; [ destruct Hin | ].
  cbn [map] in Hnd. apply NoDup_cons in Hnd as [Hfresh Hnd].
  rewrite clear_then_set_cons. unfold primaries. cbn [List.filter].
  destruct Hin as [-> | Hin].
  - (* the chosen row is at the head *)
    assert (Howner : eq_product_id productId r0 = true).
    { unfold eq_product_id. rewrite Hown. apply String.eqb_refl. }
    assert (Hsel : eq_id photoId (with_is_primary false r0) = true).
    { unfold eq_id. cbn [UploadClient.id with_is_primary].
      rewrite Hid. apply Z.eqb_refl. }
    cbv zeta. rewrite Howner, Hsel.
    unfold eq_product_id. cbn [product_id is_primary with_is_primary].
    rewrite Hown, String.eqb_refl. cbn [andb].
    f_equal.
    apply primaries_without_chosen.
    intros r' Hin' Heq. apply Hfresh.
    rewrite Hid, <- Heq. apply list_elem_of_In, in_map, Hin'.
  - assert (Hne : UploadClient.id r <> photoId).
    { intros Heq. apply Hfresh.
      rewrite Heq, <- Hid. apply list_elem_of_In, in_map, Hin. }
    rewrite other_row_not_primary by exact Hne.
    apply IH; assumption.
Qed.

End PrimaryFacts.

(** When nothing goes wrong the flag ends up on one photo.  On a table
    whose ids are distinct and in which photo [p]
    belongs to [owner], when the service carries out both statements of
    [setPrimaryPhoto p owner], the call reports no error, the table is the
    old one with the flag first cleared on every photo of [owner] and then
    set on [p], and the photos of [owner] that carry the flag are exactly
    one: [p].  Nothing is assumed about the flags before the call. *)
Theorem setPrimaryPhoto_exactly_one_primary :
  forall (carried_out : nat -> bool) (db : Supabase.Remote)
         (p : Z) (owner : string) (r0 : UploadClient.PhotoDescriptor),
    NoDup (map UploadClient.id (Supabase.rows db)) ->
    In r0 (Supabase.rows db) ->
    UploadClient.id r0 = p ->
    UploadClient.product_id r0 = Some owner ->
    carried_out (Supabase.sent db) = true ->
    carried_out (S (Supabase.sent db)) = true ->
    let out := Eff.run (Supabase.setPrimaryPhoto true carried_out p owner) db in
    Supabase.db_error (fst out) = None
    /\ Supabase.rows (snd out) = Supabase.clear_then_set p owner (Supabase.rows db)
    /\ Supabase.primaries owner (Supabase.rows (snd out))
       = [Supabase.with_is_primary true r0]
    /\ length (Supabase.primaries owner (Supabase.rows (snd out))) = 1%nat.
Proof.
  intros carried_out db p owner r0 Hnd Hin Hid Hown H1 H2 out.
  assert (Hout : out = ({| Supabase.db_error := None |},
                        {| Supabase.rows := Supabase.clear_then_set p owner (Supabase.rows db);
                           Supabase.sent := S (S (Supabase.sent db)) |})).
  { subst out. unfold Supabase.setPrimaryPhoto, Eff.run, Eff.bind, Supabase.update.
    cbn [negb]. rewrite H1. cbn [Supabase.sent Supabase.rows]. rewrite H2.
    reflexivity. }
  rewrite Hout. cbn [fst snd Supabase.db_error Supabase.rows].
  rewrite (primaries_with_chosen p owner _ r0 Hnd Hin Hid Hown).
  repeat split.
Qed.

Lemma setPrimaryPhoto_exactly_one_primary_witness :
  Supabase.primaries "prod-A"
    (Supabase.rows
       (snd (Eff.run (Supabase.setPrimaryPhoto true SamplePhotos.always 3 "prod-A")
               {| Supabase.rows := SamplePhotos.table; Supabase.sent := 0 |})))
  = [SamplePhotos.photo 3 "prod-A" true].
Proof.
  apply (setPrimaryPhoto_exactly_one_primary SamplePhotos.always
           {| Supabase.rows := SamplePhotos.table; Supabase.sent := 0 |}
           3 "prod-A" (SamplePhotos.photo 3 "prod-A" false)).
  - simpl. repeat constructor; rewrite ?list_elem_of_In; simpl; intuition discriminate.
  - simpl. tauto.
  - reflexivity.
  - reflexivity.
  - reflexivity.
  - reflexivity.
Defined.

(** C2.  The result of the clearing statement is not inspected (the
    first [await] of [setPrimaryPhoto] discards it).  When the service
    fails that statement and carries out the second, the call reports no
    error, yet nothing was cleared: the table is the old one with the flag
    set on [p], every photo of [owner] that carried the flag still carries
    it, and with [p] and an earlier primary [r1] both of [owner] the owner
    has two distinct primaries after a call that completed successfully. *)
Theorem setPrimaryPhoto_reports_success_when_clearing_fails :
  forall (carried_out : nat -> bool) (db : Supabase.Remote)
         (p : Z) (owner : string) (r0 r1 : UploadClient.PhotoDescriptor),
    carried_out (Supabase.sent db) = false ->
    carried_out (S (Supabase.sent db)) = true ->
    In r0 (Supabase.rows db) ->
    UploadClient.id r0 = p ->
    UploadClient.product_id r0 = Some owner ->
    In r1 (Supabase.rows db) ->
    UploadClient.id r1 <> p ->
    UploadClient.product_id r1 = Some owner ->
    UploadClient.is_primary r1 = true ->
    let out := Eff.run (Supabase.setPrimaryPhoto true carried_out p owner) db in
    Supabase.db_error (fst out) = None
    /\ Supabase.rows (snd out)
       = map (fun r => if Supabase.eq_id p r
                       then Supabase.with_is_primary true r else r)
           (Supabase.rows db)
    /\ In (Supabase.with_is_primary true r0)
         (Supabase.primaries owner (Supabase.rows (snd out)))
    /\ In r1 (Supabase.primaries owner (Supabase.rows (snd out)))
    /\ Supabase.with_is_primary true r0 <> r1.
Proof.
  intros carried_out db p owner r0 r1 H1 H2 Hin0 Hid0 Hown0 Hin1 Hid1 Hown1
    Hprim1 out.
  assert (Hout : out = ({| Supabase.db_error := None |},
                        {| Supabase.rows :=
                             map (fun r => if Supabase.eq_id p r
                                           then Supabase.with_is_primary true r
                                           else r) (Supabase.rows db);
                           Supabase.sent := S (S (Supabase.sent db)) |})).
  { subst out. unfold Supabase.setPrimaryPhoto, Eff.run, Eff.bind, Supabase.update.
    cbn [negb]. rewrite H1. cbn [Supabase.sent Supabase.rows]. rewrite H2.
    reflexivity. }
  rewrite Hout. cbn [fst snd Supabase.db_error Supabase.rows].
  split; [ reflexivity | ]. split; [ reflexivity | ].
  assert (Heq0 : Supabase.eq_id p r0 = true).
  { unfold Supabase.eq_id. apply Z.eqb_eq. exact Hid0. }
  assert (Heq1 : Supabase.eq_id p r1 = false).
  { unfold Supabase.eq_id. apply Z.eqb_neq. exact Hid1. }
  split; [ | split ].
  - unfold Supabase.primaries. apply filter_In. split.
    + apply in_map_iff. exists r0. rewrite Heq0. split; [ reflexivity | exact Hin0 ].
    + unfold Supabase.eq_product_id, Supabase.with_is_primary. cbn.
      rewrite Hown0, String.eqb_refl. reflexivity.
  - unfold Supabase.primaries. apply filter_In. split.
    + apply in_map_iff. exists r1. rewrite Heq1. split; [ reflexivity | exact Hin1 ].
    + unfold Supabase.eq_product_id. rewrite Hown1, String.eqb_refl, Hprim1.
      reflexivity.
  - intros Heq. apply Hid1. rewrite <- Heq. cbn. exact Hid0.
Qed.

Lemma setPrimaryPhoto_reports_success_when_clearing_fails_witness :
  let out := Eff.run (Supabase.setPrimaryPhoto true SamplePhotos.first_dropped 3 "prod-A")
               {| Supabase.rows := SamplePhotos.table; Supabase.sent := 0 |} in
  Supabase.db_error (fst out) = None
  /\ Supabase.primaries "prod-A" (Supabase.rows (snd out))
     = [ SamplePhotos.photo 1 "prod-A" true; SamplePhotos.photo 2 "prod-A" true;
         SamplePhotos.photo 3 "prod-A" true ].
Proof.
  destruct (setPrimaryPhoto_reports_success_when_clearing_fails
              SamplePhotos.first_dropped
              {| Supabase.rows := SamplePhotos.table; Supabase.sent := 0 |}
              3 "prod-A" (SamplePhotos.photo 3 "prod-A" false)
              (SamplePhotos.photo 1 "prod-A" true)
              eq_refl eq_refl
              (or_intror (or_intror (or_introl eq_refl))) eq_refl eq_refl
              (or_introl eq_refl) ltac:(discriminate) eq_refl eq_refl)
    as (Herr & _).
  split; [ exact Herr | reflexivity ].
Defined.

(** The same at the sample table: three primaries after a call that
    reported no error. *)
Remark setPrimaryPhoto_first_statement_unchecked :
  let out := Eff.run (Supabase.setPrimaryPhoto true SamplePhotos.first_dropped 3 "prod-A")
               {| Supabase.rows := SamplePhotos.table; Supabase.sent := 0 |} in
  Supabase.db_error (fst out) = None
  /\ length (Supabase.primaries "prod-A" (Supabase.rows (snd out))) = 3%nat.
Proof. split; reflexivity. Qed.

(** The endpoint client does nothing but one remote round trip: it
    sends the [setPrimary] action and hands back what the endpoint says. *)
Remark setPrimaryPhotoSecure_one_round_trip :
  forall NODE_ENV server photoId productId net,
    snd (Eff.run (UploadClient.setPrimaryPhotoSecure NODE_ENV server
                    photoId productId) net)
    = net ++ [UploadClient.setPrimary_request NODE_ENV photoId productId].
Proof.
  intros NODE_ENV server photoId productId net.
  unfold UploadClient.setPrimaryPhotoSecure, Eff.run, Eff.bind, UploadClient.fetch.
  destruct (server net _) as [msg | [] [msg | j]]; reflexivity.
Qed.

(** The photo is selected by id alone: asked to promote a photo of
    another product, the call strips [owner] of its flags and sets none. *)
Remark setPrimaryPhoto_foreign_photo :
  let out := Eff.run (Supabase.setPrimaryPhoto true SamplePhotos.always 4 "prod-A")
               {| Supabase.rows := SamplePhotos.table; Supabase.sent := 0 |} in
  Supabase.primaries "prod-A" (Supabase.rows (snd out)) = [].
Proof. reflexivity. Qed.

(* ===================================================================== *)
(** * Properties of the cropper                                           *)
(* ===================================================================== *)

Section CropRegionFacts.

Import ImageCropper.
Local Open Scope Q_scope.

Lemma cropArea_setCropArea a s : cropArea (setCropArea a s) = a.
Proof. reflexivity. Qed.

Lemma onload_cropArea img s :
  cropArea (onload img s)
  = {| Area.x := inject_Z (Size.width img) * margin;
       Area.y := inject_Z (Size.height img) * margin;
       Area.width := inject_Z (Size.width img) * (1 - 2 * margin);
       Area.height := inject_Z (Size.height img) * (1 - 2 * margin) |}.
Proof. reflexivity. Qed.

(** The inset region lies inside the image. *)
Lemma onload_region_inside img s :
  (0 <= Size.width img)%Z -> (0 <= Size.height img)%Z ->
  let a := cropArea (onload img s) in
  0 <= Area.x a /\ 0 <= Area.y a
  /\ Area.x a + Area.width a <= inject_Z (Size.width img)
  /\ Area.y a + Area.height a <= inject_Z (Size.height img).
Proof.
  intros Hw Hh a. subst a. rewrite onload_cropArea.
  cbn [Area.x Area.y Area.width Area.height]. unfold margin.
  assert (0 <= inject_Z (Size.width img))
    by (change 0 with (inject_Z 0); rewrite <- Zle_Qle; exact Hw).
  assert (0 <= inject_Z (Size.height img))
    by (change 0 with (inject_Z 0); rewrite <- Zle_Qle; exact Hh).
  repeat split; lra.
Qed.

Example onload_1280x720 :
  let a := cropArea SampleCrops.loaded in
  Area.x a == 128 /\ Area.y a == 72 /\ Area.width a == 1024 /\ Area.height a == 576.
Proof. repeat split; reflexivity. Qed.

(** Once the button is released, moving the pointer changes nothing. *)
Lemma handleMouseMove_after_release rect e s :
  handleMouseMove rect e (handleMouseUp s) = handleMouseUp s.
Proof. reflexivity. Qed.

Lemma handleMouseDown_anchor rect e s :
  let s' := handleMouseDown rect e s in
  isDragging s' = true
  /\ dragStart s' = pointer s rect e
  /\ cropArea s' = {| Area.x := Point.x (pointer s rect e);
                      Area.y := Point.y (pointer s rect e);
                      Area.width := 0; Area.height := 0 |}.
Proof. repeat split. Qed.

End CropRegionFacts.

(** C6.  When an image of [w] by [h] pixels has loaded, the crop region
    is the inset rectangle [x = 0.1 w], [y = 0.1 h], [width = 0.8 w],
    [height = 0.8 h]: a margin of a tenth of the image on each of the
    four sides. *)
Theorem onload_initial_crop_is_inset_80 :
  forall (img : ImageCropper.Size.t) (s : ImageCropper.State),
    let a := ImageCropper.cropArea (ImageCropper.onload img s) in
    let w := inject_Z (ImageCropper.Size.width img) in
    let h := inject_Z (ImageCropper.Size.height img) in
    (ImageCropper.Area.x a == 0.1 * w
     /\ ImageCropper.Area.y a == 0.1 * h
     /\ ImageCropper.Area.width a == 0.8 * w
     /\ ImageCropper.Area.height a == 0.8 * h
     /\ w - (ImageCropper.Area.x a + ImageCropper.Area.width a) == 0.1 * w
     /\ h - (ImageCropper.Area.y a + ImageCropper.Area.height a) == 0.1 * h)%Q.
Proof.
  intros img s a w h. subst a w h. rewrite onload_cropArea.
  cbn [ImageCropper.Area.x ImageCropper.Area.y
       ImageCropper.Area.width ImageCropper.Area.height].
  unfold ImageCropper.margin.
  repeat split; ring.
Qed.

(** C7.  While a drag is in progress (on a canvas that is laid out, so
    that its bounding box is not empty), a pointer move sets the crop
    region to the rectangle spanned by the anchor and the pointer: its
    origin is the coordinate-wise minimum of the two, its width and
    height are the absolute differences, and both are non-negative
    whichever way the pointer went. *)
Theorem handleMouseMove_normalises_region :
  forall (rect : ImageCropper.DOMRect.t) (e : ImageCropper.MouseEvent.t)
         (s : ImageCropper.State),
    ImageCropper.isDragging s = true ->
    (0 < ImageCropper.DOMRect.width rect)%Q ->
    (0 < ImageCropper.DOMRect.height rect)%Q ->
    let p := ImageCropper.pointer s rect e in
    let anchor := ImageCropper.dragStart s in
    let a := ImageCropper.cropArea (ImageCropper.handleMouseMove rect e s) in
    ImageCropper.Area.x a
      = Qmin (ImageCropper.Point.x p) (ImageCropper.Point.x anchor)
    /\ ImageCropper.Area.y a
      = Qmin (ImageCropper.Point.y p) (ImageCropper.Point.y anchor)
    /\ ImageCropper.Area.width a
      = Qabs (ImageCropper.Point.x p - ImageCropper.Point.x anchor)
    /\ ImageCropper.Area.height a
      = Qabs (ImageCropper.Point.y p - ImageCropper.Point.y anchor)
    /\ (0 <= ImageCropper.Area.width a)%Q
    /\ (0 <= ImageCropper.Area.height a)%Q.
Proof.
  intros rect e s Hdrag _ _ p anchor a. subst a.
  unfold ImageCropper.handleMouseMove. rewrite Hdrag. cbn [negb].
  rewrite cropArea_setCropArea.
  cbn [ImageCropper.Area.x ImageCropper.Area.y
       ImageCropper.Area.width ImageCropper.Area.height].
  repeat split; apply Qabs_nonneg.
Qed.

Lemma handleMouseMove_normalises_region_witness :
  (0 <= ImageCropper.Area.width (ImageCropper.cropArea SampleCrops.dragged))%Q
  /\ (0 <= ImageCropper.Area.height (ImageCropper.cropArea SampleCrops.dragged))%Q.
Proof.
  pose proof (handleMouseMove_normalises_region SampleCrops.rect
                SampleCrops.move_up_left SampleCrops.pressed
                eq_refl eq_refl eq_refl) as H.
  cbv zeta in H. destruct H as (_ & _ & _ & _ & Hw & Hh).
  split; [ exact Hw | exact Hh ].
Defined.

Example drag_up_left_region :
  let a := ImageCropper.cropArea SampleCrops.dragged in
  (ImageCropper.Area.x a == 200 /\ ImageCropper.Area.y a == 60
   /\ ImageCropper.Area.width a == 440 /\ ImageCropper.Area.height a == 300)%Q.
Proof. repeat split; reflexivity. Qed.

(** C4.  With a crop region of zero width or zero height the confirm
    handler only raises the "no region selected" toast: the state is left
    as it was, nothing is rendered and [onConfirm] is not called. *)
Theorem handleConfirm_without_region :
  forall (toBlob : ImageCropper.Rendering -> option ImageCropper.Blob)
         (s : ImageCropper.State),
    (ImageCropper.Area.width (ImageCropper.cropArea s) == 0
     \/ ImageCropper.Area.height (ImageCropper.cropArea s) == 0)%Q ->
    ImageCropper.handleConfirm toBlob s
      = (s, [ImageCropper.ToastError ImageCropper.NoRegionSelected])
    /\ ImageCropper.confirmed (snd (ImageCropper.handleConfirm toBlob s)) = []
    /\ ImageCropper.renderings (snd (ImageCropper.handleConfirm toBlob s)) = [].
Proof.
  intros toBlob s Hzero.
  assert (Hguard : ImageCropper.nothing_to_render s = true).
  { unfold ImageCropper.nothing_to_render.
    destruct (ImageCropper.imageRef s); [ | reflexivity ].
    unfold Js.falsy. apply orb_true_iff.
    destruct Hzero as [Hw | Hh]; [ left | right ]; apply Qeq_bool_iff; assumption. }
  unfold ImageCropper.handleConfirm, ImageCropper.handleConfirm_on.
  rewrite Hguard.
  repeat split.
Qed.

Lemma handleConfirm_without_region_witness :
  ImageCropper.confirmed
    (snd (ImageCropper.handleConfirm SampleCrops.jpeg SampleCrops.pressed)) = [].
Proof.
  apply (handleConfirm_without_region SampleCrops.jpeg SampleCrops.pressed).
  left. reflexivity.
Defined.

Section FitFacts.

Import ImageCropper.
Local Open Scope Q_scope.

Lemma gt_true a b : Js.gt a b = true <-> b < a.
Proof.
  unfold Js.gt. rewrite Qgt_alt.
  destruct (a ?= b); split; intros H; try reflexivity; discriminate H.
Qed.

Lemma gt_false a b : Js.gt a b = false <-> a <= b.
Proof.
  unfold Js.gt. rewrite Qle_alt.
  destruct (a ?= b); split; intros H; try reflexivity; try discriminate H;
    try (intros H'; discriminate H'); exfalso; apply H; reflexivity.
Qed.

(** A non-negative number below 2^32 is stored in an [unsigned long] as
    its integer part. *)
Lemma to_unsigned_long_floor v :
  0 <= v -> v < 4294967296 -> Js.to_unsigned_long v = Qfloor v.
Proof.
  intros Hlo Hhi. unfold Js.to_unsigned_long, Js.trunc.
  apply Qle_bool_iff in Hlo as Hb. rewrite Hb.
  apply Z.mod_small. split.
  - change 0%Z with (Qfloor 0). apply Qfloor_resp_le. exact Hlo.
  - rewrite Zlt_Qlt. apply Qle_lt_trans with v; [ apply Qfloor_le | exact Hhi ].
Qed.

Lemma floor_within_one_pixel v :
  inject_Z (Qfloor v) <= v /\ v < inject_Z (Qfloor v) + 1.
Proof.
  split; [ apply Qfloor_le | ].
  pose proof (Qlt_floor v) as H. rewrite inject_Z_plus in H. exact H.
Qed.

(** A non-negative number below 2^31 is stored in a canvas attribute as
    its integer part. *)
Lemma canvas_attribute_floor dflt v :
  0 <= v -> v < 2147483648 -> Js.canvas_attribute dflt v = Qfloor v.
Proof.
  intros Hlo Hhi. unfold Js.canvas_attribute.
  rewrite to_unsigned_long_floor by lra.
  assert (Hf : (Qfloor v < 2147483648)%Z).
  { rewrite Zlt_Qlt. apply Qle_lt_trans with v; [ apply Qfloor_le | exact Hhi ]. }
  destruct (Z.leb_spec (Qfloor v) 2147483647); [ reflexivity | lia ].
Qed.

End FitFacts.

Section RendererFacts.

Import ImageCropper.
Local Open Scope Q_scope.

Variable toBlob : Rendering -> option Blob.

Lemma something_to_render s img :
  imageRef s = Some img ->
  0 < Area.width (cropArea s) -> 0 < Area.height (cropArea s) ->
  nothing_to_render s = false.
Proof.
  intros Himg Hw Hh. unfold nothing_to_render, Js.falsy. rewrite Himg.
  apply orb_false_iff. split.
  - destruct (Qeq_bool (Area.width (cropArea s)) 0) eqn:E; [ | reflexivity ].
    apply Qeq_bool_iff in E. lra.
  - destruct (Qeq_bool (Area.height (cropArea s)) 0) eqn:E; [ | reflexivity ].
    apply Qeq_bool_iff in E. lra.
Qed.

(** What each renderer draws, on any arithmetic. *)
Lemma updatePreview_on_rendered num s :
  nothing_to_render s = false ->
  rendered (snd (updatePreview_on toBlob num s))
  = Some (render_at s
            (fit_on num
               (Js.div num (Area.width (cropArea s)) (Area.height (cropArea s)))
               (inject_Z (Size.width (outputSize s)))
               (inject_Z (Size.height (outputSize s))))).
Proof.
  intros Hguard. unfold updatePreview_on, fit_on. rewrite Hguard.
  destruct (Js.gt _ _); reflexivity.
Qed.

Lemma handleConfirm_on_rendered num s :
  nothing_to_render s = false ->
  rendered (snd (handleConfirm_on toBlob num s))
  = Some (render_at s
            (fit_on num
               (Js.div num (Area.width (cropArea s)) (Area.height (cropArea s)))
               (Js.mul num (inject_Z (Size.width (outputSize s))) (scale s))
               (Js.mul num (inject_Z (Size.height (outputSize s))) (scale s)))).
Proof.
  intros Hguard. unfold handleConfirm_on, fit_on. rewrite Hguard.
  cbn [cropArea outputSize scale quality setIsProcessing].
  destruct (Js.gt _ _); reflexivity.
Qed.

Lemma updatePreview_rendered s :
  nothing_to_render s = false ->
  rendered (snd (updatePreview toBlob s))
  = Some (render_at s
            (fit (Area.width (cropArea s) / Area.height (cropArea s))
                 (inject_Z (Size.width (outputSize s)))
                 (inject_Z (Size.height (outputSize s))))).
Proof. apply updatePreview_on_rendered. Qed.

Lemma handleConfirm_rendered s :
  nothing_to_render s = false ->
  rendered (snd (handleConfirm toBlob s))
  = Some (render_at s
            (fit (Area.width (cropArea s) / Area.height (cropArea s))
                 (inject_Z (Size.width (outputSize s)) * scale s)
                 (inject_Z (Size.height (outputSize s)) * scale s))).
Proof. apply handleConfirm_on_rendered. Qed.

(** The slider is not read by the preview: whatever it is set to, the
    preview does the same thing. *)
Lemma updatePreview_scale_independent s k :
  snd (updatePreview toBlob (setScale k s)) = snd (updatePreview toBlob s).
Proof.
  unfold updatePreview, updatePreview_on.
  change (nothing_to_render (setScale k s)) with (nothing_to_render s).
  destruct (nothing_to_render s); [ reflexivity | ].
  cbn [cropArea outputSize quality previewBlob setScale].
  destruct (Js.gt _ _); reflexivity.
Qed.

End RendererFacts.

(* ===================================================================== *)
(** * Rounding to binary64                                                *)
(* ===================================================================== *)

Section RoundingFacts.

Import B64.
Local Open Scope Q_scope.

Lemma rne_error y : Qabs (inject_Z (rne y) - y) <= 1 # 2.
Proof.
  unfold rne.
  pose proof (Qfloor_le y) as Hlo.
  pose proof (Qlt_floor y) as Hhi.
  rewrite inject_Z_plus in Hhi. change (inject_Z 1) with 1 in Hhi.
  set (f := Qfloor y) in *. clearbody f.
  assert (Hup : inject_Z (f + 1) == inject_Z f + 1)
    by (rewrite inject_Z_plus; reflexivity).
  destruct (Qcompare_spec (y - inject_Z f) (1 # 2)) as [Heq | Hlt | Hgt].
  - destruct (Z.even f).
    + apply Qabs_Qle_condition. split; lra.
    + apply Qabs_Qle_condition. rewrite Hup. split; lra.
  - apply Qabs_Qle_condition. split; lra.
  - apply Qabs_Qle_condition. rewrite Hup. split; lra.
Qed.

Lemma pow2_pos e : 0 < 2 ^ e.
Proof. apply Qpower_0_lt. reflexivity. Qed.

(** A positive rational is at least the power of two read off the sizes
    of its numerator and denominator. *)
Lemma log2_low x :
  0 < x -> 2 ^ (Z.log2 (Qnum x) - Z.log2 (Zpos (Qden x)) - 1) <= x.
Proof.
  intros Hx. destruct x as [n d]. cbn [Qnum Qden].
  assert (Hn : (0 < n)%Z).
  { unfold Qlt in Hx. cbn in Hx. lia. }
  pose proof (Z.log2_spec n Hn) as [Hn1 _].
  pose proof (Z.log2_spec (Zpos d) (Pos2Z.is_pos d)) as [_ Hd2].
  pose proof (Z.log2_nonneg n) as Ha.
  pose proof (Z.log2_nonneg (Zpos d)) as Hb.
  set (a := Z.log2 n) in *. set (b := Z.log2 (Zpos d)) in *.
  replace (a - b - 1)%Z with (a - (b + 1))%Z by lia.
  rewrite Qpower_minus by (intros H; discriminate H).
  change 2 with (inject_Z 2).
  rewrite <- !Zpower_Qpower by lia.
  assert (Hpb : (0 < 2 ^ (b + 1))%Z) by (apply Z.pow_pos_nonneg; lia).
  assert (Hpa : (0 < 2 ^ a)%Z) by (apply Z.pow_pos_nonneg; lia).
  apply Qle_shift_div_r.
  { change 0 with (inject_Z 0). rewrite <- Zlt_Qlt. exact Hpb. }
  unfold Qle, Qmult, inject_Z. cbn [Qnum Qden].
  rewrite Z.mul_1_r.
  replace (Z.succ b) with (b + 1)%Z in Hd2 by lia.
  rewrite Pos2Z.inj_mul. cbn [Z.mul Pos.mul].
  nia.
Qed.

Lemma exponent_cases x :
  0 < x -> exponent x = (-1074)%Z \/ 2 ^ (exponent x + 52) <= x.
Proof.
  intros Hx. unfold exponent.
  set (e0 := (Z.log2 (Qnum x) - Z.log2 (Zpos (Qden x)) - 53)%Z).
  set (e1 := if Qle_bool (2 ^ 53) (x / 2 ^ e0) then (e0 + 1)%Z else e0).
  destruct (Z.max_spec e1 (-1074)) as [[_ ->] | [_ ->]]; [ left; reflexivity | ].
  right. subst e1.
  destruct (Qle_bool (2 ^ 53) (x / 2 ^ e0)) eqn:Hbig.
  - apply Qle_bool_iff in Hbig.
    replace (e0 + 1 + 52)%Z with (53 + e0)%Z by lia.
    rewrite Qpower_plus by (intros H; discriminate H).
    apply (Qmult_le_compat_r _ _ (2 ^ e0)) in Hbig;
      [ | apply Qlt_le_weak, pow2_pos ].
    assert (E : x / 2 ^ e0 * 2 ^ e0 == x).
    { field. intros H. pose proof (pow2_pos e0) as Hp. rewrite H in Hp.
      apply (Qlt_irrefl 0 Hp). }
    rewrite E in Hbig. exact Hbig.
  - replace (e0 + 52)%Z
      with (Z.log2 (Qnum x) - Z.log2 (Zpos (Qden x)) - 1)%Z by (subst e0; lia).
    apply log2_low. exact Hx.
Qed.

Lemma eta_half : eta == (1 # 2) * 2 ^ (-1074).
Proof.
  unfold eta. replace (-1075)%Z with (-1074 + -1)%Z by lia.
  rewrite Qpower_plus by (intros H; discriminate H).
  change (2 ^ (-1)) with (1 # 2). ring.
Qed.

Lemma eta_pos : 0 < eta.
Proof. apply pow2_pos. Qed.

Lemma round_pos_error x :
  0 < x -> Qabs (round_pos x - x) <= x * u + eta.
Proof.
  intros Hx. unfold round_pos.
  pose proof (pow2_pos (exponent x)) as Hp.
  pose proof eta_pos as Heta.
  assert (Hulp : (1 # 2) * 2 ^ exponent x <= x * u + eta).
  { destruct (exponent_cases x Hx) as [Hsub | Hnorm].
    - rewrite Hsub, <- eta_half.
      assert (0 <= x * u) by (unfold u; nra). lra.
    - replace (exponent x + 52)%Z with (52 + exponent x)%Z in Hnorm by lia.
      rewrite Qpower_plus in Hnorm by (intros H; discriminate H).
      change (2 ^ 52) with (4503599627370496 # 1) in Hnorm.
      unfold u. lra. }
  set (p := 2 ^ exponent x) in *. clearbody p.
  pose proof (rne_error (x / p)) as Herr.
  assert (Ex : x == x / p * p) by (field; lra).
  set (y := x / p) in *. clearbody y.
  apply Qabs_Qle_condition in Herr as [Hlo Hhi].
  set (m := inject_Z (rne y)) in *. clearbody m.
  apply Qle_trans with ((1 # 2) * p); [ | exact Hulp ].
  assert (H1 : - (1 # 2) * p <= (m - y) * p) by nra.
  assert (H2 : (m - y) * p <= (1 # 2) * p) by nra.
  apply Qabs_Qle_condition. split; nra.
Qed.

Lemma round_error x : Qabs (round x - x) <= Qabs x * u + eta.
Proof.
  unfold round.
  destruct (Qcompare_spec x 0) as [Heq | Hlt | Hgt].
  - pose proof eta_pos. pose proof (Qabs_nonneg x). unfold u.
    apply Qabs_Qle_condition. split; lra.
  - assert (Hpos : 0 < - x) by lra.
    pose proof (round_pos_error (- x) Hpos) as H.
    rewrite (Qabs_neg x) by lra.
    apply Qabs_Qle_condition in H as [H1 H2].
    apply Qabs_Qle_condition. split; lra.
  - rewrite (Qabs_pos x) by lra. apply round_pos_error. exact Hgt.
Qed.

Lemma eta_small : eta <= 1 # (2 ^ 200).
Proof.
  unfold eta.
  change (1 # 2 ^ 200) with (2 ^ (-200)).
  apply Qpower_le_compat_l; [ lia | ]. unfold Qle. cbn. lia.
Qed.

(** In the range of the normal numbers rounding is off by a relative
    error of at most [2 * u]. *)
Lemma round_rel x :
  (1 # 2 ^ 100) <= x ->
  x * (1 - 2 * u) <= round x /\ round x <= x * (1 + 2 * u).
Proof.
  intros Hx.
  pose proof (round_error x) as H.
  assert (Hab : Qabs x == x).
  { apply Qabs_pos. apply Qle_trans with (1 # 2 ^ 100); [ | exact Hx ].
    unfold Qle. cbn. lia. }
  apply Qabs_Qle_condition in H as [H1 H2].
  pose proof eta_small as Heta.
  assert (Hsmall : (1 # 2 ^ 200) <= x * u).
  { unfold u.
    apply Qle_trans with ((1 # 2 ^ 100) * (1 # 9007199254740992)).
    - unfold Qle. cbn. lia.
    - apply Qmult_le_compat_r; [ exact Hx | unfold Qle; cbn; lia ]. }
  unfold u in *. split; lra.
Qed.


End RoundingFacts.

Section RoundedFitFacts.

Import ImageCropper.
Local Open Scope Q_scope.

Lemma fit_wide r ra q W H fw :
  0 < r -> 0 < W -> 0 < H ->
  B64.near r ra -> B64.near (W / H) q -> ra < q -> B64.near (H * ra) fw ->
  0 < fw
  /\ Qabs (fw / H - r) <= r * tolerance
  /\ fw <= W * (1 + tolerance).
Proof.
  unfold B64.near, B64.u, tolerance. intros Hr HW HH [Ha1 Ha2] [Hq1 Hq2] Hlt [Hf1 Hf2].
  assert (Ewh : W / H * H == W) by (field; lra).
  set (wh := W / H) in *. clearbody wh.
  assert (Ey : fw / H * H == fw) by (field; lra).
  set (y := fw / H) in *. clearbody y.
  assert (Hra : 0 < ra) by nra.
  assert (Hx : 0 < H * ra) by nra.
  set (x := H * ra) in *.
  assert (Hfw : 0 < fw) by nra.
  split; [ exact Hfw | ].
  assert (Hwh : 0 < wh) by nra.
  assert (Hx1 : H * r * (1 - 2 * (1 # 9007199254740992)) <= x) by (subst x; nra).
  assert (Hx2 : x <= H * r * (1 + 2 * (1 # 9007199254740992))) by (subst x; nra).
  assert (Hx3 : x <= H * q) by (subst x; nra).
  assert (Hx4 : H * q <= W * (1 + 2 * (1 # 9007199254740992))) by nra.
  clearbody x.
  set (hr := H * r) in *.
  assert (Hhr : 0 < hr) by (subst hr; nra).
  split.
  - assert (G1 : - (hr * (1 # 1125899906842624)) <= fw - hr).
    { clearbody hr. nra. }
    assert (G2 : fw - hr <= hr * (1 # 1125899906842624)).
    { clearbody hr. nra. }
    apply Qabs_Qle_condition. subst hr. split; nra.
  - clearbody hr. nra.
Qed.

Lemma fit_tall r ra q W H fh :
  0 < r -> 0 < W -> 0 < H ->
  B64.near r ra -> B64.near (W / H) q -> q <= ra -> B64.near (W / ra) fh ->
  0 < fh
  /\ Qabs (W / fh - r) <= r * tolerance
  /\ fh <= H * (1 + tolerance).
Proof.
  unfold B64.near, B64.u, tolerance. intros Hr HW HH [Ha1 Ha2] [Hq1 Hq2] Hle [Hf1 Hf2].
  assert (Hra : 0 < ra) by nra.
  assert (Ewh : W / H * H == W) by (field; lra).
  set (wh := W / H) in *. clearbody wh.
  assert (Ex : W / ra * ra == W) by (field; lra).
  set (x := W / ra) in *. clearbody x.
  assert (Hx : 0 < x) by nra.
  assert (Hfh : 0 < fh) by nra.
  split; [ exact Hfh | ].
  assert (Ey : W / fh * fh == W) by (field; lra).
  set (y := W / fh) in *. clearbody y.
  assert (Hy : 0 < y) by nra.
  split.
  - (* y * fh = x * ra, fh B64.near x, ra B64.near r *)
    assert (G1 : y <= ra * (1 + 3 * (1 # 9007199254740992))).
    { assert (fh * y <= fh * (ra * (1 + 3 * (1 # 9007199254740992)))) by nra.
      nra. }
    assert (G2 : ra * (1 - 2 * (1 # 9007199254740992)) <= y).
    { assert (fh * (ra * (1 - 2 * (1 # 9007199254740992))) <= fh * y) by nra.
      nra. }
    apply Qabs_Qle_condition. split; nra.
  - (* fh <= x (1+2u), x ra = W = wh H, ra >= q >= wh (1-2u) *)
    assert (G : x * (1 - 2 * (1 # 9007199254740992)) <= H).
    { assert (Hwh : 0 < wh) by nra.
      assert (wh * (x * (1 - 2 * (1 # 9007199254740992))) <= wh * H) by nra.
      nra. }
    nra.
Qed.

Lemma decide_wide r ra q wh :
  0 < r -> B64.near r ra -> B64.near wh q ->
  r * (1 + tolerance) <= wh -> ra < q.
Proof.
  unfold B64.near, B64.u, tolerance. intros Hr [Ha1 Ha2] [Hq1 Hq2] Hwide. nra.
Qed.

Lemma decide_tall r ra q wh :
  0 < r -> 0 < wh -> B64.near r ra -> B64.near wh q ->
  wh <= r * (1 - tolerance) -> q <= ra.
Proof.
  unfold B64.near, B64.u, tolerance. intros Hr Hwh [Ha1 Ha2] [Hq1 Hq2] Htall. nra.
Qed.

Lemma round_near x : (1 # 2 ^ 100) <= x -> B64.near x (B64.round x).
Proof. apply round_rel. Qed.

(** The box fitted in binary64, for crop sides between 2^-32 and 2^32
    and a requested box with sides between 1/2 and 2^30. *)
Lemma fitted_render_at s W H :
  let cw := Area.width (cropArea s) in
  let ch := Area.height (cropArea s) in
  (1 # 4294967296) <= cw <= 4294967296 ->
  (1 # 4294967296) <= ch <= 4294967296 ->
  (1 # 2) <= W <= 1073741824 ->
  (1 # 2) <= H <= 1073741824 ->
  fitted cw ch W H
    (render_at s (fit_on B64.binary64 (Js.div B64.binary64 cw ch) W H)).
Proof.
  intros cw ch [Hcw1 Hcw2] [Hch1 Hch2] [HW1 HW2] [HH1 HH2].
  cbn [Js.div B64.binary64]. unfold fit_on. cbn [Js.div Js.mul B64.binary64].
  unfold B64.div, B64.mul.
  assert (Er : cw / ch * ch == cw) by (field; lra).
  assert (Ewh : W / H * H == W) by (field; lra).
  assert (Hr1 : (1 # 18446744073709551616) <= cw / ch).
  { set (r := cw / ch) in *. clearbody r. nra. }
  assert (Hr2 : cw / ch <= 18446744073709551616).
  { set (r := cw / ch) in *. clearbody r. nra. }
  assert (Hwh1 : (1 # 2147483648) <= W / H).
  { set (wh := W / H) in *. clearbody wh. nra. }
  assert (Hra : B64.near (cw / ch) (B64.round (cw / ch))).
  { apply round_near. apply Qle_trans with (1 # 18446744073709551616);
      [ unfold Qle; cbn; lia | exact Hr1 ]. }
  assert (Hq : B64.near (W / H) (B64.round (W / H))).
  { apply round_near. apply Qle_trans with (1 # 2147483648);
      [ unfold Qle; cbn; lia | exact Hwh1 ]. }
  assert (Hrpos : 0 < cw / ch) by lra.
  assert (Hwhpos : 0 < W / H) by lra.
  assert (HWpos : 0 < W) by lra.
  assert (HHpos : 0 < H) by lra.
  set (r := cw / ch) in *.
  set (ra := B64.round r) in *.
  set (q := B64.round (W / H)) in *.
  assert (Hra1 : (1 # 36893488147419103232) <= ra /\ ra <= 36893488147419103232).
  { destruct Hra as [A1 A2]. unfold B64.u in A1, A2. clearbody ra r. split; lra. }
  destruct Hra1 as [Hra1 Hra2].
  unfold fitted, within_one_pixel, render_at.
  destruct (Js.gt q ra) eqn:E;
    cbn [fst snd finalWidth finalHeight canvas_width canvas_height].
  - apply gt_true in E.
    assert (Hfw : B64.near (H * ra) (B64.round (H * ra))).
    { apply round_near. clearbody ra.
      apply Qle_trans with ((1 # 2) * (1 # 36893488147419103232));
        [ unfold Qle; cbn; lia | nra ]. }
    destruct (fit_wide r ra q W H _ Hrpos HWpos HHpos Hra Hq E Hfw)
      as (Hpos & Hratio & Hle).
    set (fw := B64.round (H * ra)) in *. clearbody fw.
    split; [ exact Hpos | ]. split; [ exact HHpos | ].
    split; [ exact Hratio | ].
    split; [ left; split; [ reflexivity | exact Hle ] | ].
    split; [ intros _; reflexivity | ].
    split.
    { intros Htall.
      pose proof (decide_tall r ra q (W / H) Hrpos Hwhpos Hra Hq Htall).
      lra. }
    rewrite !canvas_attribute_floor;
      [ split; apply floor_within_one_pixel | lra | lra | lra | ].
    unfold tolerance in Hle. lra.
  - apply gt_false in E.
    assert (Hfh : B64.near (W / ra) (B64.round (W / ra))).
    { apply round_near. clearbody ra.
      assert (Ex : W / ra * ra == W) by (field; lra).
      set (x := W / ra) in *. clearbody x.
      apply Qle_trans with ((1 # 2) * (1 # 36893488147419103232));
        [ unfold Qle; cbn; lia | nra ]. }
    destruct (fit_tall r ra q W H _ Hrpos HWpos HHpos Hra Hq E Hfh)
      as (Hpos & Hratio & Hle).
    set (fh := B64.round (W / ra)) in *. clearbody fh.
    split; [ exact HWpos | ]. split; [ exact Hpos | ].
    split; [ exact Hratio | ].
    split; [ right; split; [ reflexivity | exact Hle ] | ].
    split.
    { intros Hwide.
      pose proof (decide_wide r ra q (W / H) Hrpos Hra Hq Hwide).
      lra. }
    split; [ intros _; reflexivity | ].
    rewrite !canvas_attribute_floor;
      [ split; apply floor_within_one_pixel | lra | | lra | lra ].
    unfold tolerance in Hle. lra.
Qed.


End RoundedFitFacts.

(** C3 (as amended).  Take a loaded image, a crop region whose width and
    height lie between 2^-32 and 2^32, a requested size whose sides lie
    between 1 and 2^29 and a scale for which the scaled sides do so too,
    and let every product and quotient be rounded to binary64.  Then the
    preview is rendered fitted into the requested box, and the confirm
    handler fitted into the requested box times the scale (each scaled
    side as rounded, within a relative [2^-50] of its exact value).
    Fitted: the sides drawn are in the ratio of the crop region within a
    relative [2^-50]; one of them is the requested side itself and the
    other exceeds the requested one by no more than a relative [2^-50];
    the height is the side kept when the ratio of the box exceeds that
    of the crop by more than the tolerance and the width when it falls
    short of it by more than the tolerance (whatever the longer side of
    the box is); and the canvas has those sides rounded down to whole
    pixels, less than one pixel off each. *)
Theorem renderers_keep_crop_aspect_ratio :
  forall (toBlob : ImageCropper.Rendering -> option ImageCropper.Blob)
         (s : ImageCropper.State) (img : ImageCropper.Size.t),
    let cw := ImageCropper.Area.width (ImageCropper.cropArea s) in
    let ch := ImageCropper.Area.height (ImageCropper.cropArea s) in
    let W := inject_Z (ImageCropper.Size.width (ImageCropper.outputSize s)) in
    let H := inject_Z (ImageCropper.Size.height (ImageCropper.outputSize s)) in
    let k := ImageCropper.scale s in
    ImageCropper.imageRef s = Some img ->
    ((1 # 4294967296) <= cw <= 4294967296)%Q ->
    ((1 # 4294967296) <= ch <= 4294967296)%Q ->
    (1 <= W <= 536870912)%Q -> (1 <= H <= 536870912)%Q ->
    (1 <= W * k <= 536870912)%Q -> (1 <= H * k <= 536870912)%Q ->
    exists p c : ImageCropper.Rendering,
      ImageCropper.rendered
        (snd (ImageCropper.updatePreview_on toBlob B64.binary64 s)) = Some p
      /\ ImageCropper.rendered
           (snd (ImageCropper.handleConfirm_on toBlob B64.binary64 s)) = Some c
      /\ ImageCropper.fitted cw ch W H p
      /\ (Qabs (B64.mul W k - W * k) <= W * k * ImageCropper.tolerance)%Q
      /\ (Qabs (B64.mul H k - H * k) <= H * k * ImageCropper.tolerance)%Q
      /\ ImageCropper.fitted cw ch (B64.mul W k) (B64.mul H k) c.
Proof.
  intros toBlob s img cw ch W H k Himg Hcw Hch HW HH HWk HHk.
  subst cw ch W H k.
  assert (Hguard : ImageCropper.nothing_to_render s = false).
  { apply (something_to_render s img Himg); lra. }
  destruct HW as [HW1 HW2], HH as [HH1 HH2].
  destruct HWk as [HWk1 HWk2], HHk as [HHk1 HHk2].
  assert (Hone : ((1 # 2 ^ 100) <= 1)%Q) by (unfold Qle; cbn; lia).
  destruct (round_near _ (Qle_trans _ _ _ Hone HWk1)) as [W1 W2].
  destruct (round_near _ (Qle_trans _ _ _ Hone HHk1)) as [H1 H2].
  unfold B64.u in W1, W2, H1, H2. unfold B64.mul.
  eexists. eexists.
  split; [ apply updatePreview_on_rendered; exact Hguard | ].
  split; [ apply handleConfirm_on_rendered; exact Hguard | ].
  split; [ apply fitted_render_at; try assumption; split; lra | ].
  split; [ apply Qabs_Qle_condition; unfold ImageCropper.tolerance; split; lra | ].
  split; [ apply Qabs_Qle_condition; unfold ImageCropper.tolerance; split; lra | ].
  apply fitted_render_at; try assumption;
    cbn [Js.mul B64.binary64]; unfold B64.mul; split; lra.
Qed.

Lemma renderers_keep_crop_aspect_ratio_witness :
  let s := SampleCrops.half_scale in
  let cw := ImageCropper.Area.width (ImageCropper.cropArea s) in
  let ch := ImageCropper.Area.height (ImageCropper.cropArea s) in
  exists p c : ImageCropper.Rendering,
    ImageCropper.rendered
      (snd (ImageCropper.updatePreview_on SampleCrops.jpeg B64.binary64 s)) = Some p
    /\ ImageCropper.rendered
         (snd (ImageCropper.handleConfirm_on SampleCrops.jpeg B64.binary64 s)) = Some c
    /\ ImageCropper.fitted cw ch 800 600 p
    /\ (Qabs (B64.mul 800 0.5 - 800 * 0.5) <= 800 * 0.5 * ImageCropper.tolerance)%Q
    /\ (Qabs (B64.mul 600 0.5 - 600 * 0.5) <= 600 * 0.5 * ImageCropper.tolerance)%Q
    /\ ImageCropper.fitted cw ch (B64.mul 800 0.5) (B64.mul 600 0.5) c.
Proof.
  apply (renderers_keep_crop_aspect_ratio SampleCrops.jpeg
           SampleCrops.half_scale SampleCrops.frame);
    [ reflexivity | split; apply Qle_bool_iff; vm_compute; reflexivity .. ].
Defined.

(** C3, as stated, does not hold: for the default crop of a 1280x720
    snapshot (1024x576) and the default request of 800x600, both
    renderers keep the longer requested side (the width) and cut the
    shorter one (the height goes from 600 to 450). *)
Lemma larger_side_is_not_the_one_shrunk :
  exists p c : ImageCropper.Rendering,
    ImageCropper.rendered
      (snd (ImageCropper.updatePreview_on SampleCrops.jpeg B64.binary64
              SampleCrops.loaded)) = Some p
    /\ ImageCropper.rendered
         (snd (ImageCropper.handleConfirm_on SampleCrops.jpeg B64.binary64
                 SampleCrops.loaded)) = Some c
    /\ ImageCropper.canvas_size p = (800, 450)
    /\ ImageCropper.canvas_size c = (800, 450)
    /\ ~ ImageCropper.spec_larger_side_shrunk 800 600 p
    /\ ~ ImageCropper.spec_larger_side_shrunk 800 600 c.
Proof.
  eexists. eexists.
  split; [ apply updatePreview_on_rendered; reflexivity | ].
  split; [ apply handleConfirm_on_rendered; reflexivity | ].
  split; [ vm_compute; reflexivity | ]. split; [ vm_compute; reflexivity | ].
  split; intros [Hwide _];
    destruct (Hwide ltac:(discriminate)) as [Hkept _];
    vm_compute in Hkept; discriminate Hkept.
Qed.

(** C5 (the code departs from the claim).  With the scale slider at 50%
    on the default crop and request, the caption under the preview
    announces 400 x 300 and the confirm handler renders at the scaled
    size (400 x 225 after fitting), but the preview is rendered at the
    unscaled size, 800 x 450. *)
Theorem updatePreview_ignores_scale :
  let s := SampleCrops.half_scale in
  ImageCropper.scale s == 0.5
  /\ ImageCropper.preview_caption s = (400, 300)
  /\ option_map ImageCropper.canvas_size
       (ImageCropper.rendered (snd (ImageCropper.handleConfirm SampleCrops.jpeg s)))
     = Some (400, 225)
  /\ option_map ImageCropper.canvas_size
       (ImageCropper.rendered (snd (ImageCropper.updatePreview SampleCrops.jpeg s)))
     = Some (800, 450).
Proof. repeat split. Qed.

(* ===================================================================== *)
(** * Properties of the camera components                                 *)
(* ===================================================================== *)

Section CameraFacts.

Import Camera.

Lemma live_from_app l1 : forall on l2,
  live_from on (l1 ++ l2) = live_from (live_from on l1) l2.
Proof.
  induction l1 as [| e l1 IH]; intros on l2; [ reflexivity | ].
  destruct e; simpl; apply IH.
Qed.

Lemma live_app log l : live (log ++ l) = live_from (live log) l.
Proof. apply live_from_app. Qed.

(** Stopping tracks turns nothing on, and turns the stopped ones off. *)
Lemma live_from_stops ts : forall on t,
  In t (live_from on (map TrackStop ts)) -> In t on /\ ~ In t ts.
Proof.
  induction ts as [| t0 ts IH]; intros on t Hin; simpl in *.
  - split; [ exact Hin | tauto ].
  - apply IH in Hin as [Hin Hnot].
    apply filter_In in Hin as [Hin Hne].
    split; [ exact Hin | ].
    intros [-> | Hts]; [ | contradiction ].
    rewrite Nat.eqb_refl in Hne. discriminate Hne.
Qed.

Lemma nil_of_no_member {A} (l : list A) : (forall x, ~ In x l) -> l = [].
Proof.
  destruct l as [| x l]; [ reflexivity | ].
  intros H. exfalso. apply (H x). left. reflexivity.
Qed.

(** After every track of the only capturing stream is stopped, nothing
    is capturing. *)
Lemma live_after_stop_all s log :
  only_live s log -> live (log ++ map TrackStop (tracks s)) = [].
Proof.
  intros Honly. apply nil_of_no_member. intros t Hin.
  rewrite live_app in Hin. apply live_from_stops in Hin as [Hin Hnot].
  apply Hnot, Honly, Hin.
Qed.

Lemma stop_count_app t l1 l2 :
  stop_count t (l1 ++ l2) = (stop_count t l1 + stop_count t l2)%nat.
Proof. unfold stop_count. rewrite List.filter_app, length_app. reflexivity. Qed.

Lemma stop_count_stops t ts :
  stop_count t (map TrackStop ts) = count_occ Nat.eq_dec ts t.
Proof.
  induction ts as [| t0 ts IH]; [ reflexivity | ].
  unfold stop_count in *. simpl.
  destruct (Nat.eq_dec t0 t) as [-> | Hne].
  - rewrite Nat.eqb_refl. simpl. rewrite IH. reflexivity.
  - apply Nat.eqb_neq in Hne. rewrite Hne. exact IH.
Qed.

Lemma stop_count_once t ts :
  NoDup ts -> In t ts -> stop_count t (map TrackStop ts) = 1%nat.
Proof.
  intros Hnd Hin. rewrite stop_count_stops.
  apply NoDup_ListNoDup in Hnd.
  apply NoDup_count_occ'; assumption.
Qed.

(** A track that is capturing keeps capturing through a stretch of
    history in which [stop()] is not called on it. *)
Lemma live_from_keeps l : forall on t,
  stop_count t l = 0%nat -> In t on -> In t (live_from on l).
Proof.
  induction l as [| e l IH]; intros on t Hnone Hin; [ exact Hin | ].
  change (e :: l) with ([e] ++ l) in Hnone.
  rewrite stop_count_app in Hnone.
  assert (Hl : stop_count t l = 0%nat) by lia.
  destruct e as [t' | c | g | msg]; simpl.
  - apply IH; [ exact Hl | ].
    apply filter_In. split; [ exact Hin | ].
    unfold stop_count in Hnone. simpl in Hnone.
    destruct (Nat.eqb t' t) eqn:Heq; [ simpl in Hnone; lia | ].
    rewrite Nat.eqb_sym. rewrite Heq. reflexivity.
  - apply IH; assumption.
  - apply IH; [ exact Hl | ]. apply in_or_app. left. exact Hin.
  - apply IH; assumption.
Qed.

Lemma stop_count_absent t ts :
  ~ In t ts -> stop_count t (map TrackStop ts) = 0%nat.
Proof.
  intros Hnot. rewrite stop_count_stops.
  apply count_occ_not_In. exact Hnot.
Qed.

End CameraFacts.

(** [CameraModal.startCamera] does not stop a stream it holds: started
    again while it still holds one (here after [play()] was rejected and
    the user retried), it requests a second stream and overwrites the
    reference, leaving the tracks of both capturing. *)
Remark modal_startCamera_keeps_held_stream :
  CameraModal.streamRef (fst SampleCameras.modal_play_rejected)
  = Some {| Camera.stream_id := 0; Camera.tracks := [0%nat] |}
  /\ CameraModal.streamRef (fst SampleCameras.modal_retried)
     = Some {| Camera.stream_id := 3; Camera.tracks := [3%nat] |}
  /\ Camera.live (snd SampleCameras.modal_retried) = [0%nat; 3%nat].
Proof. repeat split. Qed.

(** C9, as stated, does not hold for the modal: after a refused
    permission prompt no stream is held, yet [stopCamera] changes the
    state, since it clears the error message unconditionally. *)
Lemma modal_stopCamera_is_not_a_noop :
  let s := fst SampleCameras.modal_denied in
  let log := snd SampleCameras.modal_denied in
  CameraModal.streamRef s = None
  /\ CameraModal.error s = Some "Permesso fotocamera negato"
  /\ CameraModal.error (fst (Eff.run (CameraModal.stopCamera s) log)) = None
  /\ fst (Eff.run (CameraModal.stopCamera s) log) <> s.
Proof.
  split; [ reflexivity | ]. split; [ reflexivity | ]. split; [ reflexivity | ].
  intros Heq. apply (f_equal CameraModal.error) in Heq. discriminate Heq.
Qed.

(** C9 (as amended).  In both components [stopCamera] may be called
    again at once without any further effect (the second call neither
    changes the state the first one left nor stops a track), it leaves no
    stream reference behind, and when the held stream was the only one
    capturing nothing is capturing afterwards.  With no stream held it
    stops no track; [CameraCapture] then leaves its state untouched, while
    [CameraModal] still detaches the video source and resets [isActive] to
    false and [error] to null. *)
Theorem stopCamera_idempotent :
  forall (c : CameraCapture.State) (m : CameraModal.State) (log : Camera.Log),
    let c1 := Eff.run (CameraCapture.stopCamera c) log in
    let m1 := Eff.run (CameraModal.stopCamera m) log in
    Eff.run (CameraCapture.stopCamera (fst c1)) (snd c1) = c1
    /\ Eff.run (CameraModal.stopCamera (fst m1)) (snd m1) = m1
    /\ CameraCapture.stream (fst c1) = None
    /\ CameraModal.streamRef (fst m1) = None
    /\ (forall held, CameraCapture.stream c = Some held ->
          Camera.only_live held log -> Camera.live (snd c1) = [])
    /\ (forall held, CameraModal.streamRef m = Some held ->
          Camera.only_live held log -> Camera.live (snd m1) = [])
    /\ (CameraCapture.stream c = None -> c1 = (c, log))
    /\ (CameraModal.streamRef m = None ->
          m1 = (CameraModal.setError None
                  (CameraModal.setIsActive false
                     (CameraModal.set_srcObject None m)), log)).
Proof.
  intros c m log c1 m1. subst c1 m1.
  destruct c as [cs ci cl cf cst cv].
  destruct m as [ml me ma mc mst mb ms mv].
  unfold CameraCapture.stopCamera, CameraModal.stopCamera,
    Eff.run, Eff.bind, Eff.ret, Camera.stop_tracks.
  cbn [CameraCapture.stream CameraModal.streamRef].
  destruct cs as [hc |]; destruct ms as [hm |]; destruct mv as [o |];
    cbn;
    (split; [ reflexivity | ]); (split; [ reflexivity | ]);
    (split; [ reflexivity | ]); (split; [ reflexivity | ]);
    (split; [ intros held Hheld Honly; simplify_eq;
              apply live_after_stop_all; assumption | ]);
    (split; [ intros held Hheld Honly; simplify_eq;
              apply live_after_stop_all; assumption | ]);
    split; intros Hnone; try discriminate Hnone; reflexivity.
Qed.

Lemma stopCamera_idempotent_witness :
  Eff.run (CameraCapture.stopCamera CameraCapture.initial) []
  = (CameraCapture.initial, [])
  /\ Camera.live
       (snd (Eff.run (CameraCapture.stopCamera (fst SampleCameras.capture_opened))
               (snd SampleCameras.capture_opened))) = [].
Proof.
  destruct (stopCamera_idempotent (fst SampleCameras.capture_opened)
              CameraModal.initial (snd SampleCameras.capture_opened))
    as (_ & _ & _ & _ & Hreleased & _).
  destruct (stopCamera_idempotent CameraCapture.initial CameraModal.initial [])
    as (_ & _ & _ & _ & _ & _ & Hnoop & _).
  split.
  - apply Hnoop. reflexivity.
  - apply (Hreleased SampleCameras.back_stream eq_refl).
    intros t Hin. exact Hin.
Defined.

(* ===================================================================== *)
(** * Worked examples                                                     *)
(* ===================================================================== *)

(** A batch of three files against an endpoint that stores everything:
    the text file and the oversized JPEG are reported, the small JPEG is
    uploaded, and the only request is the one for index 0. *)
Example batch_of_three :
  let out := Eff.run (UploadClient.uploadMultiplePhotos "production"
                        Samples.accepting
                        [Samples.small_jpeg; Samples.notes_txt; Samples.big_jpeg]
                        (Some "prod-A") "SKU-1") [] in
  length (UploadClient.successes (fst out)) = 1%nat
  /\ UploadClient.errors (fst out)
     = [ {| UploadClient.be_file := "notes.txt";
            UploadClient.be_error := UploadClient.InvalidFormat |};
         {| UploadClient.be_file := "big.jpg";
            UploadClient.be_error := UploadClient.TooLarge |} ]
  /\ snd out = [UploadClient.upload_request "production" Samples.small_jpeg
                  (Some "prod-A") "SKU-1" true].
Proof. repeat split. Qed.

(** When the file at index 0 is turned away locally, the files after it
    are still sent with [isFirst] false. *)
Example batch_with_rejected_head :
  snd (Eff.run (UploadClient.uploadMultiplePhotos "production" Samples.accepting
                  [Samples.notes_txt; Samples.small_jpeg] None "SKU-1") [])
  = [UploadClient.upload_request "production" Samples.small_jpeg
       None "SKU-1" false].
Proof. reflexivity. Qed.

(** A transport failure is reported as such, after the one request. *)
Example upload_offline :
  Eff.run (UploadClient.uploadProductPhotoSecure "production" Samples.offline
             (Some Samples.small_jpeg) None "SKU-1" false) []
  = (UploadClient.failure (UploadClient.TransportError "Failed to fetch"),
     [UploadClient.upload_request "production" Samples.small_jpeg None "SKU-1" false]).
Proof. reflexivity. Qed.

(** In binary64 the default region of a 1280x720 snapshot and the sizes
    fitted for it come out as in the rational model. *)
Example ieee_initial_region :
  Ieee.initial_region 1280 720 = (128, 72, 1024, 576)%float.
Proof. vm_compute. reflexivity. Qed.

Example ieee_fit :
  Ieee.fit (1024 / 576) 800 600 = (800, 450)%float
  /\ Ieee.fit (1024 / 576) (800 * 0.5) (600 * 0.5) = (400, 225)%float.
Proof. split; vm_compute; reflexivity. Qed.

Example rational_fit :
  (fst (ImageCropper.fit (1024 / 576) 800 600) == 800
   /\ snd (ImageCropper.fit (1024 / 576) 800 600) == 450
   /\ fst (ImageCropper.fit (1024 / 576) (800 * 0.5) (600 * 0.5)) == 400
   /\ snd (ImageCropper.fit (1024 / 576) (800 * 0.5) (600 * 0.5)) == 225)%Q.
Proof. repeat split; reflexivity. Qed.

(** The rounding of [B64] against the kernel's binary64 numbers:
    quotients and products, ties (to the even significand) and the
    subnormal range. *)
Example binary64_matches_floats :
  (Ieee.to_Q (25 / 11)%float == B64.div 25 11
   /\ Ieee.to_Q (800 / (25 / 11))%float == B64.div 800 (B64.div 25 11)
   /\ Ieee.to_Q (1 / 3)%float == B64.div 1 3
   /\ Ieee.to_Q (-7 / 3)%float == B64.div (-7) 3
   /\ Ieee.to_Q (1230 * (1280 / 1230))%float == B64.mul 1230 (B64.div 1280 1230)
   /\ Ieee.to_Q (3 * 3002399751580331)%float == B64.mul 3 3002399751580331
   /\ Ieee.to_Q (3 * 3002399751580333)%float == B64.mul 3 3002399751580333
   /\ Ieee.to_Q (0x1p-1074 / 2)%float == B64.div (2 ^ (-1074)) 2
   /\ Ieee.to_Q (0x3p-1074 / 2)%float == B64.div (3 * 2 ^ (-1074)) 2)%Q.
Proof. repeat split; vm_compute; reflexivity. Qed.

(** Rounding shows in the pixels.  A 25x11 strip fitted into 800x600
    would be 800 x 352 on exact numbers; in binary64 the quotient
    800 / (25 / 11) comes out just below 352 and the canvas is
    800 x 351. *)
Example strip_preview :
  option_map ImageCropper.canvas_size
    (ImageCropper.rendered
       (snd (ImageCropper.updatePreview_on SampleCrops.jpeg B64.binary64
               SampleCrops.strip)))
  = Some (800, 351)
  /\ option_map ImageCropper.canvas_size
       (ImageCropper.rendered
          (snd (ImageCropper.updatePreview SampleCrops.jpeg SampleCrops.strip)))
     = Some (800, 352)
  /\ Ieee.fit (25 / 11) 800 600 = (800, 0x1.5ffffffffffffp+8)%float.
Proof. repeat split; vm_compute; reflexivity. Qed.

(** A size from 2^31 up does not fit a canvas attribute: the default
    comes back. *)
Example canvas_attribute_out_of_range :
  Js.canvas_attribute 300 2147483647 = 2147483647
  /\ Js.canvas_attribute 300 2147483648 = 300
  /\ Js.canvas_attribute 150 3000000000 = 150.
Proof. repeat split. Qed.

(* ===================================================================== *)
(** * More on the photo table and the dashboard                           *)
(* ===================================================================== *)

Section PhotoTableFacts.

Import UploadClient Supabase.

#[global] Instance photo_order_total : Total photo_order.
Proof.
  intros a b. unfold photo_order, comes_first.
  destruct (is_primary a), (is_primary b); auto;
    destruct (Z.leb_spec (created_at a) (created_at b)); auto;
    right; apply Z.leb_le; lia.
Qed.

#[global] Instance photo_order_trans : Transitive photo_order.
Proof.
  intros a b c. unfold photo_order, comes_first.
  destruct (is_primary a), (is_primary b), (is_primary c);
    try discriminate; auto; rewrite !Z.leb_le; lia.
Qed.

(** In a strongly sorted list an earlier element is related to every
    later one. *)
Lemma StronglySorted_lookup {A} (R : relation A) (l : list A) :
  StronglySorted R l ->
  forall i j a b, (i < j)%nat -> l !! i = Some a -> l !! j = Some b -> R a b.
Proof.
  induction 1 as [| x l Hl IH Hall]; intros i j a b Hij Ha Hb.
  - rewrite lookup_nil in Ha. discriminate Ha.
  - destruct j as [| j]; [ lia | ]. simpl in Hb.
    destruct i as [| i]; simpl in Ha.
    + injection Ha as <-.
      rewrite List.Forall_forall in Hall. apply Hall.
      apply list_elem_of_In, list_elem_of_lookup. eauto.
    + apply (IH i j); [ lia | assumption | assumption ].
Qed.

Lemma filter_filter_comm {A} (f g : A -> bool) (l : list A) :
  List.filter f (List.filter g l) = List.filter g (List.filter f l).
Proof.
  induction l as [| x l IH]; [ reflexivity | ].
  simpl. destruct (f x) eqn:Hf, (g x) eqn:Hg; simpl;
    rewrite ?Hf, ?Hg, IH; reflexivity.
Qed.

End PhotoTableFacts.

(** X1.  When either environment variable is missing or empty, or
    contains 'placeholder', the client counts as not configured, and the
    photo helpers answer on the spot: no statement is sent and the table
    is not touched.  The three photo helpers report 'Supabase non
    configurato' ([getProductPhotos] with an empty list, not null), while
    the dashboard reports zeros and no error. *)
Theorem placeholder_env_sends_nothing :
  forall (url key : option string) (carried_out : nat -> bool)
         (db : Supabase.Remote) (c : Supabase.Catalog)
         (photoId : Z) (productId : string),
    url = None \/ url = Some EmptyString
    \/ key = None \/ key = Some EmptyString
    \/ (exists u, url = Some u /\ Supabase.includes "placeholder" u = true)
    \/ (exists k, key = Some k /\ Supabase.includes "placeholder" k = true) ->
    let configured := Supabase.isSupabaseConfigured url key in
    configured = false
    /\ Eff.run (Supabase.setPrimaryPhoto configured carried_out photoId productId) db
       = ({| Supabase.db_error := Some "Supabase non configurato" |}, db)
    /\ Eff.run (Supabase.deleteProductPhoto configured carried_out photoId) db
       = ({| Supabase.db_error := Some "Supabase non configurato" |}, db)
    /\ Eff.run (Supabase.getProductPhotos configured carried_out productId) db
       = ({| Supabase.list_data := Some [];
             Supabase.list_error := Some "Supabase non configurato" |}, db)
    /\ Eff.run (Supabase.getDashboardStats configured carried_out) c
       = ({| Supabase.stats_data :=
               Some {| Supabase.totalProducts := 0;
                       Supabase.lowStockProducts := 0;
                       Supabase.totalValue := 0;
                       Supabase.recentProducts := [] |};
             Supabase.stats_error := None |}, c).
Proof.
  intros url key carried_out db c photoId productId Hbad configured.
  assert (Hcfg : configured = false).
  { subst configured. unfold Supabase.isSupabaseConfigured.
    destruct Hbad as [-> | [-> | [-> | [-> | [(u & -> & Hu) | (k & -> & Hk)]]]]].
    - reflexivity.
    - reflexivity.
    - destruct url as [[| ch u] |]; reflexivity.
    - destruct url as [[| ch u] |]; reflexivity.
    - destruct u as [| ch u]; [ reflexivity | ].
      destruct key as [[| d k] |]; try reflexivity.
      rewrite Hu. reflexivity.
    - destruct url as [[| ch u] |]; try reflexivity.
      destruct k as [| d k]; [ reflexivity | ].
      rewrite Hk. apply andb_false_r. }
  split; [ exact Hcfg | ]. rewrite Hcfg.
  repeat split.
Qed.

Lemma placeholder_env_sends_nothing_witness :
  Supabase.isSupabaseConfigured
    (Some "https://placeholder.supabase.co") (Some "anon-key") = false
  /\ Supabase.isSupabaseConfigured None (Some "anon-key") = false.
Proof.
  split.
  - apply (placeholder_env_sends_nothing (Some "https://placeholder.supabase.co")
             (Some "anon-key") SamplePhotos.always
             {| Supabase.rows := SamplePhotos.table; Supabase.sent := 0 |}
             {| Supabase.products := []; Supabase.cat_sent := 0 |} 1 "prod-A").
    right; right; right; right; left.
    exists "https://placeholder.supabase.co". split; reflexivity.
  - apply (placeholder_env_sends_nothing None
             (Some "anon-key") SamplePhotos.always
             {| Supabase.rows := SamplePhotos.table; Supabase.sent := 0 |}
             {| Supabase.products := []; Supabase.cat_sent := 0 |} 1 "prod-A").
    left. reflexivity.
Defined.

(** X2.  When the select is carried out, [getProductPhotos] returns the
    photos of the product and nothing else (a rearrangement of the rows
    whose [product_id] is the one asked for), ordered so that no photo
    without the primary flag comes before one with it and, among photos
    with the same flag, none comes before an older one; the table is left
    as it was. *)
Theorem getProductPhotos_primary_then_oldest_first :
  forall (carried_out : nat -> bool) (db : Supabase.Remote) (productId : string),
    carried_out (Supabase.sent db) = true ->
    let out := Eff.run (Supabase.getProductPhotos true carried_out productId) db in
    exists l : list UploadClient.PhotoDescriptor,
      fst out = {| Supabase.list_data := Some l; Supabase.list_error := None |}
      /\ Supabase.rows (snd out) = Supabase.rows db
      /\ l ≡ₚ List.filter (Supabase.eq_product_id productId) (Supabase.rows db)
      /\ (forall i j a b, (i < j)%nat -> l !! i = Some a -> l !! j = Some b ->
            (UploadClient.is_primary b = true -> UploadClient.is_primary a = true)
            /\ (UploadClient.is_primary a = UploadClient.is_primary b ->
                (UploadClient.created_at a <= UploadClient.created_at b)%Z)).
Proof.
  intros carried_out db productId Hok out.
  exists (merge_sort Supabase.photo_order
            (List.filter (Supabase.eq_product_id productId) (Supabase.rows db))).
  subst out. unfold Supabase.getProductPhotos, Supabase.select_ordered, Eff.run.
  cbn [negb]. rewrite Hok. cbn [fst snd Supabase.rows].
  split; [ reflexivity | ]. split; [ reflexivity | ].
  split; [ apply merge_sort_Permutation | ].
  intros i j a b Hij Ha Hb.
  pose proof (StronglySorted_lookup Supabase.photo_order _
                (StronglySorted_merge_sort Supabase.photo_order _)
                i j a b Hij Ha Hb) as Hord.
  unfold Supabase.photo_order, Supabase.comes_first in Hord.
  destruct (UploadClient.is_primary a), (UploadClient.is_primary b);
    try discriminate Hord; split; intros H; try discriminate H; auto;
    apply Z.leb_le; exact Hord.
Qed.

Lemma getProductPhotos_primary_then_oldest_first_witness :
  exists l : list UploadClient.PhotoDescriptor,
    fst (Eff.run (Supabase.getProductPhotos true SamplePhotos.always "prod-A")
           {| Supabase.rows := SamplePhotos.shuffled; Supabase.sent := 0 |})
    = {| Supabase.list_data := Some l; Supabase.list_error := None |}
    /\ l = [ SamplePhotos.photo 2 "prod-A" true;
             SamplePhotos.photo 1 "prod-A" false;
             SamplePhotos.photo 3 "prod-A" false ].
Proof.
  destruct (getProductPhotos_primary_then_oldest_first SamplePhotos.always
              {| Supabase.rows := SamplePhotos.shuffled; Supabase.sent := 0 |}
              "prod-A" eq_refl) as (l & Hl & _).
  exists l. split; [ exact Hl | ].
  vm_compute in Hl. injection Hl as <-. reflexivity.
Defined.

Section PrimaryListingFacts.

Import UploadClient Supabase.

Lemma in_primaries owner r t :
  In r (primaries owner t)
  <-> In r t /\ eq_product_id owner r = true /\ is_primary r = true.
Proof.
  unfold primaries. rewrite filter_In, andb_true_iff. tauto.
Qed.

Lemma clear_then_set_ids p owner t :
  map UploadClient.id (clear_then_set p owner t) = map UploadClient.id t.
Proof.
  unfold clear_then_set. rewrite !List.map_map. apply List.map_ext.
  intros r. destruct (eq_product_id owner r); cbn;
    destruct (eq_id p _); reflexivity.
Qed.

Lemma NoDup_of_ids (t : list PhotoDescriptor) :
  NoDup (map UploadClient.id t) -> NoDup t.
Proof. apply (NoDup_fmap_1 UploadClient.id). Qed.

Lemma NoDup_filter_bool {A} (f : A -> bool) (l : list A) :
  NoDup l -> NoDup (List.filter f l).
Proof.
  intros H. apply NoDup_ListNoDup. apply List.NoDup_filter.
  apply NoDup_ListNoDup. exact H.
Qed.

Lemma filter_idem {A} (f : A -> bool) (l : list A) :
  List.filter f (List.filter f l) = List.filter f l.
Proof.
  induction l as [| x l IH]; [ reflexivity | ].
  simpl. destruct (f x) eqn:E; simpl; rewrite ?E, IH; reflexivity.
Qed.

End PrimaryListingFacts.

(** X3.  After [setPrimaryPhoto p owner] (on a table with distinct ids in
    which [p] belongs to [owner], all statements carried out), the
    listing of [owner]'s photos starts with [p], now flagged, and no
    other photo in it carries the flag: the gallery shows the chosen
    photo first. *)
Theorem chosen_photo_heads_the_listing :
  forall (carried_out : nat -> bool) (db : Supabase.Remote)
         (p : Z) (owner : string) (r0 : UploadClient.PhotoDescriptor),
    NoDup (map UploadClient.id (Supabase.rows db)) ->
    In r0 (Supabase.rows db) ->
    UploadClient.id r0 = p ->
    UploadClient.product_id r0 = Some owner ->
    carried_out (Supabase.sent db) = true ->
    carried_out (S (Supabase.sent db)) = true ->
    carried_out (S (S (Supabase.sent db))) = true ->
    let after := snd (Eff.run (Supabase.setPrimaryPhoto true carried_out p owner) db) in
    let listing := fst (Eff.run (Supabase.getProductPhotos true carried_out owner) after) in
    exists rest : list UploadClient.PhotoDescriptor,
      listing = {| Supabase.list_data := Some (Supabase.with_is_primary true r0 :: rest);
                   Supabase.list_error := None |}
      /\ Forall (fun r => UploadClient.is_primary r = false) rest.
Proof.
  intros carried_out db p owner r0 Hnd Hin Hid Hown H1 H2 H3 after listing.
  set (t' := Supabase.clear_then_set p owner (Supabase.rows db)).
  set (r1 := Supabase.with_is_primary true r0).
  assert (Hafter : after = {| Supabase.rows := t';
                              Supabase.sent := S (S (Supabase.sent db)) |}).
  { subst after. unfold Supabase.setPrimaryPhoto, Eff.run, Eff.bind, Supabase.update.
    cbn [negb]. rewrite H1. cbn [Supabase.sent Supabase.rows]. rewrite H2.
    reflexivity. }
  set (l := merge_sort Supabase.photo_order
              (List.filter (Supabase.eq_product_id owner) t')).
  assert (Hlisting : listing = {| Supabase.list_data := Some l;
                                  Supabase.list_error := None |}).
  { subst listing. rewrite Hafter.
    unfold Supabase.getProductPhotos, Supabase.select_ordered, Eff.run.
    cbn [negb Supabase.sent Supabase.rows]. rewrite H3. reflexivity. }
  pose proof (primaries_with_chosen p owner _ r0 Hnd Hin Hid Hown) as Hprim.
  fold t' in Hprim. fold r1 in Hprim.
  assert (Hperm : l ≡ₚ List.filter (Supabase.eq_product_id owner) t')
    by apply merge_sort_Permutation.
  assert (Hsorted : StronglySorted Supabase.photo_order l)
    by apply (StronglySorted_merge_sort Supabase.photo_order).
  assert (Hmem : forall r, In r l <-> In r t' /\ Supabase.eq_product_id owner r = true).
  { intros r. rewrite <- filter_In. rewrite <- !list_elem_of_In.
    rewrite Hperm. reflexivity. }
  assert (Hflagged : forall r, In r l -> UploadClient.is_primary r = true -> r = r1).
  { intros r Hr Hflag. apply Hmem in Hr as [Hr Ho].
    assert (Hp : In r (Supabase.primaries owner t')).
    { apply in_primaries. auto. }
    rewrite Hprim in Hp. destruct Hp as [<- | []]. reflexivity. }
  assert (Hr1 : In r1 l).
  { assert (Hp : In r1 (Supabase.primaries owner t'))
      by (rewrite Hprim; left; reflexivity).
    apply in_primaries in Hp as (Hp & Ho & _). apply Hmem. auto. }
  assert (Hndl : NoDup l).
  { rewrite Hperm. apply NoDup_filter_bool, NoDup_of_ids.
    subst t'. rewrite clear_then_set_ids. exact Hnd. }
  destruct l as [| h rest] eqn:El; [ destruct Hr1 | ].
  assert (Hh : h = r1).
  { destruct Hr1 as [E | Hrest]; [ exact E | ].
    apply Hflagged; [ left; reflexivity | ].
    apply StronglySorted_inv in Hsorted as [_ Hall].
    rewrite List.Forall_forall in Hall.
    specialize (Hall r1 Hrest).
    unfold Supabase.photo_order, Supabase.comes_first in Hall.
    subst r1. cbn [UploadClient.is_primary Supabase.with_is_primary] in Hall.
    destruct (UploadClient.is_primary h); [ reflexivity | discriminate Hall ]. }
  exists rest. split; [ rewrite Hlisting, Hh; reflexivity | ].
  apply Forall_forall. intros r Hr.
  destruct (UploadClient.is_primary r) eqn:Hflag; [ exfalso | reflexivity ].
  apply list_elem_of_In in Hr.
  assert (r = r1) by (apply Hflagged; [ right; exact Hr | exact Hflag ]).
  subst r h. apply NoDup_cons in Hndl as [Hnot _].
  apply Hnot, list_elem_of_In, Hr.
Qed.

Lemma chosen_photo_heads_the_listing_witness :
  exists rest : list UploadClient.PhotoDescriptor,
    fst (Eff.run (Supabase.getProductPhotos true SamplePhotos.always "prod-A")
           (snd (Eff.run (Supabase.setPrimaryPhoto true SamplePhotos.always 3 "prod-A")
                   {| Supabase.rows := SamplePhotos.table; Supabase.sent := 0 |})))
    = {| Supabase.list_data := Some (SamplePhotos.photo 3 "prod-A" true :: rest);
         Supabase.list_error := None |}
    /\ Forall (fun r => UploadClient.is_primary r = false) rest.
Proof.
  apply (chosen_photo_heads_the_listing SamplePhotos.always
           {| Supabase.rows := SamplePhotos.table; Supabase.sent := 0 |}
           3 "prod-A" (SamplePhotos.photo 3 "prod-A" false)).
  - simpl. repeat constructor; rewrite ?list_elem_of_In; simpl; intuition discriminate.
  - simpl. tauto.
  - reflexivity.
  - reflexivity.
  - reflexivity.
  - reflexivity.
  - reflexivity.
Defined.

(** X4.  When the delete is carried out, [deleteProductPhoto p] removes
    the rows with id [p] and no other; the photos of any product that
    carry the primary flag afterwards are those that carried it before,
    minus [p] (deleting the primary photo promotes no other photo), and a
    second delete of [p] changes nothing. *)
Theorem deleteProductPhoto_removes_only_that_photo :
  forall (carried_out : nat -> bool) (db : Supabase.Remote) (p : Z),
    carried_out (Supabase.sent db) = true ->
    let out := Eff.run (Supabase.deleteProductPhoto true carried_out p) db in
    Supabase.db_error (fst out) = None
    /\ (forall r, In r (Supabase.rows (snd out))
                  <-> In r (Supabase.rows db) /\ UploadClient.id r <> p)
    /\ (forall owner,
          Supabase.primaries owner (Supabase.rows (snd out))
          = List.filter (fun r => negb (Supabase.eq_id p r))
              (Supabase.primaries owner (Supabase.rows db)))
    /\ (carried_out (S (Supabase.sent db)) = true ->
        Supabase.rows
          (snd (Eff.run (Supabase.deleteProductPhoto true carried_out p) (snd out)))
        = Supabase.rows (snd out)).
Proof.
  intros carried_out db p Hok out.
  assert (Hout : out = ({| Supabase.db_error := None |},
                        {| Supabase.rows :=
                             List.filter (fun r => negb (Supabase.eq_id p r))
                               (Supabase.rows db);
                           Supabase.sent := S (Supabase.sent db) |})).
  { subst out. unfold Supabase.deleteProductPhoto, Supabase.delete_where, Eff.run.
    cbn [negb]. rewrite Hok. reflexivity. }
  rewrite Hout. cbn [fst snd Supabase.db_error Supabase.rows].
  split; [ reflexivity | ]. split; [ | split ].
  - intros r. rewrite filter_In. unfold Supabase.eq_id.
    rewrite negb_true_iff, Z.eqb_neq. reflexivity.
  - intros owner. unfold Supabase.primaries. apply filter_filter_comm.
  - intros Hok2. unfold Supabase.deleteProductPhoto, Supabase.delete_where, Eff.run.
    cbn [negb Supabase.sent Supabase.rows]. rewrite Hok2.
    cbn [snd Supabase.rows]. apply filter_idem.
Qed.

Lemma deleteProductPhoto_removes_only_that_photo_witness :
  Supabase.primaries "prod-A"
    (Supabase.rows
       (snd (Eff.run (Supabase.deleteProductPhoto true SamplePhotos.always 2)
               {| Supabase.rows := SamplePhotos.shuffled; Supabase.sent := 0 |})))
  = [].
Proof.
  destruct (deleteProductPhoto_removes_only_that_photo SamplePhotos.always
              {| Supabase.rows := SamplePhotos.shuffled; Supabase.sent := 0 |}
              2 eq_refl) as (_ & _ & Hprim & _).
  rewrite Hprim. reflexivity.
Defined.

Section DashboardFacts.

Import Supabase.
Local Open Scope Q_scope.

#[global] Instance newer_first_total : Total newer_first.
Proof. intros a b. unfold newer_first. lia. Qed.

#[global] Instance newer_first_trans : Transitive newer_first.
Proof. intros a b c. unfold newer_first. lia. Qed.

(** The value of the stock of one product. *)
Lemma stock_value_nonneg p :
  0 <= p_price p -> (0 <= p_quantity_stock p)%Z ->
  0 <= p_price p * inject_Z (p_quantity_stock p).
Proof.
  intros Hp Hq. apply Qmult_le_0_compat; [ exact Hp | ].
  change 0 with (inject_Z 0). rewrite <- Zle_Qle. exact Hq.
Qed.

Lemma fold_value_ge (l : list Product) : forall acc,
  (forall p, In p l -> 0 <= p_price p /\ (0 <= p_quantity_stock p)%Z) ->
  acc <= fold_left (fun sum p => sum + p_price p * inject_Z (p_quantity_stock p)) l acc.
Proof.
  induction l as [| q l IH]; intros acc Hall; simpl; [ apply Qle_refl | ].
  apply Qle_trans with (acc + p_price q * inject_Z (p_quantity_stock q)).
  - destruct (Hall q (or_introl eq_refl)) as [Hp Hq].
    pose proof (stock_value_nonneg q Hp Hq). lra.
  - apply IH. intros p Hin. apply Hall. right. exact Hin.
Qed.

Lemma fold_value_covers (l : list Product) : forall acc p,
  (forall p, In p l -> 0 <= p_price p /\ (0 <= p_quantity_stock p)%Z) ->
  In p l ->
  acc + p_price p * inject_Z (p_quantity_stock p)
  <= fold_left (fun sum p => sum + p_price p * inject_Z (p_quantity_stock p)) l acc.
Proof.
  induction l as [| q l IH]; intros acc p Hall Hin; [ destruct Hin | ].
  simpl. destruct Hin as [-> | Hin].
  - apply fold_value_ge. intros p' Hp'. apply Hall. right. exact Hp'.
  - apply Qle_trans
      with (acc + p_price q * inject_Z (p_quantity_stock q)
            + p_price p * inject_Z (p_quantity_stock p)).
    + destruct (Hall q (or_introl eq_refl)) as [Hp Hq].
      pose proof (stock_value_nonneg q Hp Hq). lra.
    + apply IH; [ | exact Hin ]. intros p' Hp'. apply Hall. right. exact Hp'.
Qed.

End DashboardFacts.

(** X5.  When both selects are carried out, [getDashboardStats] reports
    the number of products, the number of those with fewer than 10 in
    stock (never more than the total), and as recent products the first
    five (or all, if fewer) of the products arranged newest first.  When
    no price or stock is negative, the total value is at least the value
    of the stock of any single product.  The table is only read. *)
Theorem getDashboardStats_figures :
  forall (carried_out : nat -> bool) (c : Supabase.Catalog),
    carried_out (Supabase.cat_sent c) = true ->
    carried_out (S (Supabase.cat_sent c)) = true ->
    let out := Eff.run (Supabase.getDashboardStats true carried_out) c in
    exists (st : Supabase.Stats) (newest : list Supabase.Product),
      fst out = {| Supabase.stats_data := Some st; Supabase.stats_error := None |}
      /\ Supabase.products (snd out) = Supabase.products c
      /\ Supabase.totalProducts st = length (Supabase.products c)
      /\ Supabase.lowStockProducts st
         = length (List.filter (fun p => (Supabase.p_quantity_stock p <? 10)%Z)
                     (Supabase.products c))
      /\ (Supabase.lowStockProducts st <= Supabase.totalProducts st)%nat
      /\ newest ≡ₚ Supabase.products c
      /\ StronglySorted Supabase.newer_first newest
      /\ Supabase.recentProducts st = map Supabase.recent_of (take 5 newest)
      /\ length (Supabase.recentProducts st)
         = Nat.min 5 (length (Supabase.products c))
      /\ ((forall p, In p (Supabase.products c) ->
             (0 <= Supabase.p_price p)%Q /\ (0 <= Supabase.p_quantity_stock p)%Z) ->
          forall p, In p (Supabase.products c) ->
            (Supabase.p_price p * inject_Z (Supabase.p_quantity_stock p)
             <= Supabase.totalValue st)%Q).
Proof.
  intros carried_out c H1 H2 out.
  eexists. exists (merge_sort Supabase.newer_first (Supabase.products c)).
  subst out. unfold Supabase.getDashboardStats, Supabase.select_products,
    Eff.run, Eff.bind, Eff.ret.
  cbn [negb]. rewrite H1. cbn [Supabase.cat_sent Supabase.products]. rewrite H2.
  cbn [fst snd Supabase.products Supabase.totalProducts
       Supabase.lowStockProducts Supabase.recentProducts Supabase.totalValue].
  split; [ reflexivity | ]. split; [ reflexivity | ].
  split; [ reflexivity | ]. split; [ reflexivity | ].
  split; [ apply List.filter_length_le | ].
  split; [ apply merge_sort_Permutation | ].
  split; [ apply (StronglySorted_merge_sort Supabase.newer_first) | ].
  split; [ reflexivity | ].
  split.
  - cbn [Supabase.recentProducts]. rewrite List.length_map, length_take.
    rewrite (Permutation_length (merge_sort_Permutation Supabase.newer_first _)).
    reflexivity.
  - intros Hall p Hin. cbn [Supabase.totalValue].
    pose proof (fold_value_covers (Supabase.products c) 0%Q p Hall Hin) as H.
    rewrite Qplus_0_l in H. exact H.
Qed.

Lemma getDashboardStats_figures_witness :
  exists (st : Supabase.Stats) (newest : list Supabase.Product),
    fst (Eff.run (Supabase.getDashboardStats true SamplePhotos.always)
           {| Supabase.products := SamplePhotos.stock; Supabase.cat_sent := 0 |})
    = {| Supabase.stats_data := Some st; Supabase.stats_error := None |}
    /\ Supabase.totalProducts st = 6%nat
    /\ Supabase.lowStockProducts st = 2%nat
    /\ length (Supabase.recentProducts st) = 5%nat.
Proof.
  destruct (getDashboardStats_figures SamplePhotos.always
              {| Supabase.products := SamplePhotos.stock; Supabase.cat_sent := 0 |}
              eq_refl eq_refl)
    as (st & newest & Hst & _ & Htot & Hlow & _ & _ & _ & _ & Hrec & _).
  exists st, newest. split; [ exact Hst | ].
  split; [ exact Htot | ]. split; [ exact Hlow | exact Hrec ].
Defined.

(** X6.  [getDashboardStats] gives figures or an error, never both and
    never part of the figures: when the first select fails the error is
    returned and the second select is not sent; when the second fails
    the error is returned and the counts already computed are dropped. *)
Theorem getDashboardStats_all_or_nothing :
  forall (carried_out : nat -> bool) (c : Supabase.Catalog),
    let out := Eff.run (Supabase.getDashboardStats true carried_out) c in
    (carried_out (Supabase.cat_sent c) = false ->
       out = ({| Supabase.stats_data := None;
                 Supabase.stats_error := Some "request failed" |},
              {| Supabase.products := Supabase.products c;
                 Supabase.cat_sent := S (Supabase.cat_sent c) |}))
    /\ (carried_out (Supabase.cat_sent c) = true ->
        carried_out (S (Supabase.cat_sent c)) = false ->
        out = ({| Supabase.stats_data := None;
                  Supabase.stats_error := Some "request failed" |},
               {| Supabase.products := Supabase.products c;
                  Supabase.cat_sent := S (S (Supabase.cat_sent c)) |}))
    /\ (Supabase.stats_data (fst out) = None
        <-> Supabase.stats_error (fst out) <> None).
Proof.
  intros carried_out c out. subst out.
  unfold Supabase.getDashboardStats, Supabase.select_products,
    Eff.run, Eff.bind, Eff.ret.
  cbn [negb].
  destruct (carried_out (Supabase.cat_sent c)) eqn:H1;
    cbn [Supabase.cat_sent Supabase.products];
    [ destruct (carried_out (S (Supabase.cat_sent c))) eqn:H2 | ];
    cbn [fst snd Supabase.stats_data Supabase.stats_error];
    (split; [ intros H; first [ discriminate H | reflexivity ] | ]);
    (split; [ intros Ha Hb; first [ discriminate Ha | discriminate Hb | reflexivity ] | ]);
    split; intros H; first [ discriminate H | congruence | reflexivity ].
Qed.

Lemma getDashboardStats_all_or_nothing_witness :
  Eff.run (Supabase.getDashboardStats true SamplePhotos.first_dropped)
    {| Supabase.products := SamplePhotos.stock; Supabase.cat_sent := 0 |}
  = ({| Supabase.stats_data := None;
        Supabase.stats_error := Some "request failed" |},
     {| Supabase.products := SamplePhotos.stock; Supabase.cat_sent := 1 |}).
Proof.
  apply (getDashboardStats_all_or_nothing SamplePhotos.first_dropped
           {| Supabase.products := SamplePhotos.stock; Supabase.cat_sent := 0 |}).
  reflexivity.
Defined.

(* ===================================================================== *)
(** * More on the upload gateway                                          *)
(* ===================================================================== *)

(** X7.  Whatever the endpoint does, [uploadProductPhotoSecure] answers
    with a result (it never throws) in which an error excludes data, and
    it sends at most one request: none for a file the local checks turn
    away, exactly one otherwise, also when the transport fails (there is
    no retry).  The result is free of error exactly when both checks pass
    and the endpoint answers with an ok status and a body that parses;
    the data is then the [data] of that body. *)
Theorem uploadProductPhotoSecure_outcomes :
  forall (NODE_ENV : string)
         (server : UploadClient.Net -> UploadClient.Request -> UploadClient.FetchOutcome)
         (f : UploadClient.File) (productId : option string) (sku : string)
         (isFirst : bool) (net : UploadClient.Net),
    let req := UploadClient.upload_request NODE_ENV f productId sku isFirst in
    let out := Eff.run (UploadClient.uploadProductPhotoSecure NODE_ENV server
                          (Some f) productId sku isFirst) net in
    snd out = (if UploadClient.is_image_type (UploadClient.file_type f)
                  && negb (UploadClient.file_size f >? 10 * 1024 * 1024)
               then net ++ [req] else net)
    /\ (UploadClient.error (fst out) <> None -> UploadClient.data (fst out) = None)
    /\ (UploadClient.error (fst out) = None
        <-> UploadClient.is_image_type (UploadClient.file_type f) = true
            /\ UploadClient.file_size f <= 10 * 1024 * 1024
            /\ exists j, server net req = UploadClient.FetchResponds true (inr j)
                         /\ UploadClient.data (fst out) = UploadClient.json_data j)
    /\ (forall msg,
          UploadClient.is_image_type (UploadClient.file_type f) = true ->
          UploadClient.file_size f <= 10 * 1024 * 1024 ->
          server net req = UploadClient.FetchRejects msg ->
          out = (UploadClient.failure (UploadClient.TransportError msg), net ++ [req])).
Proof.
  intros NODE_ENV server f productId sku isFirst net req out. subst out.
  unfold UploadClient.uploadProductPhotoSecure.
  destruct (UploadClient.is_image_type (UploadClient.file_type f)) eqn:Hty;
    cbn [negb].
  2:{ cbn. split; [ reflexivity | ]. split; [ reflexivity | ].
      split; [ | intros msg H; discriminate H ].
      split; [ intros H; discriminate H | intros [H _]; discriminate H ]. }
  destruct (UploadClient.file_size f >? 10 * 1024 * 1024) eqn:Hsz.
  { cbn. split; [ reflexivity | ]. split; [ reflexivity | ].
    split; [ | intros msg _ H; lia ].
    split; [ intros H; discriminate H | intros (_ & H & _); lia ]. }
  unfold Eff.run, Eff.bind, UploadClient.fetch. fold req.
  destruct (server net req) as [msg | [] [msg | j]] eqn:Hsrv; cbn.
  all: split; [ reflexivity | ].
  all: split; [ first [ reflexivity | intros H; exfalso; apply H; reflexivity ] | ].
  all: split; [ | intros msg' _ _ H; first [ discriminate H | injection H as <-; reflexivity ] ].
  all: split;
    [ intros H; first [ discriminate H
                      | split; [ reflexivity | ]; split; [ lia | ];
                        eexists; split; reflexivity ]
    | intros (_ & _ & j' & H & _); first [ discriminate H | reflexivity ] ].
Qed.

Lemma uploadProductPhotoSecure_outcomes_witness :
  Eff.run (UploadClient.uploadProductPhotoSecure "production" Samples.offline
             (Some Samples.small_jpeg) None "SKU-1" false) []
  = (UploadClient.failure (UploadClient.TransportError "Failed to fetch"),
     [UploadClient.upload_request "production" Samples.small_jpeg None "SKU-1" false]).
Proof.
  apply (uploadProductPhotoSecure_outcomes "production" Samples.offline
           Samples.small_jpeg None "SKU-1" false []).
  - reflexivity.
  - discriminate.
  - reflexivity.
Defined.

(** X8.  [setPrimaryPhotoSecure] and [deleteProductPhotoSecure] check
    nothing locally: each sends exactly one POST to /api/photo-actions,
    carrying the action and the photo id, whatever the answer; the result
    is free of error exactly when the answer has an ok status and a body
    that parses, and an error excludes data. *)
Theorem photo_actions_one_round_trip :
  forall (NODE_ENV : string)
         (server : UploadClient.Net -> UploadClient.Request -> UploadClient.FetchOutcome)
         (photoId : Z) (productId : option string) (net : UploadClient.Net),
    let set_req := UploadClient.setPrimary_request NODE_ENV photoId productId in
    let del_req := UploadClient.delete_request NODE_ENV photoId in
    let set_out := Eff.run (UploadClient.setPrimaryPhotoSecure NODE_ENV server
                              photoId productId) net in
    let del_out := Eff.run (UploadClient.deleteProductPhotoSecure NODE_ENV server
                              photoId) net in
    snd set_out = net ++ [set_req]
    /\ snd del_out = net ++ [del_req]
    /\ UploadClient.req_body set_req = UploadClient.JsonBody "setPrimary" photoId productId
    /\ UploadClient.req_body del_req = UploadClient.JsonBody "delete" photoId None
    /\ (UploadClient.error (fst set_out) = None
        <-> exists j, server net set_req = UploadClient.FetchResponds true (inr j))
    /\ (UploadClient.error (fst del_out) = None
        <-> exists j, server net del_req = UploadClient.FetchResponds true (inr j))
    /\ (UploadClient.error (fst set_out) <> None -> UploadClient.data (fst set_out) = None)
    /\ (UploadClient.error (fst del_out) <> None -> UploadClient.data (fst del_out) = None).
Proof.
  intros NODE_ENV server photoId productId net set_req del_req set_out del_out.
  subst set_out del_out.
  unfold UploadClient.setPrimaryPhotoSecure, UploadClient.deleteProductPhotoSecure,
    Eff.run, Eff.bind, UploadClient.fetch.
  fold set_req. fold del_req.
  destruct (server net set_req) as [m1 | [] [m1 | j1]];
    destruct (server net del_req) as [m2 | [] [m2 | j2]]; cbn.
  all: split; [ reflexivity | ]; split; [ reflexivity | ].
  all: split; [ reflexivity | ]; split; [ reflexivity | ].
  all: split;
    [ split; [ intros H; first [ discriminate H | eexists; reflexivity ]
             | intros [j H]; first [ discriminate H | reflexivity ] ] | ].
  all: split;
    [ split; [ intros H; first [ discriminate H | eexists; reflexivity ]
             | intros [j H]; first [ discriminate H | reflexivity ] ] | ].
  all: split; intros H; first [ reflexivity | exfalso; apply H; reflexivity ].
Qed.

(* ===================================================================== *)
(** * More on the cropper                                                 *)
(* ===================================================================== *)

(** X10.  A press followed by a release without a move in between leaves
    a region of zero size at the pointer: the previous selection is gone,
    the confirm handler refuses with the "no region selected" toast, and
    the preview is not refreshed (the blob shown stays the one from
    before the click). *)
Theorem click_without_drag_clears_selection :
  forall (toBlob : ImageCropper.Rendering -> option ImageCropper.Blob)
         (rect : ImageCropper.DOMRect.t) (e : ImageCropper.MouseEvent.t)
         (s : ImageCropper.State),
    let s' := ImageCropper.handleMouseUp (ImageCropper.handleMouseDown rect e s) in
    ImageCropper.isDragging s' = false
    /\ ImageCropper.Area.width (ImageCropper.cropArea s') = 0%Q
    /\ ImageCropper.Area.height (ImageCropper.cropArea s') = 0%Q
    /\ ImageCropper.handleConfirm toBlob s'
       = (s', [ImageCropper.ToastError ImageCropper.NoRegionSelected])
    /\ ImageCropper.updatePreview toBlob s' = (s', [])
    /\ ImageCropper.previewBlob s' = ImageCropper.previewBlob s.
Proof.
  intros toBlob rect e s s'.
  assert (Hguard : ImageCropper.nothing_to_render s' = true).
  { unfold ImageCropper.nothing_to_render. subst s'. cbn.
    destruct (ImageCropper.imageRef s); reflexivity. }
  split; [ reflexivity | ]. split; [ reflexivity | ]. split; [ reflexivity | ].
  unfold ImageCropper.handleConfirm, ImageCropper.updatePreview,
    ImageCropper.handleConfirm_on, ImageCropper.updatePreview_on.
  rewrite Hguard. repeat split.
Qed.

Section RenderCompatFacts.

Import ImageCropper.
Local Open Scope Q_scope.

Lemma gt_compat a a' b b' : a == a' -> b == b' -> Js.gt a b = Js.gt a' b'.
Proof. intros Ha Hb. unfold Js.gt. rewrite Ha, Hb. reflexivity. Qed.

Lemma to_unsigned_long_compat v v' :
  v == v' -> Js.to_unsigned_long v = Js.to_unsigned_long v'.
Proof.
  intros Hv. unfold Js.to_unsigned_long, Js.trunc, Qceiling.
  rewrite (Qleb_comp 0 0 (Qeq_refl 0) v v' Hv).
  rewrite (Qfloor_comp v v' Hv).
  rewrite (Qfloor_comp (- v) (- v')) by (rewrite Hv; reflexivity).
  reflexivity.
Qed.

Lemma canvas_attribute_compat dflt v v' :
  v == v' -> Js.canvas_attribute dflt v = Js.canvas_attribute dflt v'.
Proof.
  intros Hv. unfold Js.canvas_attribute.
  rewrite (to_unsigned_long_compat v v' Hv). reflexivity.
Qed.

(** Two boxes that are equal as numbers are fitted to canvases of the
    same size. *)
Lemma fit_canvas_compat s aspect W H W' H' :
  W == W' -> H == H' ->
  canvas_size (render_at s (fit aspect W H))
  = canvas_size (render_at s (fit aspect W' H')).
Proof.
  intros HW HH. unfold fit, fit_on. cbn [Js.mul Js.div Js.exact].
  assert (Hdiv : W / H == W' / H') by (rewrite HW, HH; reflexivity).
  rewrite (gt_compat _ _ aspect aspect Hdiv (Qeq_refl aspect)).
  destruct (Js.gt (W' / H') aspect);
    unfold canvas_size, render_at; cbn [canvas_width canvas_height fst snd];
    f_equal; apply canvas_attribute_compat;
    rewrite ?HW, ?HH; reflexivity.
Qed.

End RenderCompatFacts.

(** X11.  With the scale slider at 100% the preview is rendered on a
    canvas of exactly the size the confirm handler renders at (and when
    there is nothing to render, neither renders). *)
Theorem preview_matches_confirm_at_full_scale :
  forall (toBlob : ImageCropper.Rendering -> option ImageCropper.Blob)
         (s : ImageCropper.State),
    (ImageCropper.scale s == 1)%Q ->
    option_map ImageCropper.canvas_size
      (ImageCropper.rendered (snd (ImageCropper.updatePreview toBlob s)))
    = option_map ImageCropper.canvas_size
        (ImageCropper.rendered (snd (ImageCropper.handleConfirm toBlob s))).
Proof.
  intros toBlob s Hscale.
  destruct (ImageCropper.nothing_to_render s) eqn:Hguard.
  - unfold ImageCropper.updatePreview, ImageCropper.handleConfirm,
      ImageCropper.updatePreview_on, ImageCropper.handleConfirm_on.
    rewrite Hguard. reflexivity.
  - rewrite (updatePreview_rendered toBlob s Hguard).
    rewrite (handleConfirm_rendered toBlob s Hguard).
    cbn [option_map]. f_equal.
    apply fit_canvas_compat; rewrite Hscale; ring.
Qed.

Lemma preview_matches_confirm_at_full_scale_witness :
  option_map ImageCropper.canvas_size
    (ImageCropper.rendered
       (snd (ImageCropper.updatePreview SampleCrops.jpeg SampleCrops.loaded)))
  = option_map ImageCropper.canvas_size
      (ImageCropper.rendered
         (snd (ImageCropper.handleConfirm SampleCrops.jpeg SampleCrops.loaded))).
Proof.
  apply (preview_matches_confirm_at_full_scale SampleCrops.jpeg SampleCrops.loaded).
  reflexivity.
Defined.

(** X12.  The confirm handler calls [onConfirm] at most once, and only
    with the blob the encoder delivered for the rendering it just made:
    when there is something to render and the encoder delivers, the
    callback gets that blob; when the encoder hands back null, nothing is
    reported at all (no callback, no toast).  Either way the crop state is
    left as it was and [isProcessing] ends false. *)
Theorem handleConfirm_reports_encoder_result :
  forall (toBlob : ImageCropper.Rendering -> option ImageCropper.Blob)
         (s : ImageCropper.State),
    ImageCropper.nothing_to_render s = false ->
    exists r : ImageCropper.Rendering,
      ImageCropper.renderings (snd (ImageCropper.handleConfirm toBlob s)) = [r]
      /\ ImageCropper.source r = ImageCropper.cropArea s
      /\ ImageCropper.confirmed (snd (ImageCropper.handleConfirm toBlob s))
         = match toBlob r with Some b => [b] | None => [] end
      /\ (toBlob r = None ->
          snd (ImageCropper.handleConfirm toBlob s)
          = [ImageCropper.Render ImageCropper.FreshCanvas r])
      /\ fst (ImageCropper.handleConfirm toBlob s)
         = ImageCropper.setIsProcessing false s.
Proof.
  intros toBlob s Hguard.
  unfold ImageCropper.handleConfirm, ImageCropper.handleConfirm_on.
  rewrite Hguard.
  cbn [ImageCropper.cropArea ImageCropper.outputSize ImageCropper.scale
       ImageCropper.quality ImageCropper.setIsProcessing].
  destruct (Js.gt _ _); eexists;
    (split; [ cbn; destruct (toBlob _); reflexivity | ]);
    (split; [ reflexivity | ]);
    (split; [ cbn; destruct (toBlob _); reflexivity | ]);
    (split; [ intros Hnull; cbn; rewrite Hnull; reflexivity | ]);
    reflexivity.
Qed.

Lemma handleConfirm_reports_encoder_result_witness :
  exists r : ImageCropper.Rendering,
    ImageCropper.renderings
      (snd (ImageCropper.handleConfirm SampleCrops.jpeg SampleCrops.loaded)) = [r]
    /\ ImageCropper.confirmed
         (snd (ImageCropper.handleConfirm SampleCrops.jpeg SampleCrops.loaded))
       = match SampleCrops.jpeg r with Some b => [b] | None => [] end.
Proof.
  destruct (handleConfirm_reports_encoder_result SampleCrops.jpeg
              SampleCrops.loaded eq_refl) as (r & Hr & _ & Hc & _).
  exists r. split; [ exact Hr | exact Hc ].
Defined.

(** X13.  Refreshing the preview twice in a row with nothing changed in
    between renders the same thing and leaves the same state as
    refreshing it once; the second refresh hands the blob the first one
    produced to [URL.revokeObjectURL] (the Blob itself: no object URL was
    made for it, so the call releases nothing). *)
Theorem updatePreview_twice :
  forall (toBlob : ImageCropper.Rendering -> option ImageCropper.Blob)
         (s : ImageCropper.State),
    let once := ImageCropper.updatePreview toBlob s in
    let twice := ImageCropper.updatePreview toBlob (fst once) in
    fst twice = fst once
    /\ ImageCropper.rendered (snd twice) = ImageCropper.rendered (snd once)
    /\ (forall b, ImageCropper.nothing_to_render s = false ->
          ImageCropper.previewBlob (fst once) = Some b ->
          In (ImageCropper.RevokeObjectURL b) (snd twice)).
Proof.
  intros toBlob s once twice. subst twice once.
  unfold ImageCropper.updatePreview, ImageCropper.updatePreview_on.
  destruct (ImageCropper.nothing_to_render s) eqn:Hguard.
  - cbn [fst snd]. rewrite Hguard. cbn.
    split; [ reflexivity | ]. split; [ reflexivity | ].
    intros b H. discriminate H.
  - destruct (Js.gt _ _) eqn:Hgt; cbn [fst snd];
      change (ImageCropper.nothing_to_render (ImageCropper.setPreviewBlob _ s))
        with (ImageCropper.nothing_to_render s);
      rewrite Hguard;
      cbn [ImageCropper.cropArea ImageCropper.outputSize ImageCropper.quality
           ImageCropper.previewBlob ImageCropper.setPreviewBlob];
      rewrite Hgt; cbn [fst snd ImageCropper.rendered];
      (split; [ reflexivity | ]); (split; [ reflexivity | ]);
      intros b _ Hb; rewrite Hb; right; left; reflexivity.
Qed.

(** X14.  Once an image of positive size has loaded, the default region
    is a valid selection: it has positive width and height, lies inside
    the image, and the renderers do not refuse it, so the image can be
    confirmed without touching the canvas. *)
Theorem onload_region_is_a_valid_selection :
  forall (img : ImageCropper.Size.t) (s : ImageCropper.State),
    (0 < ImageCropper.Size.width img)%Z ->
    (0 < ImageCropper.Size.height img)%Z ->
    let s' := ImageCropper.onload img s in
    let a := ImageCropper.cropArea s' in
    (0 < ImageCropper.Area.width a /\ 0 < ImageCropper.Area.height a
     /\ 0 <= ImageCropper.Area.x a /\ 0 <= ImageCropper.Area.y a
     /\ ImageCropper.Area.x a + ImageCropper.Area.width a
        <= inject_Z (ImageCropper.Size.width img)
     /\ ImageCropper.Area.y a + ImageCropper.Area.height a
        <= inject_Z (ImageCropper.Size.height img))%Q
    /\ ImageCropper.imageSize s' = img
    /\ ImageCropper.canvas s' = img
    /\ ImageCropper.nothing_to_render s' = false.
Proof.
  intros img s Hw Hh s' a.
  assert (Hqw : (0 < inject_Z (ImageCropper.Size.width img))%Q)
    by (change 0%Q with (inject_Z 0); rewrite <- Zlt_Qlt; exact Hw).
  assert (Hqh : (0 < inject_Z (ImageCropper.Size.height img))%Q)
    by (change 0%Q with (inject_Z 0); rewrite <- Zlt_Qlt; exact Hh).
  assert (Hpos : (0 < ImageCropper.Area.width a /\ 0 < ImageCropper.Area.height a)%Q).
  { subst a s'. rewrite onload_cropArea.
    cbn [ImageCropper.Area.width ImageCropper.Area.height].
    unfold ImageCropper.margin. split; lra. }
  destruct Hpos as [Hpw Hph].
  destruct (onload_region_inside img s ltac:(lia) ltac:(lia))
    as (Hx & Hy & Hxw & Hyh).
  split; [ repeat split; assumption | ].
  split; [ subst s'; destruct img; reflexivity | ].
  split; [ subst s'; destruct img; reflexivity | ].
  apply (something_to_render s' img); [ reflexivity | exact Hpw | exact Hph ].
Qed.

Lemma onload_region_is_a_valid_selection_witness :
  ImageCropper.nothing_to_render SampleCrops.loaded = false.
Proof.
  apply (onload_region_is_a_valid_selection SampleCrops.frame ImageCropper.initial).
  - reflexivity.
  - reflexivity.
Defined.

(* ===================================================================== *)
(** * More on [CameraCapture]                                             *)
(* ===================================================================== *)

Section CaptureFlowFacts.

Import Camera CameraCapture.

Lemma held_live_none s log : stream s = None -> held_live s log -> live log = [].
Proof.
  intros Hnone Hlive. apply nil_of_no_member. intros t Hin.
  destruct (Hlive t Hin) as (held & Hheld & _). congruence.
Qed.

Lemma held_live_only s held log :
  stream s = Some held -> held_live s log -> only_live held log.
Proof.
  intros Hheld Hlive t Hin.
  destruct (Hlive t Hin) as (held' & Hheld' & Ht). congruence.
Qed.

Lemma stopCamera_releases s log :
  held_live s log ->
  stream (fst (Eff.run (stopCamera s) log)) = None
  /\ live (snd (Eff.run (stopCamera s) log)) = []
  /\ currentStep (fst (Eff.run (stopCamera s) log)) = currentStep s
  /\ capturedImage (fst (Eff.run (stopCamera s) log)) = capturedImage s.
Proof.
  intros Hlive. unfold stopCamera.
  destruct (stream s) as [held |] eqn:Hheld.
  - unfold Eff.run, Eff.bind, stop_tracks, Eff.ret. cbn.
    split; [ reflexivity | ]. split; [ | split; reflexivity ].
    apply live_after_stop_all. apply (held_live_only s held log Hheld Hlive).
  - cbn. split; [ exact Hheld | ]. split; [ | split; reflexivity ].
    apply (held_live_none s log Hheld Hlive).
Qed.

Lemma run_on_camera {A} (m : Eff.M Log A) (w : World) :
  Eff.run (on_camera m) w
  = (fst (Eff.run m (cam w)),
     {| cam := snd (Eff.run m (cam w)); out := out w |}).
Proof. unfold on_camera, Eff.run. destruct (m (cam w)); reflexivity. Qed.

End CaptureFlowFacts.

Section AsyncCameraFacts.

Import Camera CameraCapture.

(** The atomic [startCamera] is the call followed at once by the
    continuation, with the device's answer to that request. *)
Lemma startCamera_uninterrupted mediaDevices s log :
  let asked := log ++ match stream s with
                      | Some held => map TrackStop (tracks held)
                      | None => []
                      end in
  Eff.run (startCamera mediaDevices s) log
  = Eff.run (s1 <- startCamera_call s ;;
             startCamera_settle (mediaDevices asked (constraints s)) s1) log.
Proof.
  unfold startCamera, startCamera_call, startCamera_settle, getUserMedia,
    Eff.run, Eff.bind, stop_tracks, emit, Eff.ret.
  destruct (stream s) as [held |]; cbn [fst snd]; rewrite ?app_nil_r;
    match goal with
    | |- context [mediaDevices ?l ?c] => destruct (mediaDevices l c) as [err | new]
    end;
    cbn; rewrite <- ?app_assoc; reflexivity.
Qed.

(** At the call, [startCamera] stops every track of the stream held in
    the render it belongs to, once each, and only then issues the
    request; when that stream was the only one capturing, nothing is
    capturing as the request goes out.  A facing switch leads to such a
    call: the effect re-runs with the stream still held and the other
    facing mode. *)
Lemma startCamera_call_stops_held_stream s held log :
  stream s = Some held ->
  NoDup (tracks held) ->
  only_live held log ->
  let stops := map TrackStop (tracks held) in
  snd (Eff.run (startCamera_call s) log)
  = log ++ stops ++ [GetUserMedia (constraints s)]
  /\ (forall t, In t (tracks held) ->
        stop_count t (stops ++ [GetUserMedia (constraints s)]) = 1%nat)
  /\ live (log ++ stops) = []
  /\ (currentStep s = camera -> capturedImage s = None ->
      Eff.run (open_effect_call true (switchCamera s)) log
      = Eff.run (startCamera_call (switchCamera s)) log
      /\ stream (switchCamera s) = Some held
      /\ facing (constraints (switchCamera s)) <> facing (constraints s)).
Proof.
  intros Hheld Hnd Honly stops.
  split.
  { unfold startCamera_call, Eff.run, Eff.bind, stop_tracks, emit.
    rewrite Hheld. cbn. rewrite <- app_assoc. reflexivity. }
  split.
  { intros t Hin. rewrite stop_count_app. subst stops.
    rewrite (stop_count_once t _ Hnd Hin). reflexivity. }
  split; [ apply (live_after_stop_all held log Honly) | ].
  intros Hstep Himg. split.
  { unfold open_effect_call, switchCamera. cbn. rewrite Hstep, Himg. reflexivity. }
  split; [ exact Hheld | ].
  unfold constraints, switchCamera. cbn.
  destruct (facingMode s); discriminate.
Qed.


End AsyncCameraFacts.






(** X17.  Closing [CameraCapture] in any state in which only the held
    stream is capturing stops every track of that stream, forgets the
    stream and the captured image (releasing the image's URL), returns to
    the camera step and calls [onClose] once, last; nothing is capturing
    afterwards. *)
Theorem capture_handleClose_releases_everything :
  forall (s : CameraCapture.State) (w : CameraCapture.World),
    CameraCapture.held_live s (CameraCapture.cam w) ->
    let out := Eff.run (CameraCapture.handleClose s) w in
    CameraCapture.stream (fst out) = None
    /\ CameraCapture.capturedImage (fst out) = None
    /\ CameraCapture.currentStep (fst out) = CameraCapture.camera
    /\ Camera.live (CameraCapture.cam (snd out)) = []
    /\ CameraCapture.cam (snd out)
       = CameraCapture.cam w
         ++ match CameraCapture.stream s with
            | Some held => map Camera.TrackStop (Camera.tracks held)
            | None => []
            end
    /\ CameraCapture.out (snd out)
       = CameraCapture.out w
         ++ match CameraCapture.capturedImage s with
            | Some b => [CameraCapture.RevokeObjectURL b]
            | None => []
            end
         ++ [CameraCapture.OnClose].
Proof.
  intros s w Hlive out.
  destruct (stopCamera_releases s (CameraCapture.cam w) Hlive) as (_ & Hq & _).
  subst out. unfold CameraCapture.handleClose.
  rewrite run_bind, run_on_camera. cbn [fst snd]. rewrite run_bind.
  unfold CameraCapture.stopCamera in *.
  destruct (CameraCapture.stream s) as [held |] eqn:Hs;
    unfold Eff.run, Eff.bind, Eff.ret, Camera.stop_tracks in *;
    cbn [fst snd CameraCapture.capturedImage CameraCapture.setStream] in *;
    destruct (CameraCapture.capturedImage s) as [b |] eqn:Hc;
    cbn in *; rewrite <- ?app_assoc, ?app_nil_r;
    repeat split; try reflexivity; assumption.
Qed.

Lemma capture_handleClose_releases_everything_witness :
  Camera.live
    (CameraCapture.cam
       (snd (Eff.run (CameraCapture.handleClose (fst SampleCameras.capture_opened))
               {| CameraCapture.cam := snd SampleCameras.capture_opened;
                  CameraCapture.out := [] |}))) = [].
Proof.
  apply (capture_handleClose_releases_everything
           (fst SampleCameras.capture_opened)
           {| CameraCapture.cam := snd SampleCameras.capture_opened;
              CameraCapture.out := [] |}).
  intros t Hin. exists SampleCameras.back_stream. split; [ reflexivity | exact Hin ].
Defined.

(* ===================================================================== *)
(** * More on [CameraModal]                                               *)
(* ===================================================================== *)

Section ModalFlowFacts.

Import Camera CameraModal.

(** What a run of the modal's [startCamera] appends to the history: the
    request, the grant if there is one, a toast if it fails. *)
Lemma modal_startCamera_log supported mediaDevices play s log :
  exists added,
    snd (Eff.run (startCamera supported mediaDevices play s) log) = log ++ added
    /\ forall t, stop_count t added = 0%nat.
Proof.
  unfold startCamera, fail, Eff.run, Eff.bind, Eff.ret, getUserMedia, emit.
  destruct supported; cbn [negb].
  - destruct (mediaDevices log constraints) as [name | stream].
    + eexists. split; [ cbn; rewrite <- app_assoc; reflexivity | reflexivity ].
    + cbn [videoRef set_streamRef setError setIsLoading].
      destruct (videoRef s) as [v |].
      * destruct (play stream) as [name |].
        -- eexists. split; [ cbn; rewrite <- app_assoc; reflexivity | reflexivity ].
        -- eexists. split; [ reflexivity | reflexivity ].
      * eexists. split; [ reflexivity | reflexivity ].
  - eexists. split; [ reflexivity | reflexivity ].
Qed.

Lemma modal_stopCamera_log s log :
  snd (Eff.run (stopCamera s) log)
  = log ++ match streamRef s with
           | Some held => map TrackStop (tracks held)
           | None => []
           end
  /\ streamRef (fst (Eff.run (stopCamera s) log)) = None.
Proof.
  unfold stopCamera, Eff.run, Eff.bind, Eff.ret, stop_tracks.
  destruct (streamRef s) as [held |] eqn:Hs; cbn.
  - split; reflexivity.
  - rewrite app_nil_r. split; [ reflexivity | exact Hs ].
Qed.

Lemma modal_run_tell o w :
  Eff.run (tell o) w
  = (tt, {| cam := cam w; net := net w; out := out w ++ [o] |}).
Proof. reflexivity. Qed.

Lemma modal_run_on_net {A} (m : Eff.M UploadClient.Net A) w :
  Eff.run (on_net m) w
  = (fst (Eff.run m (net w)),
     {| cam := cam w; net := snd (Eff.run m (net w)); out := out w |}).
Proof. unfold on_net, Eff.run. destruct (m (net w)); reflexivity. Qed.

Lemma modal_run_on_camera {A} (m : Eff.M Log A) w :
  Eff.run (on_camera m) w
  = (fst (Eff.run m (cam w)),
     {| cam := snd (Eff.run m (cam w)); net := net w; out := out w |}).
Proof. unfold on_camera, Eff.run. destruct (m (cam w)); reflexivity. Qed.

(** The run of the gateway on a file, case by case. *)
Lemma upload_run NODE_ENV server f productId sku isFirst n :
  Eff.run (UploadClient.uploadProductPhotoSecure NODE_ENV server (Some f)
             productId sku isFirst) n
  = if negb (UploadClient.is_image_type (UploadClient.file_type f)) then
      (UploadClient.failure UploadClient.InvalidFormat, n)
    else if UploadClient.file_size f >? 10 * 1024 * 1024 then
      (UploadClient.failure UploadClient.TooLarge, n)
    else
      (match server n (UploadClient.upload_request NODE_ENV f productId sku isFirst) with
       | UploadClient.FetchRejects msg =>
           UploadClient.failure (UploadClient.TransportError msg)
       | UploadClient.FetchResponds _ (inl msg) =>
           UploadClient.failure (UploadClient.TransportError msg)
       | UploadClient.FetchResponds false (inr result) =>
           UploadClient.failure
             {| UploadClient.message :=
                  UploadClient.or_default (UploadClient.json_error result)
                    "Errore upload";
                UploadClient.details := UploadClient.json_details result |}
       | UploadClient.FetchResponds true (inr result) =>
           {| UploadClient.data := UploadClient.json_data result;
              UploadClient.error := None |}
       end,
       n ++ [UploadClient.upload_request NODE_ENV f productId sku isFirst]).
Proof.
  unfold UploadClient.uploadProductPhotoSecure.
  destruct (negb (UploadClient.is_image_type (UploadClient.file_type f)));
    [ reflexivity | ].
  destruct (UploadClient.file_size f >? 10 * 1024 * 1024); [ reflexivity | ].
  unfold Eff.run, Eff.bind, UploadClient.fetch.
  destruct (server n _) as [msg | [] [msg | j]]; reflexivity.
Qed.

End ModalFlowFacts.

(** X18.  [CameraModal.startCamera] never calls [stop()]: a track that is
    capturing when it starts is still capturing when it returns.  When it
    runs while a stream is held and the device grants another one, the
    reference is overwritten, so that a track of the old stream that the
    new one does not share keeps capturing also after [stopCamera], which
    leaves no reference behind to stop it with. *)
Theorem modal_restart_leaks_held_stream :
  forall (supported : bool)
         (mediaDevices : Camera.Log -> Camera.Constraints -> Camera.Answer)
         (play : Camera.MediaStream -> option string)
         (s : CameraModal.State) (log : Camera.Log)
         (held : Camera.MediaStream) (t : nat),
    CameraModal.streamRef s = Some held ->
    In t (Camera.tracks held) ->
    In t (Camera.live log) ->
    let started := Eff.run (CameraModal.startCamera supported mediaDevices play s) log in
    let stopped := Eff.run (CameraModal.stopCamera (fst started)) (snd started) in
    (forall t', Camera.stop_count t' (snd started) = Camera.stop_count t' log)
    /\ In t (Camera.live (snd started))
    /\ (supported = true ->
        forall new, mediaDevices log CameraModal.constraints = inr new ->
          CameraModal.streamRef (fst started) = Some new)
    /\ (forall new, CameraModal.streamRef (fst started) = Some new ->
          ~ In t (Camera.tracks new) ->
          In t (Camera.live (snd stopped))
          /\ CameraModal.streamRef (fst stopped) = None).
Proof.
  intros supported mediaDevices play s log held t Hheld Hin Hlive started stopped.
  destruct (modal_startCamera_log supported mediaDevices play s log)
    as (added & Hlog & Hnone).
  fold started in Hlog.
  assert (Hstill : In t (Camera.live (snd started))).
  { rewrite Hlog, live_app. apply live_from_keeps; [ apply Hnone | exact Hlive ]. }
  split.
  { intros t'. rewrite Hlog, stop_count_app, Hnone. lia. }
  split; [ exact Hstill | ].
  split.
  { intros -> new Hgrant. subst started.
    unfold CameraModal.startCamera, Eff.run, Eff.bind, Camera.getUserMedia.
    cbn [negb]. rewrite Hgrant.
    cbn [CameraModal.videoRef CameraModal.set_streamRef CameraModal.setError
         CameraModal.setIsLoading].
    destruct (CameraModal.videoRef s) as [v |]; [ | reflexivity ].
    destruct (play new) as [name |]; reflexivity. }
  intros new Hnew Hnot.
  destruct (modal_stopCamera_log (fst started) (snd started)) as [Hstop Hnoref].
  fold stopped in Hstop, Hnoref.
  split; [ | exact Hnoref ].
  rewrite Hstop, Hnew, live_app.
  apply live_from_keeps; [ apply stop_count_absent; exact Hnot | exact Hstill ].
Qed.

Lemma modal_restart_leaks_held_stream_witness :
  In 0%nat (Camera.live (snd SampleCameras.modal_retried))
  /\ In 0%nat
       (Camera.live
          (snd (Eff.run (CameraModal.stopCamera (fst SampleCameras.modal_retried))
                  (snd SampleCameras.modal_retried)))).
Proof.
  destruct (modal_restart_leaks_held_stream true SampleCameras.fresh_devices
              SampleCameras.plays
              (fst SampleCameras.modal_play_rejected)
              (snd SampleCameras.modal_play_rejected)
              {| Camera.stream_id := 0; Camera.tracks := [0%nat] |} 0%nat
              eq_refl (or_introl eq_refl) (or_introl eq_refl))
    as (_ & Hstill & _ & Hleak).
  split; [ exact Hstill | ].
  apply (Hleak {| Camera.stream_id := 3; Camera.tracks := [3%nat] |} eq_refl).
  intros [H | []]. discriminate H.
Defined.

(** X19.  [CameraModal.handleCropConfirm] sends the cropped blob as a file
    named [<sku>_<timestamp>.jpg] of type image/jpeg, so the type check of
    the gateway cannot turn it away: no request goes out when the blob is
    over 10 MiB, exactly one otherwise.  The photo counts as saved only
    when the endpoint answers ok with a body that carries data; then the
    parent is told (if it listens), the modal returns to the camera step
    without a blob and asks to be closed a second later.  In every other
    case (also an ok answer without data) the modal stays as it was, blob
    included, and shows one error toast.  The camera is not touched. *)
Theorem modal_handleCropConfirm_outcomes :
  forall (NODE_ENV : string)
         (server : UploadClient.Net -> UploadClient.Request -> UploadClient.FetchOutcome)
         (productId : option string) (productSku : string) (onPhotoSaved : bool)
         (timestamp : Z) (editedBlob : ImageCropper.Blob)
         (s : CameraModal.State) (w : CameraModal.World),
    let file := CameraModal.photo_file productSku timestamp editedBlob in
    let request := UploadClient.upload_request NODE_ENV file productId productSku false in
    let saved := fun d =>
      ImageCropper.blob_size editedBlob <= 10 * 1024 * 1024
      /\ exists body, server (CameraModal.net w) request
                      = UploadClient.FetchResponds true (inr body)
                      /\ UploadClient.json_data body = Some d in
    let o := Eff.run (CameraModal.handleCropConfirm NODE_ENV server productId
                        productSku onPhotoSaved timestamp editedBlob s) w in
    UploadClient.file_name file
    = (productSku ++ "_" ++ Js.integer_toString timestamp ++ ".jpg")%string
    /\ CameraModal.cam (snd o) = CameraModal.cam w
    /\ CameraModal.net (snd o)
       = (if ImageCropper.blob_size editedBlob >? 10 * 1024 * 1024
          then CameraModal.net w else CameraModal.net w ++ [request])
    /\ ((exists d, saved d
           /\ fst o = CameraModal.setCurrentStep CameraModal.camera
                        (CameraModal.setCapturedBlob None s)
           /\ CameraModal.out (snd o)
              = CameraModal.out w
                ++ [ CameraModal.ToastLoading "Salvando foto...";
                     CameraModal.ToastSuccess "Foto salvata!" ]
                ++ (if onPhotoSaved then [CameraModal.OnPhotoSaved d] else [])
                ++ [ CameraModal.OnCloseAfter 1000 ])
        \/ ((forall d, ~ saved d)
            /\ fst o = s
            /\ CameraModal.out (snd o)
               = CameraModal.out w
                 ++ [ CameraModal.ToastLoading "Salvando foto...";
                      CameraModal.ToastError "Errore nel salvataggio della foto" ])).
Proof.
  intros NODE_ENV server productId productSku onPhotoSaved timestamp editedBlob
    s w file request saved o.
  split; [ reflexivity | ].
  subst o. unfold CameraModal.handleCropConfirm. fold file.
  rewrite run_bind, modal_run_tell. cbn [fst snd].
  rewrite run_bind, modal_run_on_net. cbn [fst snd CameraModal.net].
  rewrite upload_run. fold request.
  change (UploadClient.is_image_type (UploadClient.file_type file)) with true.
  cbn [negb].
  change (UploadClient.file_size file) with (ImageCropper.blob_size editedBlob).
  assert (Hfail : forall r n,
            (forall d, ~ saved d) ->
            (UploadClient.data r = None \/ UploadClient.error r <> None) ->
            let o := Eff.run
                       (match UploadClient.data r, UploadClient.error r with
                        | Some d, None =>
                            _ <- CameraModal.tell (CameraModal.ToastSuccess "Foto salvata!") ;;
                            _ <- (if onPhotoSaved
                                  then CameraModal.tell (CameraModal.OnPhotoSaved d)
                                  else Eff.ret tt) ;;
                            _ <- CameraModal.tell (CameraModal.OnCloseAfter 1000) ;;
                            Eff.ret (CameraModal.setCurrentStep CameraModal.camera
                                       (CameraModal.setCapturedBlob None s))
                        | _, _ =>
                            _ <- CameraModal.tell
                                   (CameraModal.ToastError "Errore nel salvataggio della foto") ;;
                            Eff.ret s
                        end)
                       {| CameraModal.cam := CameraModal.cam w;
                          CameraModal.net := n;
                          CameraModal.out :=
                            CameraModal.out w ++ [CameraModal.ToastLoading "Salvando foto..."] |} in
            CameraModal.cam (snd o) = CameraModal.cam w
            /\ CameraModal.net (snd o) = n
            /\ ((exists d, saved d
                   /\ fst o = CameraModal.setCurrentStep CameraModal.camera
                                (CameraModal.setCapturedBlob None s)
                   /\ CameraModal.out (snd o)
                      = CameraModal.out w
                        ++ [ CameraModal.ToastLoading "Salvando foto...";
                             CameraModal.ToastSuccess "Foto salvata!" ]
                        ++ (if onPhotoSaved then [CameraModal.OnPhotoSaved d] else [])
                        ++ [ CameraModal.OnCloseAfter 1000 ])
                \/ ((forall d, ~ saved d)
                    /\ fst o = s
                    /\ CameraModal.out (snd o)
                       = CameraModal.out w
                         ++ [ CameraModal.ToastLoading "Salvando foto...";
                              CameraModal.ToastError "Errore nel salvataggio della foto" ]))).
  { intros r n Hnot Hr o.
    assert (Ho : o = (s, {| CameraModal.cam := CameraModal.cam w;
                            CameraModal.net := n;
                            CameraModal.out :=
                              (CameraModal.out w ++ [CameraModal.ToastLoading "Salvando foto..."])
                              ++ [CameraModal.ToastError "Errore nel salvataggio della foto"] |})).
    { subst o. destruct (UploadClient.data r) as [d |], (UploadClient.error r) as [e |];
        try reflexivity.
      destruct Hr as [Hr | Hr]; [ discriminate Hr | exfalso; apply Hr; reflexivity ]. }
    rewrite Ho. cbn [fst snd CameraModal.cam CameraModal.net CameraModal.out].
    split; [ reflexivity | ]. split; [ reflexivity | ].
    right. split; [ exact Hnot | ]. split; [ reflexivity | ].
    rewrite <- app_assoc. reflexivity. }
  destruct (ImageCropper.blob_size editedBlob >? 10 * 1024 * 1024) eqn:Hsize.
  - (* too large: turned away locally *)
    cbn [fst snd].
    apply (Hfail (UploadClient.failure UploadClient.TooLarge)).
    + intros d [Hle _]. lia.
    + left. reflexivity.
  - assert (Hle : ImageCropper.blob_size editedBlob <= 10 * 1024 * 1024) by lia.
    cbn [fst snd].
    destruct (server (CameraModal.net w) request) as [msg | ok [msg | body]] eqn:Hanswer.
    + apply Hfail; [ | left; reflexivity ].
      intros d (_ & body & Hb & _). discriminate Hb.
    + apply Hfail; [ | left; destruct ok; reflexivity ].
      intros d (_ & body & Hb & _). discriminate Hb.
    + destruct ok.
      * destruct (UploadClient.json_data body) as [d |] eqn:Hdata.
        -- cbn [UploadClient.data UploadClient.error].
           rewrite run_bind, modal_run_tell. cbn [fst snd].
           rewrite run_bind.
           split; [ destruct onPhotoSaved; reflexivity | ].
           split; [ destruct onPhotoSaved; reflexivity | ].
           left. exists d. split.
           ++ split; [ exact Hle | ]. exists body.
              split; [ reflexivity | exact Hdata ].
           ++ split; [ destruct onPhotoSaved; reflexivity | ].
              destruct onPhotoSaved; cbn; rewrite <- !app_assoc; reflexivity.
        -- apply Hfail; [ | left; reflexivity ].
           intros d (_ & body' & Hb & Hd). injection Hb as <-. congruence.
      * apply Hfail; [ | left; reflexivity ].
        intros d (_ & body' & Hb & _). discriminate Hb.
Qed.

(** X20.  Closing the modal does not cancel a snapshot that is being
    encoded.  When the [toBlob] callback arrives after [handleClose], the
    modal, already told to close, ends in the editing step holding the
    snapshot; when it arrives before, the modal ends in the camera step
    holding nothing.  Either way the same calls reach the camera, and no
    stream reference is left. *)
Theorem modal_close_does_not_cancel_snapshot :
  forall (s : CameraModal.State) (w : CameraModal.World)
         (v : option Camera.MediaStream) (b : ImageCropper.Blob),
    CameraModal.isActive s = true ->
    CameraModal.videoRef s = Some v ->
    CameraModal.capturing s = false ->
    let shot := Eff.run (CameraModal.capturePhoto false s) w in
    let closed := Eff.run (CameraModal.handleClose (fst shot)) (snd shot) in
    let late := Eff.run (CameraModal.toBlob_callback (Some b) (fst closed)) (snd closed) in
    let encoded := Eff.run (CameraModal.toBlob_callback (Some b) (fst shot)) (snd shot) in
    let closed_after := Eff.run (CameraModal.handleClose (fst encoded)) (snd encoded) in
    CameraModal.capturing (fst shot) = true
    /\ CameraModal.out (snd late) = CameraModal.out w ++ [CameraModal.ToBlob; CameraModal.OnClose]
    /\ CameraModal.currentStep (fst late) = CameraModal.editing
    /\ CameraModal.capturedBlob (fst late) = Some b
    /\ CameraModal.currentStep (fst closed_after) = CameraModal.camera
    /\ CameraModal.capturedBlob (fst closed_after) = None
    /\ CameraModal.cam (snd late) = CameraModal.cam (snd closed_after)
    /\ CameraModal.streamRef (fst late) = None
    /\ CameraModal.streamRef (fst closed_after) = None
    /\ CameraModal.isActive (fst late) = false
    /\ CameraModal.capturing (fst late) = false.
Proof.
  intros s w v b Hactive Hvideo Hcapt shot closed late encoded closed_after.
  subst closed_after encoded late closed shot.
  destruct s as [l e a c st bl sr vr]. destruct w as [cm n o].
  cbn in Hactive, Hvideo, Hcapt. subst a vr c.
  unfold CameraModal.capturePhoto, CameraModal.handleClose,
    CameraModal.toBlob_callback, CameraModal.stopCamera,
    CameraModal.on_camera, CameraModal.tell, Camera.stop_tracks,
    Eff.run, Eff.bind, Eff.ret.
  destruct sr as [held |]; cbn; rewrite <- ?app_assoc, ?app_nil_r;
    repeat split; reflexivity.
Qed.

Lemma modal_close_does_not_cancel_snapshot_witness :
  let s := fst SampleCameras.modal_streaming in
  let w := {| CameraModal.cam := snd SampleCameras.modal_streaming;
              CameraModal.net := []; CameraModal.out := [] |} in
  let shot := Eff.run (CameraModal.capturePhoto false s) w in
  let closed := Eff.run (CameraModal.handleClose (fst shot)) (snd shot) in
  let late := Eff.run (CameraModal.toBlob_callback (Some SampleCameras.raw) (fst closed))
                (snd closed) in
  CameraModal.currentStep (fst late) = CameraModal.editing
  /\ CameraModal.capturedBlob (fst late) = Some SampleCameras.raw.
Proof.
  destruct (modal_close_does_not_cancel_snapshot
              (fst SampleCameras.modal_streaming)
              {| CameraModal.cam := snd SampleCameras.modal_streaming;
                 CameraModal.net := []; CameraModal.out := [] |}
              (Some SampleCameras.back_stream) SampleCameras.raw
              eq_refl eq_refl eq_refl)
    as (_ & _ & Hstep & Hblob & _).
  split; [ exact Hstep | exact Hblob ].
Defined.

(* ===================================================================== *)
(** * Properties of [PhotoManagerSecure]                                  *)
(* ===================================================================== *)

Section GatewayMessageFacts.

Import UploadClient.

Lemma or_default_nonempty o dflt :
  dflt <> EmptyString -> or_default o dflt <> EmptyString.
Proof.
  intros Hd. destruct o as [[| c r] |]; cbn; try exact Hd. discriminate.
Qed.

Lemma thrown_message_of_nonempty e :
  message e <> EmptyString -> PhotoManagerSecure.thrown_message e = message e.
Proof.
  unfold PhotoManagerSecure.thrown_message.
  destruct (message e); [ intros H; exfalso; apply H; reflexivity | reflexivity ].
Qed.

Lemma upload_error_nonempty NODE_ENV server file productId sku isFirst n e :
  error (fst (Eff.run (uploadProductPhotoSecure NODE_ENV server file productId
                         sku isFirst) n)) = Some e ->
  message e <> EmptyString.
Proof.
  destruct file as [f |]; [ | intros H; injection H as <-; discriminate ].
  rewrite upload_run.
  destruct (negb (is_image_type (file_type f)));
    [ intros H; injection H as <-; discriminate | ].
  destruct (file_size f >? 10 * 1024 * 1024);
    [ intros H; injection H as <-; discriminate | ].
  cbn [fst].
  destruct (server n _) as [msg | [] [msg | j]]; cbn; intros H;
    try discriminate H; injection H as <-; cbn;
    try discriminate; apply or_default_nonempty; discriminate.
Qed.

Lemma setPrimary_run NODE_ENV server photoId productId n :
  snd (Eff.run (setPrimaryPhotoSecure NODE_ENV server photoId productId) n)
  = n ++ [setPrimary_request NODE_ENV photoId productId].
Proof.
  unfold setPrimaryPhotoSecure, Eff.run, Eff.bind, fetch.
  destruct (server n _) as [msg | [] [msg | j]]; reflexivity.
Qed.

Lemma delete_run NODE_ENV server photoId n :
  snd (Eff.run (deleteProductPhotoSecure NODE_ENV server photoId) n)
  = n ++ [delete_request NODE_ENV photoId].
Proof.
  unfold deleteProductPhotoSecure, Eff.run, Eff.bind, fetch.
  destruct (server n _) as [msg | [] [msg | j]]; reflexivity.
Qed.

End GatewayMessageFacts.

(** X21.  Every error the gateway hands back carries a non-empty message,
    also when the endpoint sends an empty [error] field (the default text
    takes its place).  So where the photo manager builds an exception
    from [result.error.message || result.error], the message is always
    the gateway's text, never the rendering of the error object. *)
Theorem gateway_errors_carry_a_message :
  forall (NODE_ENV : string)
         (server : UploadClient.Net -> UploadClient.Request -> UploadClient.FetchOutcome)
         (file : option UploadClient.File) (photoId : Z)
         (productId : option string) (sku : string) (isFirst : bool)
         (n : UploadClient.Net) (e : UploadClient.Error),
    UploadClient.error
      (fst (Eff.run (UploadClient.uploadProductPhotoSecure NODE_ENV server file
                       productId sku isFirst) n)) = Some e
    \/ UploadClient.error
         (fst (Eff.run (UploadClient.setPrimaryPhotoSecure NODE_ENV server photoId
                          productId) n)) = Some e
    \/ UploadClient.error
         (fst (Eff.run (UploadClient.deleteProductPhotoSecure NODE_ENV server
                          photoId) n)) = Some e ->
    UploadClient.message e <> EmptyString
    /\ PhotoManagerSecure.thrown_message e = UploadClient.message e.
Proof.
  intros NODE_ENV server file photoId productId sku isFirst n e Hfrom.
  assert (Hne : UploadClient.message e <> EmptyString).
  { destruct Hfrom as [Hup | [Hset | Hdel]].
    - apply (upload_error_nonempty _ _ _ _ _ _ _ _ Hup).
    - revert Hset.
      unfold UploadClient.setPrimaryPhotoSecure, Eff.run, Eff.bind, UploadClient.fetch.
      destruct (server n _) as [msg | [] [msg | j]]; cbn; intros H;
        try discriminate H; injection H as <-; cbn;
        try discriminate; apply or_default_nonempty; discriminate.
    - revert Hdel.
      unfold UploadClient.deleteProductPhotoSecure, Eff.run, Eff.bind, UploadClient.fetch.
      destruct (server n _) as [msg | [] [msg | j]]; cbn; intros H;
        try discriminate H; injection H as <-; cbn;
        try discriminate; apply or_default_nonempty; discriminate. }
  split; [ exact Hne | apply thrown_message_of_nonempty; exact Hne ].
Qed.

Lemma gateway_errors_carry_a_message_witness :
  PhotoManagerSecure.thrown_message (UploadClient.TransportError "Failed to fetch")
  = "Errore di rete".
Proof.
  apply (gateway_errors_carry_a_message "production" Samples.offline
           (Some Samples.small_jpeg) 1 None "SKU-1" false []
           (UploadClient.TransportError "Failed to fetch")).
  left. reflexivity.
Defined.

Section PhotoManagerFacts.

Import UploadClient PhotoManagerSecure.

Variable NODE_ENV : string.
Variable server : Net -> Request -> FetchOutcome.
Variable configured : bool.
Variable carried_out : nat -> bool.
Variable table : Net -> list PhotoDescriptor.
Variable productSku : string.
Variable onPhotosChange : bool.

Lemma pm_run_tell o w :
  Eff.run (tell o) w
  = (tt, {| net := net w; db_sent := db_sent w; out := out w ++ [o] |}).
Proof. reflexivity. Qed.

Lemma pm_run_on_net {A} (m : Eff.M Net A) w :
  Eff.run (on_net m) w
  = (fst (Eff.run m (net w)),
     {| net := snd (Eff.run m (net w)); db_sent := db_sent w; out := out w |}).
Proof. unfold on_net, Eff.run. destruct (m (net w)); reflexivity. Qed.

(** The listing [loadPhotos] stores when the select is carried out. *)
Lemma listing_shown_ok productId pid rows :
  productId = Some pid ->
  Forall (fun r => product_id r = productId)
    (merge_sort Supabase.photo_order
       (List.filter (Supabase.eq_product_id pid) rows))
  /\ StronglySorted Supabase.photo_order
       (merge_sort Supabase.photo_order
          (List.filter (Supabase.eq_product_id pid) rows)).
Proof.
  intros Hpid. split; [ | apply StronglySorted_merge_sort; apply _ ].
  rewrite merge_sort_Permutation.
  apply List.Forall_forall. intros r Hin.
  apply filter_In in Hin as [_ Heq].
  unfold Supabase.eq_product_id in Heq.
  destruct (product_id r) as [p |]; [ | discriminate Heq ].
  apply String.eqb_eq in Heq. subst p. symmetry. exact Hpid.
Qed.

(** [loadPhotos], case by case. *)
Lemma loadPhotos_run productId s w :
  Eff.run (loadPhotos configured carried_out table productId onPhotosChange s) w
  = match productId with
    | Some (String c r) =>
        if configured && carried_out (db_sent w) then
          let listing := merge_sort Supabase.photo_order
                           (List.filter (Supabase.eq_product_id (String c r))
                              (table (net w))) in
          (setLoading false (setPhotos listing (setLoading true s)),
           {| net := net w; db_sent := S (db_sent w);
              out := out w ++ (if onPhotosChange
                               then [OnPhotosChange listing] else []) |})
        else
          (setLoading false (setLoading true s),
           {| net := net w;
              db_sent := if configured then S (db_sent w) else db_sent w;
              out := out w ++ [ToastError "Errore nel caricamento delle foto"] |})
    | _ => (s, w)
    end.
Proof.
  unfold loadPhotos.
  destruct productId as [[| c r] |]; try reflexivity.
  unfold Eff.run, Eff.bind, on_db, Supabase.getProductPhotos,
    Supabase.select_ordered, Eff.ret, tell.
  destruct configured; cbn [negb andb].
  - cbn [Supabase.sent Supabase.rows].
    destruct (carried_out (db_sent w)); cbn.
    + destruct onPhotosChange; cbn; rewrite ?app_nil_r; reflexivity.
    + reflexivity.
  - cbn. reflexivity.
Qed.

(** A property of the gallery that every listing of the product has is
    kept by [loadPhotos]. *)
Lemma loadPhotos_keeps (P : list PhotoDescriptor -> Prop) productId s w :
  (forall c r n, productId = Some (String c r) ->
     P (merge_sort Supabase.photo_order
          (List.filter (Supabase.eq_product_id (String c r)) (table n)))) ->
  let o := Eff.run (loadPhotos configured carried_out table productId
                      onPhotosChange s) w in
  net (snd o) = net w
  /\ uploading (fst o) = uploading s
  /\ apiStatus (fst o) = apiStatus s
  /\ (P (photos s) -> P (photos (fst o))).
Proof.
  intros HP o. subst o. rewrite loadPhotos_run.
  destruct productId as [[| c r] |] eqn:Hpid.
  - do 3 (split; [ reflexivity | ]). intros H. exact H.
  - destruct (configured && carried_out (db_sent w)); cbn [fst snd net].
    + do 3 (split; [ reflexivity | ]). intros _.
      apply (HP c r). reflexivity.
    + do 3 (split; [ reflexivity | ]). intros H. exact H.
  - do 3 (split; [ reflexivity | ]). intros H. exact H.
Qed.

(** The requests a batch of files leads to. *)
Lemma upload_each_spec productId files : forall sc ec s w,
  let r := Eff.run (upload_each NODE_ENV server productId productSku
                      files sc ec s) w in
  net (snd r)
  = net w ++ map (fun f => upload_request NODE_ENV f productId productSku false)
               (List.filter passes_checks files)
  /\ db_sent (snd r) = db_sent w
  /\ (exists per_file,
        out (snd r) = out w ++ per_file
        /\ (ec + length per_file = snd (fst r))%nat
        /\ Forall (fun o => exists msg, o = ToastError msg) per_file)
  /\ (snd (fst (fst r)) + snd (fst r) = sc + ec + length files)%nat
  /\ (sc <= snd (fst (fst r)))%nat
  /\ (ec + (length files - length (List.filter passes_checks files))
      <= snd (fst r))%nat
  /\ photos (fst (fst (fst r))) = photos s
  /\ uploading (fst (fst (fst r))) = uploading s
  /\ (apiStatus s = status_error ->
      apiStatus (fst (fst (fst r))) = status_error).
Proof.
  induction files as [| file rest IH]; intros sc ec s w r.
  - subst r. cbn. rewrite app_nil_r.
    repeat split; try reflexivity; try lia; auto.
    exists []. rewrite app_nil_r. repeat split; [ cbn; lia | constructor ].
  - subst r. cbn [upload_each List.filter].
    destruct (is_image_type (file_type file)) eqn:Hty; cbn [negb].
    2:{ (* not an image *)
      assert (Hp : passes_checks file = false)
        by (unfold passes_checks; rewrite Hty; reflexivity).
      rewrite Hp.
      rewrite run_bind, pm_run_tell. cbn [fst snd].
      specialize (IH sc (S ec) s
                    {| net := net w; db_sent := db_sent w;
                       out := out w ++ [ToastError
                         ("File " ++ file_name file ++ " non è un'immagine valida")] |}).
      cbv zeta in IH. cbn [net db_sent out] in IH.
      destruct IH as (Hnet & Hdb & (pf & Hout & Hlen & Hall) & Hsum & Hsc & Hec & Hrest).
      split; [ exact Hnet | ]. split; [ exact Hdb | ].
      split.
      { eexists (_ :: pf). split; [ rewrite Hout, <- app_assoc; reflexivity | ].
        split; [ cbn [length]; lia | ].
        constructor; [ eexists; reflexivity | exact Hall ]. }
      split; [ cbn [length]; lia | ]. split; [ lia | ].
      split; [ cbn [length]; lia | exact Hrest ]. }
    destruct (file_size file >? 10 * 1024 * 1024) eqn:Hsz; cbn [negb].
    { (* too large *)
      assert (Hp : passes_checks file = false)
        by (unfold passes_checks; rewrite Hty, Hsz; reflexivity).
      rewrite Hp.
      rewrite run_bind, pm_run_tell. cbn [fst snd].
      specialize (IH sc (S ec) s
                    {| net := net w; db_sent := db_sent w;
                       out := out w ++ [ToastError
                         ("File " ++ file_name file ++ " troppo grande (max 10MB)")] |}).
      cbv zeta in IH. cbn [net db_sent out] in IH.
      destruct IH as (Hnet & Hdb & (pf & Hout & Hlen & Hall) & Hsum & Hsc & Hec & Hrest).
      split; [ exact Hnet | ]. split; [ exact Hdb | ].
      split.
      { eexists (_ :: pf). split; [ rewrite Hout, <- app_assoc; reflexivity | ].
        split; [ cbn [length]; lia | ].
        constructor; [ eexists; reflexivity | exact Hall ]. }
      split; [ cbn [length]; lia | ]. split; [ lia | ].
      split; [ cbn [length]; lia | exact Hrest ]. }
    (* sent to the gateway *)
    assert (Hp : passes_checks file = true)
      by (unfold passes_checks; rewrite Hty, Hsz; reflexivity).
    rewrite Hp. cbn [map].
    rewrite run_bind, pm_run_on_net. cbn [fst snd].
    rewrite upload_run. rewrite Hty, Hsz. cbn [negb fst snd].
    set (result := match server (net w) _ with
                   | FetchRejects msg => _
                   | FetchResponds _ _ => _
                   end).
    assert (Hlenle : (length (List.filter passes_checks rest) <= length rest)%nat)
      by apply List.filter_length_le.
    destruct (error result) as [e |].
    + rewrite run_bind, pm_run_tell. cbn [fst snd net db_sent out].
      match goal with
      | |- context [Eff.run (upload_each _ _ _ _ rest sc (S ec) ?s1) ?w1] =>
          specialize (IH sc (S ec) s1 w1)
      end.
      cbv zeta in IH. cbn [net db_sent out] in IH.
      destruct IH as (Hnet & Hdb & (pf & Hout & Hlen & Hall) & Hsum & Hsc & Hec
                      & Hph & Hup & Hst).
      split; [ rewrite Hnet, <- app_assoc; reflexivity | ].
      split; [ exact Hdb | ].
      split.
      { eexists (_ :: pf). split; [ rewrite Hout, <- app_assoc; reflexivity | ].
        split; [ cbn [length]; lia | ].
        constructor; [ eexists; reflexivity | exact Hall ]. }
      split; [ cbn [length]; lia | ]. split; [ lia | ].
      split; [ cbn [length]; lia | ].
      split; [ rewrite Hph; destruct (Supabase.includes _ _); reflexivity | ].
      split; [ rewrite Hup; destruct (Supabase.includes _ _); reflexivity | ].
      intros Herr. apply Hst.
      destruct (Supabase.includes _ _); [ reflexivity | exact Herr ].
    + match goal with
      | |- context [Eff.run (upload_each _ _ _ _ rest (S sc) ec ?s1) ?w1] =>
          specialize (IH (S sc) ec s1 w1)
      end.
      cbv zeta in IH. cbn [net db_sent out] in IH.
      destruct IH as (Hnet & Hdb & (pf & Hout & Hlen & Hall) & Hsum & Hsc & Hec
                      & Hrest).
      split; [ rewrite Hnet, <- app_assoc; reflexivity | ].
      split; [ exact Hdb | ].
      split; [ exists pf; repeat split; assumption | ].
      split; [ cbn [length]; lia | ]. split; [ lia | ].
      split; [ cbn [length]; lia | exact Hrest ].
Qed.

Section GalleryProperty.

(** A property of the gallery that every listing of the product has. *)
Variable P : list PhotoDescriptor -> Prop.

Lemma tell_then_load_keeps productId o s w :
  (forall c r n, productId = Some (String c r) ->
     P (merge_sort Supabase.photo_order
          (List.filter (Supabase.eq_product_id (String c r)) (table n)))) ->
  P (photos s) ->
  P (photos (fst (Eff.run (_ <- tell o ;;
                           loadPhotos configured carried_out table productId
                             onPhotosChange s) w))).
Proof.
  intros HP Hok. rewrite run_bind, pm_run_tell. cbn [fst snd].
  apply (loadPhotos_keeps P); assumption.
Qed.

Lemma uploadPhotos_keeps productId files s w :
  (forall c r n, productId = Some (String c r) ->
     P (merge_sort Supabase.photo_order
          (List.filter (Supabase.eq_product_id (String c r)) (table n)))) ->
  P (photos s) ->
  P (photos (fst (Eff.run (uploadPhotos NODE_ENV server configured carried_out
                             table productId productSku onPhotosChange
                             files s) w))).
Proof.
  intros HP Hok. unfold uploadPhotos.
  destruct files as [| file rest]; [ exact Hok | ].
  destruct productId as [[| c r] |] eqn:Hpid; try exact Hok.
  rewrite run_bind.
  pose proof (upload_each_spec (Some (String c r)) (file :: rest) 0 0
                (setUploading true s) w) as Hloop.
  cbv zeta in Hloop.
  destruct (Eff.run (upload_each NODE_ENV server (Some (String c r)) productSku
                       (file :: rest) 0 0 (setUploading true s)) w)
    as [[[s1 sc] ec] w1].
  cbn [fst snd] in Hloop.
  destruct Hloop as (_ & _ & _ & _ & _ & _ & Hph & _).
  cbn [fst snd]. rewrite run_bind.
  assert (Hok1 : P (photos (setUploading false s1))).
  { cbn [photos setUploading]. rewrite Hph. exact Hok. }
  destruct (0 <? sc)%nat.
  - rewrite run_bind.
    destruct (0 <? ec)%nat; cbn [fst snd];
      apply tell_then_load_keeps; assumption.
  - destruct (0 <? ec)%nat; exact Hok1.
Qed.

Lemma perform_keeps productId a s w :
  (forall c r n, productId = Some (String c r) ->
     P (merge_sort Supabase.photo_order
          (List.filter (Supabase.eq_product_id (String c r)) (table n)))) ->
  P (photos s) ->
  P (photos (fst (Eff.run (perform NODE_ENV server configured carried_out table
                             productId productSku onPhotosChange a s) w))).
Proof.
  intros HP Hok. destruct a as [| | files | confirmed photo | photo |];
    cbn [perform].
  - exact Hok.
  - apply (loadPhotos_keeps P); assumption.
  - unfold handleFileSelect. destruct files; [ exact Hok | ].
    apply uploadPhotos_keeps; assumption.
  - unfold handleDeletePhoto. destruct confirmed; cbn [negb]; [ | exact Hok ].
    rewrite run_bind, pm_run_on_net. cbn [fst snd].
    destruct (error _); [ exact Hok | ].
    apply tell_then_load_keeps; assumption.
  - unfold handleSetPrimary.
    rewrite run_bind, pm_run_on_net. cbn [fst snd].
    destruct (error _); [ exact Hok | ].
    apply tell_then_load_keeps; assumption.
  - apply tell_then_load_keeps; assumption.
Qed.

Lemma play_keeps productId actions : forall s w,
  (forall c r n, productId = Some (String c r) ->
     P (merge_sort Supabase.photo_order
          (List.filter (Supabase.eq_product_id (String c r)) (table n)))) ->
  P (photos s) ->
  P (photos (fst (Eff.run (play NODE_ENV server configured carried_out table
                             productId productSku onPhotosChange actions s) w))).
Proof.
  induction actions as [| a rest IH]; intros s w HP Hok; [ exact Hok | ].
  cbn [play]. rewrite run_bind.
  apply IH; [ exact HP | ]. apply perform_keeps; assumption.
Qed.

End GalleryProperty.

(** A call to the endpoint followed, when it reports no error, by a
    reload: what [handleSetPrimary] and [handleDeletePhoto] share. *)
Lemma action_then_reload (call : Eff.M Net Result) (fail_msg ok_msg : string)
    productId s w :
  let o := Eff.run
             (result <- on_net call ;;
              match error result with
              | Some _ => _ <- tell (ToastError fail_msg) ;; Eff.ret s
              | None =>
                  _ <- tell (ToastSuccess ok_msg) ;;
                  loadPhotos configured carried_out table productId
                    onPhotosChange s
              end) w in
  let n1 := snd (Eff.run call (net w)) in
  net (snd o) = n1
  /\ match error (fst (Eff.run call (net w))) with
     | Some _ =>
         fst o = s /\ db_sent (snd o) = db_sent w
         /\ out (snd o) = out w ++ [ToastError fail_msg]
     | None =>
         match productId with
         | Some (String c r) =>
             if configured && carried_out (db_sent w) then
               let listing := merge_sort Supabase.photo_order
                                (List.filter (Supabase.eq_product_id (String c r))
                                   (table n1)) in
               photos (fst o) = listing
               /\ db_sent (snd o) = S (db_sent w)
               /\ out (snd o)
                  = out w ++ ToastSuccess ok_msg
                             :: (if onPhotosChange
                                 then [OnPhotosChange listing] else [])
             else
               photos (fst o) = photos s
               /\ out (snd o)
                  = out w ++ [ToastSuccess ok_msg;
                              ToastError "Errore nel caricamento delle foto"]
         | _ => fst o = s /\ out (snd o) = out w ++ [ToastSuccess ok_msg]
         end
     end.
Proof.
  intros o n1. subst o n1.
  rewrite run_bind, pm_run_on_net. cbn [fst snd].
  destruct (error (fst (Eff.run call (net w)))) as [e |].
  - rewrite run_bind, pm_run_tell. cbn. repeat split.
  - rewrite run_bind, pm_run_tell. cbn [fst snd]. rewrite loadPhotos_run.
    destruct productId as [[| c r] |]; cbn [fst snd net out db_sent];
      try (repeat split; fail).
    destruct (configured && carried_out (db_sent w));
      cbn [fst snd net out db_sent photos setLoading setPhotos].
    + split; [ reflexivity | ]. split; [ reflexivity | ].
      split; [ reflexivity | ]. rewrite <- app_assoc. reflexivity.
    + split; [ reflexivity | ]. split; [ reflexivity | ].
      rewrite <- app_assoc. reflexivity.
Qed.

End PhotoManagerFacts.

(** X22.  For a saved product [uploadPhotos] accounts for every file of
    the selection: each file counts as a success or as an error, never
    both; a file that fails the type or size check is an error and is not
    sent; the others are sent one by one, in order, none of them marked as
    the first photo.  Every error shows its own toast.  The gallery is
    reloaded, once, only when at least one upload succeeded, after the
    toast with the number of successes; the toast with the number of
    errors comes last.  [uploading] ends false, and an API status of
    'error' is never reset. *)
Theorem uploadPhotos_accounts_for_every_file :
  forall (NODE_ENV : string)
         (server : UploadClient.Net -> UploadClient.Request -> UploadClient.FetchOutcome)
         (configured : bool) (carried_out : nat -> bool)
         (table : UploadClient.Net -> list UploadClient.PhotoDescriptor)
         (pid productSku : string) (onPhotosChange : bool)
         (files : list UploadClient.File)
         (s : PhotoManagerSecure.State) (w : PhotoManagerSecure.World),
    pid <> EmptyString ->
    let o := Eff.run (PhotoManagerSecure.uploadPhotos NODE_ENV server configured
                        carried_out table (Some pid) productSku onPhotosChange
                        files s) w in
    PhotoManagerSecure.net (snd o)
    = PhotoManagerSecure.net w
      ++ map (fun f => UploadClient.upload_request NODE_ENV f (Some pid) productSku false)
           (List.filter PhotoManagerSecure.passes_checks files)
    /\ (files <> [] -> PhotoManagerSecure.uploading (fst o) = false)
    /\ (PhotoManagerSecure.apiStatus s = PhotoManagerSecure.status_error ->
        PhotoManagerSecure.apiStatus (fst o) = PhotoManagerSecure.status_error)
    /\ exists (successCount errorCount : nat)
              (per_file reload : list PhotoManagerSecure.Output),
         (successCount + errorCount = length files)%nat
         /\ (length files - length (List.filter PhotoManagerSecure.passes_checks files)
             <= errorCount)%nat
         /\ length per_file = errorCount
         /\ Forall (fun o => exists msg, o = PhotoManagerSecure.ToastError msg) per_file
         /\ PhotoManagerSecure.out (snd o)
            = PhotoManagerSecure.out w ++ per_file
              ++ (if (0 <? successCount)%nat
                  then PhotoManagerSecure.ToastSuccess
                         (PhotoManagerSecure.count_toString successCount
                          ++ " foto caricate con successo")%string :: reload
                  else [])
              ++ (if (0 <? errorCount)%nat
                  then [PhotoManagerSecure.ToastError
                          (PhotoManagerSecure.count_toString errorCount
                           ++ " foto non caricate")%string]
                  else [])
         /\ (reload = []
             \/ reload = [PhotoManagerSecure.ToastError "Errore nel caricamento delle foto"]
             \/ reload = [PhotoManagerSecure.OnPhotosChange (PhotoManagerSecure.photos (fst o))])
         /\ PhotoManagerSecure.db_sent (snd o)
            = (PhotoManagerSecure.db_sent w
               + (if (0 <? successCount)%nat && configured then 1 else 0))%nat
         /\ (successCount = 0%nat ->
             PhotoManagerSecure.photos (fst o) = PhotoManagerSecure.photos s).
Proof.
  intros NODE_ENV server configured carried_out table pid productSku
    onPhotosChange files s w Hpid o. subst o.
  destruct pid as [| c r]; [ exfalso; apply Hpid; reflexivity | ].
  unfold PhotoManagerSecure.uploadPhotos.
  destruct files as [| file rest].
  { cbn. rewrite app_nil_r.
    split; [ reflexivity | ]. split; [ intros H; exfalso; apply H; reflexivity | ].
    split; [ exact (fun H => H) | ].
    exists 0%nat, 0%nat, [], []. cbn. rewrite app_nil_r.
    repeat split; try reflexivity; try lia; auto. }
  rewrite run_bind.
  pose proof (upload_each_spec NODE_ENV server productSku (Some (String c r))
                (file :: rest) 0 0 (PhotoManagerSecure.setUploading true s) w)
    as Hloop.
  cbv zeta in Hloop.
  destruct (Eff.run (PhotoManagerSecure.upload_each NODE_ENV server
                       (Some (String c r)) productSku (file :: rest) 0 0
                       (PhotoManagerSecure.setUploading true s)) w)
    as [[[s1 sc] ec] w1].
  cbn [fst snd] in Hloop.
  destruct Hloop as (Hnet & Hdb & (pf & Hout & Hlen & Hall) & Hsum & _ & Hec
                     & Hph & _ & Hst).
  cbn [fst snd].
  pose proof (loadPhotos_run configured carried_out table onPhotosChange
                (Some (String c r))) as Hl.
  unfold Eff.run in Hl |- *.
  unfold Eff.bind, Eff.ret, PhotoManagerSecure.tell.
  set (listing := merge_sort Supabase.photo_order
                    (List.filter (Supabase.eq_product_id (String c r))
                       (table (PhotoManagerSecure.net w1)))).
  assert (Hcount : (sc + ec = length (file :: rest))%nat) by lia.
  assert (Hrej : (length (file :: rest)
                  - length (List.filter PhotoManagerSecure.passes_checks (file :: rest))
                  <= ec)%nat) by lia.
  destruct (0 <? sc)%nat eqn:Hsc; destruct (0 <? ec)%nat eqn:Hecb;
    rewrite ?Hl;
    cbn [PhotoManagerSecure.net PhotoManagerSecure.db_sent PhotoManagerSecure.out];
    fold listing;
    clear Hl;
    try match goal with
        | |- context [configured && carried_out (PhotoManagerSecure.db_sent w1)] =>
            destruct (configured && carried_out (PhotoManagerSecure.db_sent w1))
              eqn:Hload
        end;
    cbn [fst snd PhotoManagerSecure.net PhotoManagerSecure.db_sent
         PhotoManagerSecure.out];
    (split; [ exact Hnet | ]);
    (split; [ reflexivity | ]);
    (split; [ intros Herr; apply Hst; exact Herr | ]).
  (* successes and errors, reloaded *)
  - exists sc, ec, pf,
      (if onPhotosChange then [PhotoManagerSecure.OnPhotosChange listing] else []).
    rewrite Hsc, Hecb. apply andb_prop in Hload as [-> _].
    split; [ exact Hcount | ]. split; [ exact Hrej | ].
    split; [ lia | ]. split; [ exact Hall | ].
    split; [ rewrite Hout, <- !app_assoc; reflexivity | ].
    split; [ destruct onPhotosChange; [ right; right | left ]; reflexivity | ].
    split; [ cbn; lia | ].
    intros H0. apply Nat.ltb_lt in Hsc. lia.
  (* successes and errors, reload failed *)
  - exists sc, ec, pf,
      [PhotoManagerSecure.ToastError "Errore nel caricamento delle foto"].
    rewrite Hsc, Hecb.
    split; [ exact Hcount | ]. split; [ exact Hrej | ].
    split; [ lia | ]. split; [ exact Hall | ].
    split; [ rewrite Hout, <- !app_assoc; reflexivity | ].
    split; [ right; left; reflexivity | ].
    split; [ destruct configured; cbn; lia | ].
    intros H0. apply Nat.ltb_lt in Hsc. lia.
  (* successes only, reloaded *)
  - exists sc, ec, pf,
      (if onPhotosChange then [PhotoManagerSecure.OnPhotosChange listing] else []).
    rewrite Hsc, Hecb. apply andb_prop in Hload as [-> _].
    split; [ exact Hcount | ]. split; [ exact Hrej | ].
    split; [ lia | ]. split; [ exact Hall | ].
    split; [ rewrite Hout, <- !app_assoc, !app_nil_r; reflexivity | ].
    split; [ destruct onPhotosChange; [ right; right | left ]; reflexivity | ].
    split; [ cbn; lia | ].
    intros H0. apply Nat.ltb_lt in Hsc. lia.
  (* successes only, reload failed *)
  - exists sc, ec, pf,
      [PhotoManagerSecure.ToastError "Errore nel caricamento delle foto"].
    rewrite Hsc, Hecb.
    split; [ exact Hcount | ]. split; [ exact Hrej | ].
    split; [ lia | ]. split; [ exact Hall | ].
    split; [ rewrite Hout, <- !app_assoc, !app_nil_r; reflexivity | ].
    split; [ right; left; reflexivity | ].
    split; [ destruct configured; cbn; lia | ].
    intros H0. apply Nat.ltb_lt in Hsc. lia.
  (* errors only *)
  - exists sc, ec, pf, []. rewrite Hsc, Hecb.
    split; [ exact Hcount | ]. split; [ exact Hrej | ].
    split; [ lia | ]. split; [ exact Hall | ].
    split; [ rewrite Hout, <- !app_assoc; reflexivity | ].
    split; [ left; reflexivity | ].
    split; [ cbn; lia | ].
    intros _. exact Hph.
  (* neither: cannot happen for a non-empty selection, but harmless *)
  - exists sc, ec, pf, []. rewrite Hsc, Hecb.
    split; [ exact Hcount | ]. split; [ exact Hrej | ].
    split; [ lia | ]. split; [ exact Hall | ].
    split; [ rewrite Hout; cbn [app]; rewrite ?app_nil_r; reflexivity | ].
    split; [ left; reflexivity | ].
    split; [ cbn; lia | ].
    intros _. exact Hph.
Qed.

Lemma uploadPhotos_accounts_for_every_file_witness :
  PhotoManagerSecure.net
    (snd (Eff.run (PhotoManagerSecure.uploadPhotos "production" Samples.accepting
                     true SamplePhotos.always SamplePhotos.shuffled_table
                     (Some "prod-A") "SKU-1" true
                     [Samples.small_jpeg; Samples.notes_txt; Samples.big_jpeg]
                     PhotoManagerSecure.initial)
            {| PhotoManagerSecure.net := []; PhotoManagerSecure.db_sent := 0;
               PhotoManagerSecure.out := [] |}))
  = [UploadClient.upload_request "production" Samples.small_jpeg
       (Some "prod-A") "SKU-1" false].
Proof.
  apply (uploadPhotos_accounts_for_every_file "production" Samples.accepting
           true SamplePhotos.always SamplePhotos.shuffled_table
           "prod-A" "SKU-1" true
           [Samples.small_jpeg; Samples.notes_txt; Samples.big_jpeg]
           PhotoManagerSecure.initial
           {| PhotoManagerSecure.net := []; PhotoManagerSecure.db_sent := 0;
              PhotoManagerSecure.out := [] |}).
  discriminate.
Defined.

(** X23.  For a saved product, whatever is done with the mounted photo
    manager (loading, selecting files, deleting, choosing the primary
    photo, saving from the camera) and whatever the endpoint answers, no
    handler edits the gallery in place: the list is at the end either the
    one it started with or a listing of this product handed back by the
    service at some moment.  With the service answering the query as
    asked (this product's rows, those flagged primary first, then the
    older first), a gallery that shows only photos of this product in that
    order therefore keeps doing so. *)
Theorem gallery_shows_only_listed_photos :
  forall (NODE_ENV : string)
         (server : UploadClient.Net -> UploadClient.Request -> UploadClient.FetchOutcome)
         (configured : bool) (carried_out : nat -> bool)
         (table : UploadClient.Net -> list UploadClient.PhotoDescriptor)
         (pid productSku : string) (onPhotosChange : bool)
         (actions : list PhotoManagerSecure.Action)
         (s : PhotoManagerSecure.State) (w : PhotoManagerSecure.World),
    pid <> EmptyString ->
    let final := fst (Eff.run (PhotoManagerSecure.play NODE_ENV server configured
                                 carried_out table (Some pid) productSku
                                 onPhotosChange actions s) w) in
    PhotoManagerSecure.kept_or_listed table pid
      (PhotoManagerSecure.photos s) (PhotoManagerSecure.photos final)
    /\ (PhotoManagerSecure.shown_ok (Some pid) s ->
        PhotoManagerSecure.shown_ok (Some pid) final
        /\ (forall r, In r (PhotoManagerSecure.photos final) ->
              UploadClient.product_id r = Some pid)
        /\ (forall i j a b, (i < j)%nat ->
              PhotoManagerSecure.photos final !! i = Some a ->
              PhotoManagerSecure.photos final !! j = Some b ->
              UploadClient.is_primary b = true -> UploadClient.is_primary a = true)).
Proof.
  intros NODE_ENV server configured carried_out table pid productSku
    onPhotosChange actions s w Hpid final.
  split.
  { subst final.
    apply (play_keeps NODE_ENV server configured carried_out table productSku
             onPhotosChange
             (PhotoManagerSecure.kept_or_listed table pid (PhotoManagerSecure.photos s))).
    - intros c r n Heq. injection Heq as <-. right. exists n. reflexivity.
    - left. reflexivity. }
  intros Hok.
  assert (Hfinal : PhotoManagerSecure.shown_ok (Some pid) final).
  { subst final.
    apply (play_keeps NODE_ENV server configured carried_out table productSku
             onPhotosChange
             (fun l => Forall (fun r => UploadClient.product_id r = Some pid) l
                       /\ StronglySorted Supabase.photo_order l)).
    - intros c r n Heq. apply (listing_shown_ok (Some pid) (String c r)). exact Heq.
    - exact Hok. }
  split; [ exact Hfinal | ].
  destruct Hfinal as [Hall Hsorted].
  split.
  - intros r Hin. rewrite List.Forall_forall in Hall. apply Hall, Hin.
  - intros i j a b Hij Ha Hb Hprim.
    pose proof (StronglySorted_lookup Supabase.photo_order _ Hsorted
                  i j a b Hij Ha Hb) as Hord.
    unfold Supabase.photo_order, Supabase.comes_first in Hord.
    rewrite Hprim in Hord.
    destruct (UploadClient.is_primary a); [ reflexivity | discriminate Hord ].
Qed.

Lemma gallery_shows_only_listed_photos_witness :
  let final := fst (Eff.run (PhotoManagerSecure.play "production" Samples.accepting
                               true SamplePhotos.always SamplePhotos.shuffled_table
                               (Some "prod-A") "SKU-1" true
                               [ PhotoManagerSecure.Mount; PhotoManagerSecure.Load;
                                 PhotoManagerSecure.SetPrimary
                                   (SamplePhotos.photo 3 "prod-A" false) ]
                               PhotoManagerSecure.initial)
                      {| PhotoManagerSecure.net := []; PhotoManagerSecure.db_sent := 0;
                         PhotoManagerSecure.out := [] |}) in
  PhotoManagerSecure.photos final
  = [ SamplePhotos.photo 2 "prod-A" true;
      SamplePhotos.photo 1 "prod-A" false;
      SamplePhotos.photo 3 "prod-A" false ]
  /\ PhotoManagerSecure.kept_or_listed SamplePhotos.shuffled_table "prod-A" []
       (PhotoManagerSecure.photos final).
Proof.
  split; [ vm_compute; reflexivity | ].
  apply (gallery_shows_only_listed_photos "production" Samples.accepting
           true SamplePhotos.always SamplePhotos.shuffled_table
           "prod-A" "SKU-1" true
           [ PhotoManagerSecure.Mount; PhotoManagerSecure.Load;
             PhotoManagerSecure.SetPrimary (SamplePhotos.photo 3 "prod-A" false) ]
           PhotoManagerSecure.initial
           {| PhotoManagerSecure.net := []; PhotoManagerSecure.db_sent := 0;
              PhotoManagerSecure.out := [] |}).
  discriminate.
Defined.

(** X24.  [handleSetPrimary] and [handleDeletePhoto] (once confirmed) send
    one request each to the endpoint; a declined confirmation does
    nothing at all.  When the endpoint reports an error the component is
    left exactly as it was, the database is not asked, and one error toast
    is shown.  When it reports none, the success toast is shown and the
    gallery is reloaded from the table as that request left it: if the
    select is carried out the gallery becomes that listing, otherwise it
    stays as it was and an error toast follows the success toast. *)
Theorem gallery_actions_reload_only_on_success :
  forall (NODE_ENV : string)
         (server : UploadClient.Net -> UploadClient.Request -> UploadClient.FetchOutcome)
         (carried_out : nat -> bool)
         (table : UploadClient.Net -> list UploadClient.PhotoDescriptor)
         (pid productSku : string) (onPhotosChange : bool)
         (photo : UploadClient.PhotoDescriptor)
         (s : PhotoManagerSecure.State) (w : PhotoManagerSecure.World),
    pid <> EmptyString ->
    let outcome :=
      fun (request : UploadClient.Request) (result : UploadClient.Result)
          (fail_msg ok_msg : string)
          (o : PhotoManagerSecure.State * PhotoManagerSecure.World) =>
        let listing := merge_sort Supabase.photo_order
                         (List.filter (Supabase.eq_product_id pid)
                            (table (PhotoManagerSecure.net w ++ [request]))) in
        PhotoManagerSecure.net (snd o) = PhotoManagerSecure.net w ++ [request]
        /\ match UploadClient.error result with
           | Some _ =>
               fst o = s
               /\ PhotoManagerSecure.db_sent (snd o) = PhotoManagerSecure.db_sent w
               /\ PhotoManagerSecure.out (snd o)
                  = PhotoManagerSecure.out w ++ [PhotoManagerSecure.ToastError fail_msg]
           | None =>
               if carried_out (PhotoManagerSecure.db_sent w) then
                 PhotoManagerSecure.photos (fst o) = listing
                 /\ PhotoManagerSecure.db_sent (snd o)
                    = S (PhotoManagerSecure.db_sent w)
                 /\ PhotoManagerSecure.out (snd o)
                    = PhotoManagerSecure.out w
                      ++ PhotoManagerSecure.ToastSuccess ok_msg
                         :: (if onPhotosChange
                             then [PhotoManagerSecure.OnPhotosChange listing]
                             else [])
               else
                 PhotoManagerSecure.photos (fst o) = PhotoManagerSecure.photos s
                 /\ PhotoManagerSecure.out (snd o)
                    = PhotoManagerSecure.out w
                      ++ [ PhotoManagerSecure.ToastSuccess ok_msg;
                           PhotoManagerSecure.ToastError
                             "Errore nel caricamento delle foto" ]
           end in
    Eff.run (PhotoManagerSecure.handleDeletePhoto NODE_ENV server true carried_out
               table (Some pid) onPhotosChange false photo s) w = (s, w)
    /\ outcome
         (UploadClient.setPrimary_request NODE_ENV (UploadClient.id photo) (Some pid))
         (fst (Eff.run (UploadClient.setPrimaryPhotoSecure NODE_ENV server
                          (UploadClient.id photo) (Some pid))
                 (PhotoManagerSecure.net w)))
         "Errore nell'impostazione della foto primaria" "Foto primaria impostata"
         (Eff.run (PhotoManagerSecure.handleSetPrimary NODE_ENV server true
                     carried_out table (Some pid) onPhotosChange photo s) w)
    /\ outcome
         (UploadClient.delete_request NODE_ENV (UploadClient.id photo))
         (fst (Eff.run (UploadClient.deleteProductPhotoSecure NODE_ENV server
                          (UploadClient.id photo))
                 (PhotoManagerSecure.net w)))
         "Errore nell'eliminazione della foto" "Foto eliminata"
         (Eff.run (PhotoManagerSecure.handleDeletePhoto NODE_ENV server true
                     carried_out table (Some pid) onPhotosChange true photo s) w).
Proof.
  intros NODE_ENV server carried_out table pid productSku onPhotosChange photo
    s w Hpid outcome.
  destruct pid as [| c r]; [ exfalso; apply Hpid; reflexivity | ].
  split; [ reflexivity | ].
  split.
  - pose proof (action_then_reload true carried_out table onPhotosChange
                  (UploadClient.setPrimaryPhotoSecure NODE_ENV server
                     (UploadClient.id photo) (Some (String c r)))
                  "Errore nell'impostazione della foto primaria"
                  "Foto primaria impostata"
                  (Some (String c r)) s w) as H.
    cbv zeta in H. rewrite setPrimary_run in H. cbn [andb] in H.
    exact H.
  - pose proof (action_then_reload true carried_out table onPhotosChange
                  (UploadClient.deleteProductPhotoSecure NODE_ENV server
                     (UploadClient.id photo))
                  "Errore nell'eliminazione della foto"
                  "Foto eliminata"
                  (Some (String c r)) s w) as H.
    cbv zeta in H. rewrite delete_run in H. cbn [andb] in H.
    exact H.
Qed.

Lemma gallery_actions_reload_only_on_success_witness :
  Eff.run (PhotoManagerSecure.handleDeletePhoto "production" Samples.offline true
             SamplePhotos.always SamplePhotos.shuffled_table (Some "prod-A") true
             false (SamplePhotos.photo 3 "prod-A" false) PhotoManagerSecure.initial)
    {| PhotoManagerSecure.net := []; PhotoManagerSecure.db_sent := 0;
       PhotoManagerSecure.out := [] |}
  = (PhotoManagerSecure.initial,
     {| PhotoManagerSecure.net := []; PhotoManagerSecure.db_sent := 0;
        PhotoManagerSecure.out := [] |}).
Proof.
  apply (gallery_actions_reload_only_on_success "production" Samples.offline
           SamplePhotos.always SamplePhotos.shuffled_table "prod-A" "SKU-1" true
           (SamplePhotos.photo 3 "prod-A" false) PhotoManagerSecure.initial
           {| PhotoManagerSecure.net := []; PhotoManagerSecure.db_sent := 0;
              PhotoManagerSecure.out := [] |}).
  discriminate.
Defined.
